(** * fetch_from_arxiv: a shallow embedding of [src/tools/fetch_from_arxiv.py]

    The Python module queries a paginated search API, normalizes the feed
    entries into records, appends them to a JSONL log and optionally
    downloads one PDF per record.  This file embeds its functions as Rocq
    definitions over an explicit world (remote services, clock, filesystem,
    event trace) and proves the properties of the specification about them.

    Conventions of the embedding:
    - a Python [str] is a [string]; its characters are code points below 256;
    - a Python [int] is a [Z];
    - a [dict] with string keys read from YAML is a [gmap string Value];
    - a value that may be [None] (a missing key read with [.get]) is an
      [option];
    - a function with effects is a computation [M A] that takes a world and
      returns either a value or a raised exception, with the new world. *)

From Stdlib Require Import ZArith String Ascii List Bool Lia.
From stdpp Require Import gmap strings list.

Open Scope string_scope.
Open Scope Z_scope.

(* ===================================================================== *)
(** * Python string primitives used by the module *)
(* ===================================================================== *)

Module Py.

(** [s.startswith(p)] *)
Fixpoint startswith (p s : string) : bool :=
  match p, s with
  | EmptyString, _ => true
  | String _ _, EmptyString => false
  | String a p', String b s' => Ascii.eqb a b && startswith p' s'
  end.

(** [p in s] *)
Fixpoint contains (p s : string) : bool :=
  startswith p s ||
  match s with
  | EmptyString => false
  | String _ s' => contains p s'
  end.

(** [s.replace(old, new)] for a non-empty [old]: occurrences are found
    from left to right and do not overlap.  [skip] counts the characters
    of an occurrence that are still to be dropped. *)
Fixpoint replace_from (old new : string) (skip : nat) (s : string) : string :=
  match s with
  | EmptyString => EmptyString
  | String c s' =>
      match skip with
      | S k => replace_from old new k s'
      | O =>
          if startswith old s
          then new +:+ replace_from old new (Nat.pred (String.length old)) s'
          else String c (replace_from old new O s')
      end
  end.

Definition replace (old new s : string) : string := replace_from old new O s.

(** [str.isspace] on one character (code points below 256). *)
Definition isspace (c : ascii) : bool :=
  let n := nat_of_ascii c in
  ((9 <=? n) && (n <=? 13) || (28 <=? n) && (n <=? 32)
   || (n =? 133) || (n =? 160))%nat.

Fixpoint lstrip (s : string) : string :=
  match s with
  | EmptyString => EmptyString
  | String c s' => if isspace c then lstrip s' else s
  end.

Fixpoint rstrip (s : string) : string :=
  match s with
  | EmptyString => EmptyString
  | String c s' =>
      match rstrip s' with
      | EmptyString => if isspace c then EmptyString else String c EmptyString
      | r => String c r
      end
  end.

(** [s.strip()] *)
Definition strip (s : string) : string := rstrip (lstrip s).

(** [sep.join(ls)] *)
Fixpoint join (sep : string) (ls : list string) : string :=
  match ls with
  | [] => EmptyString
  | [x] => x
  | x :: rest => x +:+ sep +:+ join sep rest
  end.

(** Truthiness of an optional string: [None] and [""] are false. *)
Definition truthy_str (o : option string) : bool :=
  match o with
  | Some (String _ _) => true
  | _ => false
  end.

(** [o or ""] *)
Definition or_empty (o : option string) : string :=
  if truthy_str o then default EmptyString o else EmptyString.

End Py.

(* ===================================================================== *)
(** * Data model *)
(* ===================================================================== *)

(** Raw feed entries as feedparser returns them: loosely structured
    dictionaries, every key of which may be missing. *)
Record Link := mkLink { link_type : option string; link_href : option string }.
Record Author := mkAuthor { author_name : option string }.
Record Tag := mkTag { tag_term : option string }.

Record Entry := mkEntry {
  e_id : option string;
  e_title : option string;
  e_summary : option string;
  e_authors : option (list Author);
  e_published : option string;
  e_updated : option string;
  e_links : option (list Link);
  e_tags : option (list Tag);
}.

(** [e.get("updated")] on a feedparser entry.  The entries are
    [FeedParserDict]s, whose lookup of the key [updated] falls back to the
    key [published] when [updated] is missing; the other keys the module
    reads ([id], [title], [summary], [authors], [published], [links],
    [tags], and [type], [href], [name], [term] below them) are plain. *)
Definition get_updated (e : Entry) : option string :=
  match e_updated e with
  | Some u => Some u
  | None => e_published e
  end.

(** The record dictionary built by [fetch_entry], with its ten keys. *)
Record PaperRecord := mkRecord {
  arxiv_id : string;
  title : string;
  summary : string;
  authors : list string;
  published : option string;
  updated : option string;
  abs_url : option string;
  pdf_url : option string;
  categories : list string;
  fetched_at_utc : string;
}.

(** [DEFAULT_ARXIV_API] *)
Definition DEFAULT_ARXIV_API : string := "https://export.arxiv.org/api/query".

(* ===================================================================== *)
(** * Pure helpers of the normalizer *)
(* ===================================================================== *)

Definition slash : ascii := "/"%char.

(** [c not in s] *)
Fixpoint lacks (c : ascii) (s : string) : bool :=
  match s with
  | EmptyString => true
  | String a s' => negb (Ascii.eqb a c) && lacks c s'
  end.

Fixpoint no_slash (s : string) : bool :=
  match s with
  | EmptyString => true
  | String c s' => negb (Ascii.eqb c slash) && no_slash s'
  end.

(** One attempt of the pattern [/abs/([^/]+)$] at the head of [s]: the
    group is greedy and must reach the end of the string, so it is the
    whole rest, which has to be non-empty and free of slashes. *)
Definition match_abs_here (s : string) : option string :=
  if Py.startswith "/abs/" s then
    match String.substring 5 (String.length s - 5) s with
    | EmptyString => None
    | rest => if no_slash rest then Some rest else None
    end
  else None.

(** [re.search(r"/abs/([^/]+)$", s)]: the leftmost position that matches. *)
Fixpoint re_search_abs (s : string) : option string :=
  match match_abs_here s with
  | Some g => Some g
  | None =>
      match s with
      | EmptyString => None
      | String _ s' => re_search_abs s'
      end
  end.

Definition normalize_arxiv_id (entry_id : string) : string :=
  match re_search_abs entry_id with
  | Some g => g
  | None => entry_id
  end.

Definition PDF_TYPE : string := "application/pdf".

(** The [for link in entry.get("links", [])] loop of [extract_pdf_url]:
    [Some h] when a link of the PDF type is found, [h] being its
    [link.get("href")]. *)
Fixpoint find_pdf_link (links : list Link) : option (option string) :=
  match links with
  | [] => None
  | l :: rest =>
      if decide (link_type l = Some PDF_TYPE) then Some (link_href l)
      else find_pdf_link rest
  end.

(** [s.replace("https://", "http://")], the scheme forced to plain http. *)
Definition force_http (s : string) : string := Py.replace "https://" "http://" s.

(** The fallback of [extract_pdf_url]: abs -> pdf. *)
Definition pdf_url_fallback (id : option string) : option string :=
  if Py.truthy_str id then
    let abs_url := Py.replace "https://" "http://" (default EmptyString id) in
    if Py.contains "/abs/" abs_url
    then Some (Py.replace "/abs/" "/pdf/" abs_url +:+ ".pdf")
    else None
  else None.

Definition extract_pdf_url (entry : Entry) : option string :=
  match find_pdf_link (default [] (e_links entry)) with
  | Some href => href
  | None => pdf_url_fallback (e_id entry)
  end.

(** [[x.get(k) for x in xs if x.get(k)]] *)
Definition truthy_fields {A} (get : A -> option string) (xs : list A) : list string :=
  omap (fun x => if Py.truthy_str (get x) then get x else None) xs.

(** The one-character string holding a double quote. *)
Definition dquote : string := String (ascii_of_nat 34) EmptyString.

(** [build_query] *)
Definition build_query (keywords : list string) (cats : list string) : string :=
  let kw_part := Py.join " OR " (map (fun kw => "all:" +:+ dquote +:+ kw +:+ dquote) keywords) in
  match cats with
  | [] => "(" +:+ kw_part +:+ ")"
  | _ =>
      let cat_part := Py.join " OR " (map (fun c => "cat:" +:+ c) cats) in
      "(" +:+ kw_part +:+ ") AND (" +:+ cat_part +:+ ")"
  end.


(* ===================================================================== *)
(** * Configuration values, exceptions, the world *)
(* ===================================================================== *)

(** Values a YAML configuration file gives to its options. *)
Inductive Value :=
| VNone
| VBool (b : bool)
| VInt (z : Z)
| VStr (s : string)
| VList (l : list string).

(** Python exceptions the module raises or lets through.  [NetError] is
    whatever the HTTP layer raises (connection error, timeout, HTTPError
    from [raise_for_status]), named by the remote side of the model. *)
Inductive Exn :=
| KeyError (key : string)
| TypeError
| ValueError (field file : string)
| OSError (path : string)
| NetError (what : string).

Inductive Result (A : Type) :=
| Ok (a : A)
| Raise (e : Exn).
Arguments Ok {A} a.
Arguments Raise {A} e.

(** The parameters [arxiv_search] sends with one request. *)
Record SearchReq := mkReq {
  rq_api : Value;
  rq_search_query : string;
  rq_start : Z;
  rq_max_results : Z;
  rq_sortBy : string;
  rq_sortOrder : string;
  rq_timeout_s : Z;
}.

(** What one page request comes back with: [requests.get] or
    [raise_for_status] raises, or the parsed feed has these entries. *)
Inductive FeedOutcome :=
| FeedFail (e : Exn)
| FeedOk (entries : list Entry).

(** What one artifact request comes back with: [requests.get] raises,
    [raise_for_status] raises, or the body streams the given chunks and
    then ends, normally or ([Some e]) by an exception of [iter_content]. *)
Inductive GetOutcome :=
| GetFail (e : Exn)
| GetBadStatus (e : Exn)
| GetStream (chunks : list string) (broken : option Exn).

(** The remote services, the clock and the operating system.  The answer
    to a request may depend on the request and on how many requests of that
    kind came before.  [env_denied] holds of the paths the operating system
    refuses to open for writing whatever the directories hold (permissions,
    a read-only volume, a quota). *)
Record Env := mkEnv {
  env_feed : nat -> SearchReq -> FeedOutcome;
  env_http : nat -> string -> GetOutcome;
  env_utcnow : nat -> string;
  env_denied : string -> bool;
}.

(** What [print] writes. *)
Inductive Message :=
| MsgQuery (query : string)
| MsgNoMore
| MsgFetched (fetched : Z)
| MsgSaved (n : nat) (path : Value)
| MsgDownloaded (pdf_path : string)
| MsgDownloadFailed (arxiv_id : string) (ex : Exn).

(** Observable events, one per call of the named primitive. *)
Inductive Event :=
| EvSearch (rq : SearchReq)
| EvGet (url out_path : string)
| EvOpen (path : string) (append : bool)
| EvSleep
| EvPrint (m : Message).

(** A file is the sequence of payloads written to it: a line of the JSONL
    log is the record it serializes, a block of a PDF is a chunk of bytes. *)
Inductive Block :=
| JsonLine (r : PaperRecord)
| Chunk (bytes : string).

(** The world.  [w_files] and [w_dirs] list the regular files and the
    directories under the spelling the program uses for them: there are no
    links, and a location is spelled in one way, so that two paths are the
    same location when they are the same string.  A path that names a
    directory by its form is never a regular file (see [open_file]).
    [w_trace] lists the events in the order they happened; [w_ticks]
    counts the reads of the clock. *)
Record World := mkWorld {
  w_env : Env;
  w_files : gmap string (list Block);
  w_dirs : gset string;
  w_ticks : nat;
  w_trace : list Event;
}.

(** The page requests of a trace. *)
Definition search_calls (tr : list Event) : list SearchReq :=
  omap (fun ev => match ev with EvSearch rq => Some rq | _ => None end) tr.

(** The artifact requests of a trace, each with the URL requested and the
    destination it is streamed to. *)
Definition get_calls (tr : list Event) : list (string * string) :=
  omap (fun ev => match ev with EvGet u p => Some (u, p) | _ => None end) tr.

(** The files opened for appending in a trace. *)
Definition append_opens (tr : list Event) : list string :=
  omap (fun ev => match ev with EvOpen p true => Some p | _ => None end) tr.

(** The number of courtesy pauses of a trace. *)
Definition sleeps (tr : list Event) : nat :=
  length (omap (fun ev => match ev with EvSleep => Some tt | _ => None end) tr).

(** The failures reported in a trace, by identifier. *)
Definition failures (tr : list Event) : list string :=
  omap (fun ev => match ev with
                  | EvPrint (MsgDownloadFailed i _) => Some i
                  | _ => None
                  end) tr.

(** ** The monad of effectful Python code *)

Definition M (A : Type) : Type := World -> Result A * World.

Definition ret {A} (a : A) : M A := fun w => (Ok a, w).
Definition raise {A} (e : Exn) : M A := fun w => (Raise e, w).
Definition bind {A B} (m : M A) (k : A -> M B) : M B :=
  fun w =>
    match m w with
    | (Ok a, w') => k a w'
    | (Raise e, w') => (Raise e, w')
    end.

(** [try: body  except Exception as ex: handler(ex)] *)
Definition try_except {A} (body : M A) (handler : Exn -> M A) : M A :=
  fun w =>
    match body w with
    | (Ok a, w') => (Ok a, w')
    | (Raise e, w') => handler e w'
    end.

Notation "x <- m ;; k" := (bind m (fun x => k))
  (at level 100, m at next level, right associativity).
Notation "m ;;; k" := (bind m (fun _ => k))
  (at level 100, right associativity).

Definition emit (ev : Event) : M unit :=
  fun w =>
    (Ok tt, mkWorld (w_env w) (w_files w) (w_dirs w) (w_ticks w)
                    (w_trace w ++ [ev])%list).

Definition print (m : Message) : M unit := emit (EvPrint m).
(** [time.sleep(1.0)] *)
Definition sleep : M unit := emit EvSleep.

(** [datetime.utcnow().isoformat()] *)
Definition utcnow_isoformat : M string :=
  fun w =>
    (Ok (env_utcnow (w_env w) (w_ticks w)),
     mkWorld (w_env w) (w_files w) (w_dirs w) (S (w_ticks w)) (w_trace w)).

(** [for x in xs: body(x)] *)
Fixpoint for_each {A} (body : A -> M unit) (xs : list A) : M unit :=
  match xs with
  | [] => ret tt
  | x :: rest => body x ;;; for_each body rest
  end.

(** [[f(x) for x in xs]] *)
Fixpoint map_m {A B} (f : A -> M B) (xs : list A) : M (list B) :=
  match xs with
  | [] => ret []
  | x :: rest => y <- f x ;; ys <- map_m f rest ;; ret (y :: ys)
  end.

(* ===================================================================== *)
(** * Filesystem primitives ([os], [os.path], [open]) *)
(* ===================================================================== *)

Fixpoint all_slashes (s : string) : bool :=
  match s with
  | EmptyString => true
  | String c s' => Ascii.eqb c slash && all_slashes s'
  end.

(** [p[:p.rfind("/") + 1]], [None] standing for the empty head of a path
    without a slash. *)
Fixpoint head_through_last_slash (p : string) : option string :=
  match p with
  | EmptyString => None
  | String c p' =>
      match head_through_last_slash p' with
      | Some h => Some (String c h)
      | None => if Ascii.eqb c slash then Some (String c EmptyString) else None
      end
  end.

(** [s.rstrip("/")] *)
Fixpoint rstrip_slashes (s : string) : string :=
  match s with
  | EmptyString => EmptyString
  | String c s' =>
      match rstrip_slashes s' with
      | EmptyString => if Ascii.eqb c slash then EmptyString else String c EmptyString
      | r => String c r
      end
  end.

(** [os.path.dirname] (posixpath) *)
Definition dirname (p : string) : string :=
  let head := default EmptyString (head_through_last_slash p) in
  if all_slashes head then head else rstrip_slashes head.

(** [os.path.basename] (posixpath): what follows the last slash. *)
Fixpoint basename (p : string) : string :=
  match p with
  | EmptyString => EmptyString
  | String c p' =>
      match head_through_last_slash p' with
      | Some _ => basename p'
      | None => if Ascii.eqb c slash then p' else p
      end
  end.

(** The path names a directory whatever the file system holds: it ends in
    a slash, or its last component is [.] or [..]. *)
Definition names_directory (p : string) : bool :=
  String.eqb (basename p) EmptyString
  || String.eqb (basename p) "." || String.eqb (basename p) "..".

Fixpoint endswith_slash (s : string) : bool :=
  match s with
  | EmptyString => false
  | String c EmptyString => Ascii.eqb c slash
  | String _ s' => endswith_slash s'
  end.

(** [os.path.join(a, b)] (posixpath) *)
Definition path_join (a b : string) : string :=
  if Py.startswith "/" b then b
  else if String.eqb a EmptyString || endswith_slash a then a +:+ b
  else a +:+ "/" +:+ b.

(** The directory [d] and the directories above it, up to the root or the
    working directory (both excluded). *)
Fixpoint ancestors (fuel : nat) (d : string) : list string :=
  match fuel with
  | O => []
  | S k => if all_slashes d then [] else d :: ancestors k (dirname d)
  end.

Definition is_file (w : World) (p : string) : bool :=
  bool_decide (is_Some (w_files w !! p)).

(** The root and the working directory (the empty head) always exist. *)
Definition is_dir (w : World) (p : string) : bool :=
  all_slashes p || bool_decide (p ∈ w_dirs w).

(** Something, a file or a directory, exists at [p] in the world [w]. *)
Definition present (w : World) (p : string) : bool :=
  is_file w p || (negb (String.eqb p EmptyString) && is_dir w p).

(** [os.path.exists(p)] *)
Definition path_exists (p : string) : M bool :=
  fun w => (Ok (present w p), w).

(** [os.makedirs(d, exist_ok=True)]: creates [d] and the missing
    directories above it; fails on the empty path and when [d] or a
    directory above it is a regular file. *)
Definition makedirs (d : string) : M unit :=
  fun w =>
    let ds := ancestors (S (String.length d)) d in
    if String.eqb d EmptyString || existsb (is_file w) ds
    then (Raise (OSError d), w)
    else (Ok tt, mkWorld (w_env w) (w_files w) (list_to_set ds ∪ w_dirs w)
                         (w_ticks w) (w_trace w)).

(** [open(p, "a")] when [append] and [open(p, "wb")] otherwise: fails when
    [p] is a directory, when [p] names a directory (a trailing slash, a
    last component [.] or [..]: [IsADirectoryError], or [FileNotFoundError]
    and [NotADirectoryError] when what is above it is missing), when its
    parent directory does not exist or when the operating system refuses;
    creates the file if absent and, unless appending, empties it. *)
Definition open_file (p : string) (append : bool) : M unit :=
  emit (EvOpen p append) ;;;
  fun w =>
    if is_dir w p || names_directory p || negb (is_dir w (dirname p))
       || env_denied (w_env w) p
    then (Raise (OSError p), w)
    else
      let old := if append then default [] (w_files w !! p) else [] in
      (Ok tt, mkWorld (w_env w) (<[p := old]> (w_files w)) (w_dirs w)
                      (w_ticks w) (w_trace w)).

(** [f.write(b)] on the handle of an open file at [p] *)
Definition write (p : string) (b : Block) : M unit :=
  fun w =>
    (Ok tt, mkWorld (w_env w) (alter (fun bs => (bs ++ [b])%list) p (w_files w)) (w_dirs w)
                    (w_ticks w) (w_trace w)).

(* ===================================================================== *)
(** * The functions of the module *)
(* ===================================================================== *)

(** [arxiv_search]: one request; the parsed feed is returned as its
    [entries] (an absent key reads as the empty list). *)
Definition arxiv_search (search_query : string) (start max_results : Z)
    (arxiv_api : Value) : M (list Entry) :=
  let rq := mkReq arxiv_api search_query start max_results
                  "submittedDate" "descending" 30 in
  fun w =>
    match env_feed (w_env w) (length (search_calls (w_trace w))) rq with
    | FeedFail e => (emit (EvSearch rq) ;;; raise e) w
    | FeedOk entries => (emit (EvSearch rq) ;;; ret entries) w
    end.

(** [save_jsonl] *)
Definition save_jsonl (path : Value) (records : list PaperRecord) : M unit :=
  match path with
  | VStr p =>
      let dir_path := dirname p in
      (if String.eqb dir_path EmptyString then ret tt else makedirs dir_path) ;;;
      open_file p true ;;;
      for_each (fun rec => write p (JsonLine rec)) records
  | _ => raise TypeError
  end.

(** [download_pdf] *)
Definition download_pdf (pdf_url out_path : string) : M unit :=
  fun w =>
    match env_http (w_env w) (length (get_calls (w_trace w))) pdf_url with
    | GetFail e => (emit (EvGet pdf_url out_path) ;;; raise e) w
    | GetBadStatus e => (emit (EvGet pdf_url out_path) ;;; raise e) w
    | GetStream chunks broken =>
        (emit (EvGet pdf_url out_path) ;;;
         open_file out_path false ;;;
         for_each (fun chunk =>
                     if String.eqb chunk EmptyString then ret tt
                     else write out_path (Chunk chunk)) chunks ;;;
         match broken with
         | Some e => raise e
         | None => ret tt
         end) w
    end.

Definition newline : string := String (ascii_of_nat 10) EmptyString.

(** [fetch_entry] *)
Definition fetch_entry (e : Entry) : M PaperRecord :=
  now <- utcnow_isoformat ;;
  ret {| arxiv_id := normalize_arxiv_id (default EmptyString (e_id e));
         title := Py.strip (Py.replace newline " " (Py.or_empty (e_title e)));
         summary := Py.strip (Py.replace newline " " (Py.or_empty (e_summary e)));
         authors := truthy_fields author_name (default [] (e_authors e));
         published := e_published e;
         updated := get_updated e;
         abs_url := e_id e;
         pdf_url := extract_pdf_url e;
         categories := truthy_fields tag_term (default [] (e_tags e));
         fetched_at_utc := now +:+ "Z" |}.

Definition REQUIRED_FIELDS : list string :=
  ["out_jsonl"; "download_pdfs"; "pdf_dir"; "batch_size"; "total_to_fetch";
   "keywords"; "ArXiv_categories"].

(** The [for field in required_fields] loop of [load_config]. *)
Fixpoint check_required (config_file : string) (fields : list string)
    (config : gmap string Value) : Result (gmap string Value) :=
  match fields with
  | [] => Ok config
  | field :: rest =>
      match config !! field with
      | None => Raise (ValueError field config_file)
      | Some _ => check_required config_file rest config
      end
  end.

(** [load_config], applied to the mapping [yaml.safe_load] parsed from
    [config_file]. *)
Definition load_config (config_file : string) (parsed : gmap string Value)
    : Result (gmap string Value) :=
  let config :=
    match parsed !! "arxiv_api" with
    | None => <["ArXiv_api" := VStr DEFAULT_ARXIV_API]> parsed
    | Some _ => parsed
    end in
  check_required config_file REQUIRED_FIELDS config.

(** The destination of the artifact of a record. *)
Definition pdf_path_of (pdf_dir : string) (rec : PaperRecord) : string :=
  let safe_name := Py.replace "/" "_" (arxiv_id rec) in
  path_join pdf_dir (safe_name +:+ ".pdf").

(** The body of the [for rec in records] loop of
    [download_pdfs_for_records]. *)
Definition download_one (pdf_dir : string) (rec : PaperRecord) : M unit :=
  if negb (Py.truthy_str (pdf_url rec)) then ret tt
  else
    let url := default EmptyString (pdf_url rec) in
    let pdf_path := pdf_path_of pdf_dir rec in
    found <- path_exists pdf_path ;;
    if found then ret tt
    else
      try_except
        (download_pdf url pdf_path ;;;
         print (MsgDownloaded pdf_path) ;;;
         sleep)
        (fun ex => print (MsgDownloadFailed (arxiv_id rec) ex)).

(** [download_pdfs_for_records] *)
Definition download_pdfs_for_records (records : list PaperRecord)
    (pdf_dir : string) : M unit :=
  makedirs pdf_dir ;;;
  for_each (download_one pdf_dir) records.

(** [config[key]] *)
Definition lookup_key (config : gmap string Value) (key : string) : M Value :=
  match config !! key with
  | Some v => ret v
  | None => raise (KeyError key)
  end.

(** The integer a value stands for in arithmetic ([bool] is a subclass of
    [int]); the other values make [<] and [min] against an [int] raise
    [TypeError]. *)
Definition as_int (v : Value) : option Z :=
  match v with
  | VInt z => Some z
  | VBool b => Some (if b then 1 else 0)
  | _ => None
  end.

Definition int_of (v : Value) : M Z :=
  match as_int v with
  | Some z => ret z
  | None => raise TypeError
  end.

(** The [while fetched < total_to_fetch] loop of
    [fetch_and_process_papers].  [fuel] bounds the number of iterations;
    [fetch_loop_unfold] below shows that [total_to_fetch - fetched]
    iterations are always enough, so that the bound is never what ends
    the loop. *)
Fixpoint fetch_loop (fuel : nat) (query : string) (batch_size : Value)
    (total_to_fetch : Z) (arxiv_api : Value)
    (fetched : Z) (all_records : list PaperRecord) : M (list PaperRecord) :=
  match fuel with
  | O => ret all_records
  | S fuel' =>
      if fetched <? total_to_fetch then
        b <- int_of batch_size ;;
        entries <- arxiv_search query fetched
                     (Z.min b (total_to_fetch - fetched)) arxiv_api ;;
        match entries with
        | [] => print MsgNoMore ;;; ret all_records
        | _ :: _ =>
            records <- map_m fetch_entry entries ;;
            let all_records' := (all_records ++ records)%list in
            let fetched' := fetched + Z.of_nat (length entries) in
            print (MsgFetched fetched') ;;;
            sleep ;;;
            fetch_loop fuel' query batch_size total_to_fetch arxiv_api
                       fetched' all_records'
        end
      else ret all_records
  end.

(** [fetch_and_process_papers] *)
Definition fetch_and_process_papers (query : string)
    (config : gmap string Value) : M (list PaperRecord) :=
  out_jsonl <- lookup_key config "out_jsonl" ;;
  batch_size <- lookup_key config "batch_size" ;;
  total_to_fetch <- lookup_key config "total_to_fetch" ;;
  arxiv_api <- lookup_key config "ArXiv_api" ;;
  total <- int_of total_to_fetch ;;
  all_records <- fetch_loop (Z.to_nat total) query batch_size total arxiv_api 0 [] ;;
  save_jsonl out_jsonl all_records ;;;
  print (MsgSaved (length all_records) out_jsonl) ;;;
  ret all_records.

(** Truthiness of a configuration value. *)
Definition truthy (v : Value) : bool :=
  match v with
  | VNone => false
  | VBool b => b
  | VInt z => negb (z =? 0)
  | VStr s => negb (String.eqb s EmptyString)
  | VList l => match l with [] => false | _ => true end
  end.

(** The strings a value yields when iterated over. *)
Definition iterate (v : Value) : M (list string) :=
  match v with
  | VList l => ret l
  | VStr s => ret (map (fun c => String c EmptyString) (list_ascii_of_string s))
  | _ => raise TypeError
  end.

(** [build_search_query] *)
Definition build_search_query (config : gmap string Value) : M string :=
  keywords <- iterate (default (VList []) (config !! "keywords")) ;;
  let categories := default (VList []) (config !! "ArXiv_categories") in
  cats <- (if truthy categories then iterate categories else ret []) ;;
  let query := build_query keywords cats in
  print (MsgQuery query) ;;;
  ret query.

(** [main], applied to the name of the configuration file and the mapping
    parsed from it. *)
Definition main (config_file : string) (parsed : gmap string Value) : M unit :=
  match load_config config_file parsed with
  | Raise e => raise e
  | Ok config =>
      query <- build_search_query config ;;
      all_records <- fetch_and_process_papers query config ;;
      download_pdfs <- lookup_key config "download_pdfs" ;;
      if truthy download_pdfs then
        pdf_dir <- lookup_key config "pdf_dir" ;;
        match pdf_dir with
        | VStr d => download_pdfs_for_records all_records d
        | _ => raise TypeError
        end
      else ret tt
  end.

(* ===================================================================== *)
(** * Properties named by the specification *)
(* ===================================================================== *)

(** An optional string that is missing or empty. *)
Definition empty_or_absent (o : option string) : Prop :=
  o = None \/ o = Some EmptyString.

(** "Every other field is an empty string or an empty sequence", read
    generously: the fields taken from the identifier ([arxiv_id],
    [abs_url]) and the timestamp are left out, and [None] counts as
    empty. *)
Definition other_fields_empty (r : PaperRecord) : Prop :=
  title r = EmptyString /\ summary r = EmptyString /\ authors r = [] /\
  empty_or_absent (published r) /\ empty_or_absent (updated r) /\
  empty_or_absent (pdf_url r) /\ categories r = [].

(** An entry that carries an identifier and nothing else. *)
Definition id_only (id : string) : Entry :=
  mkEntry (Some id) None None None None None None None.

Definition no_pdf_link (e : Entry) : Prop :=
  Forall (fun l => link_type l <> Some PDF_TYPE) (default [] (e_links e)).

(** The world after [n] more reads of the clock. *)
Definition tick (n : nat) (w : World) : World :=
  mkWorld (w_env w) (w_files w) (w_dirs w) (n + w_ticks w) (w_trace w).

(** The world after the events [evs]. *)
Definition after (evs : list Event) (w : World) : World :=
  mkWorld (w_env w) (w_files w) (w_dirs w) (w_ticks w) (w_trace w ++ evs)%list.

(** [r] is what [fetch_entry] makes of [e] at some time. *)
Definition normalizes (e : Entry) (r : PaperRecord) : Prop :=
  exists w, fst (fetch_entry e w) = Ok r.

(** The request [arxiv_search] sends for the page of [max_results]
    entries at [start]. *)
Definition page_request (api : Value) (query : string) (start max_results : Z)
    : SearchReq :=
  mkReq api query start max_results "submittedDate" "descending" 30.

(** The sink at [out] can be appended to: [save_jsonl] succeeds on it. *)
Definition sink_ready (out : Value) (w : World) : bool :=
  match fst (save_jsonl out [] w) with
  | Ok _ => true
  | Raise _ => false
  end.

(** The directories of the world after a successful [save_jsonl] to [p]. *)
Definition dirs_after_save (p : string) (w : World) : gset string :=
  if String.eqb (dirname p) EmptyString then w_dirs w
  else list_to_set (ancestors (S (String.length (dirname p))) (dirname p)) ∪ w_dirs w.

(** The directories the file at [p] lies in, the nearest first: the
    directory of [p] and the directories above it. *)
Definition parents (p : string) : list string :=
  ancestors (S (String.length (dirname p))) (dirname p).

(** The world after a successful [save_jsonl] of [records] to [p]. *)
Definition saved (p : string) (records : list PaperRecord) (w : World) : World :=
  mkWorld (w_env w)
          (<[p := (default [] (w_files w !! p) ++ map JsonLine records)%list]> (w_files w))
          (dirs_after_save p w) (w_ticks w) (w_trace w ++ [EvOpen p true])%list.

(** The [while] loop with the number of iterations that is always enough. *)
Definition while_fetch (query : string) (batch_size : Value) (total_to_fetch : Z)
    (arxiv_api : Value) (fetched : Z) (all_records : list PaperRecord)
    : M (list PaperRecord) :=
  fetch_loop (Z.to_nat (total_to_fetch - fetched)) query batch_size total_to_fetch
             arxiv_api fetched all_records.

(* ===================================================================== *)
(** * Concrete worlds and inputs *)
(* ===================================================================== *)

Module Demo.

(** A remote side that has nothing to say. *)
Definition quiet_env : Env :=
  mkEnv (fun _ _ => FeedOk []) (fun _ _ => GetFail (NetError "unreachable"))
        (fun _ => "2024-01-15T10:30:00") (fun _ => false).

Definition empty_world (env : Env) : World := mkWorld env ∅ ∅ 0 [].

Definition abs_entry : Entry := id_only "http://arxiv.org/abs/2401.12345v2".

Definition abs_record : PaperRecord :=
  {| arxiv_id := "2401.12345v2";
     title := "";
     summary := "";
     authors := [];
     published := None;
     updated := None;
     abs_url := Some "http://arxiv.org/abs/2401.12345v2";
     pdf_url := Some "http://arxiv.org/pdf/2401.12345v2.pdf";
     categories := [];
     fetched_at_utc := "2024-01-15T10:30:00Z" |}.

(** The entry of the specification's fallback example, with the link to
    its abstract page only. *)
Definition host_entry : Entry :=
  mkEntry (Some "https://host/abs/2401.12345") (Some "A title") None None None None
          (Some [mkLink (Some "text/html") (Some "https://host/abs/2401.12345")])
          None.

(** What [yaml.safe_load] reads from a configuration file that gives
    the required options and no endpoint. *)
Definition yaml_of (out : string) (batch total : Z) : gmap string Value :=
  <["out_jsonl" := VStr out]>
    (<["download_pdfs" := VBool true]>
       (<["pdf_dir" := VStr "pdfs"]>
          (<["batch_size" := VInt batch]>
             (<["total_to_fetch" := VInt total]>
                (<["keywords" := VList ["llm"; "rag"]]>
                   (<["ArXiv_categories" := VList ["cs.CL"]]> ∅)))))).

(** The configuration [load_config] makes of it. *)
Definition config_of (out : string) (batch total : Z) : gmap string Value :=
  <["ArXiv_api" := VStr DEFAULT_ARXIV_API]> (yaml_of out batch total).

(** The same file with the optional [arxiv_api] option set to a mirror. *)
Definition MIRROR : string := "https://mirror.example.org/api/query".

Definition yaml_with_override : gmap string Value :=
  <["arxiv_api" := VStr MIRROR]> (yaml_of "data/papers.jsonl" 100 250).

(** A page fetcher stub that answers its successive calls with pages of
    the given sizes and with empty pages after them. *)
Definition stub_pages (sizes : list nat) : Env :=
  mkEnv (fun n _ => FeedOk (repeat abs_entry (nth n sizes O)))
        (fun _ _ => GetFail (NetError "unreachable"))
        (fun _ => "2024-01-15T10:30:00") (fun _ => false).

(** A page fetcher whose second call times out. *)
Definition timeout_env : Env :=
  mkEnv (fun n _ => match n with
                    | O => FeedOk [abs_entry; abs_entry]
                    | _ => FeedFail (NetError "timeout")
                    end)
        (fun _ _ => GetFail (NetError "unreachable"))
        (fun _ => "2024-01-15T10:30:00") (fun _ => false).

(** A world whose log already holds one record. *)
Definition logged_world (env : Env) : World :=
  mkWorld env {["data/papers.jsonl" := [JsonLine abs_record]]} {["data"]} 0 [].

(** A record with an artifact URL. *)
Definition paper (id : string) : PaperRecord :=
  {| arxiv_id := id;
     title := "A title";
     summary := "A summary";
     authors := ["A. Author"];
     published := Some "2024-01-10T00:00:00Z";
     updated := Some "2024-01-11T00:00:00Z";
     abs_url := Some ("http://arxiv.org/abs/" +:+ id);
     pdf_url := Some ("http://arxiv.org/pdf/" +:+ id +:+ ".pdf");
     categories := ["cs.CL"];
     fetched_at_utc := "2024-01-15T10:30:00Z" |}.

(** An artifact server whose second transfer cannot connect. *)
Definition second_fails_env : Env :=
  mkEnv (fun _ _ => FeedOk [])
        (fun n _ => match n with
                    | 1%nat => GetFail (NetError "connection refused")
                    | _ => GetStream ["%PDF-1.5 "; ""; "body"] None
                    end)
        (fun _ => "2024-01-15T10:30:00") (fun _ => false).

(** An artifact server whose first transfer breaks after one chunk and
    whose later transfers complete. *)
Definition breaks_once_env : Env :=
  mkEnv (fun _ _ => FeedOk [])
        (fun n _ => match n with
                    | O => GetStream ["%PDF-1.5 "] (Some (NetError "connection reset"))
                    | _ => GetStream ["%PDF-1.5 "; "body"] None
                    end)
        (fun _ => "2024-01-15T10:30:00") (fun _ => false).

(** An artifact server and a volume that fail in every way: the first
    transfer is answered with a status that is no success, the destination
    of the second record is refused by the operating system, the third
    transfer breaks after one chunk, and the others complete. *)
Definition faulty_env : Env :=
  mkEnv (fun _ _ => FeedOk [])
        (fun n _ => match n with
                    | O => GetBadStatus (NetError "404 Client Error")
                    | 2%nat => GetStream ["%PDF-1.5 "]
                                 (Some (NetError "connection reset"))
                    | _ => GetStream ["%PDF-1.5 "; "body"] None
                    end)
        (fun _ => "2024-01-15T10:30:00")
        (String.eqb "pdfs/2401.00002.pdf").

(** A world in which one artifact is already stored. *)
Definition cached_world (env : Env) : World :=
  mkWorld env {["pdfs/2401.00001.pdf" := [Chunk "%PDF-1.5 "; Chunk "body"]]}
          {["pdfs"]} 0 [].

(** A remote side with an endless supply that serves at most three
    entries a page and never more than a request asks for. *)
Definition honest_env : Env :=
  mkEnv (fun _ rq => FeedOk (repeat abs_entry (Z.to_nat (Z.min (rq_max_results rq) 3))))
        (fun _ _ => GetStream ["%PDF-1.5 "; ""; "body"] None)
        (fun _ => "2024-01-15T10:30:00") (fun _ => false).

End Demo.

(** The records [fetch_entry] makes of the entries of a page fetched in
    the world [w]. *)
Definition records_of (entries : list Entry) (w : World) : list PaperRecord :=
  match fst (map_m fetch_entry entries w) with
  | Ok rs => rs
  | Raise _ => []
  end.

(** The blocks [download_pdf] writes for the chunks it receives. *)
Definition received (chunks : list string) : list Block :=
  map Chunk (List.filter (fun c => negb (String.eqb c EmptyString)) chunks).

(** The file at [p] can be opened for writing in the world [w]. *)
Definition can_open (w : World) (p : string) : bool :=
  negb (is_dir w p) && negb (names_directory p) && is_dir w (dirname p)
  && negb (env_denied (w_env w) p).

(** The world after the events [evs] that leave the blocks [bs] in the
    file at [p]. *)
Definition wrote (p : string) (bs : list Block) (evs : list Event) (w : World)
    : World :=
  mkWorld (w_env w) (<[p := bs]> (w_files w)) (w_dirs w) (w_ticks w)
          (w_trace w ++ evs)%list.

(** "A failed download never blocks a later retry", for the run of the
    downloader over the one record [rec] from the world [w] and a second
    run after it: when the first run reports a failure for the record,
    either it leaves no file at the destination or the second run requests
    the artifact again. *)
Definition partial_file_safe (pdf_dir : string) (rec : PaperRecord) (w : World)
    : Prop :=
  let run1 := download_pdfs_for_records [rec] pdf_dir w in
  let run2 := download_pdfs_for_records [rec] pdf_dir (snd run1) in
  failures (w_trace (snd run1)) <> failures (w_trace w) ->
  w_files (snd run1) !! (pdf_path_of pdf_dir rec) = None
  \/ get_calls (w_trace (snd run2)) <> get_calls (w_trace (snd run1)).

(** The destinations reported as downloaded in a trace. *)
Definition downloaded (tr : list Event) : list string :=
  omap (fun ev => match ev with
                  | EvPrint (MsgDownloaded p) => Some p
                  | _ => None
                  end) tr.

(** The first and the last character of a string. *)
Definition first_char (s : string) : option ascii :=
  match s with
  | EmptyString => None
  | String c _ => Some c
  end.

Fixpoint last_char (s : string) : option ascii :=
  match s with
  | EmptyString => None
  | String c EmptyString => Some c
  | String _ s' => last_char s'
  end.

(** A string that neither begins nor ends with whitespace. *)
Definition trimmed (s : string) : Prop :=
  (forall c, first_char s = Some c -> Py.isspace c = false)
  /\ (forall c, last_char s = Some c -> Py.isspace c = false).

(** The line feed character. *)
Definition LF : ascii := ascii_of_nat 10.

(** The options [fetch_and_process_papers] reads, in the order it reads
    them. *)
Definition DRIVER_OPTIONS : list string :=
  ["out_jsonl"; "batch_size"; "total_to_fetch"; "ArXiv_api"].

(** The bytes of a file, its chunks one after the other. *)
Fixpoint file_bytes (bs : list Block) : string :=
  match bs with
  | [] => EmptyString
  | Chunk b :: rest => b +:+ file_bytes rest
  | JsonLine _ :: rest => file_bytes rest
  end.

(** A remote side that never answers a page request with more entries
    than the request asks for. *)
Definition honours_page_size (env : Env) : Prop :=
  forall n rq es,
    env_feed env n rq = FeedOk es ->
    Z.of_nat (length es) <= Z.max 0 (rq_max_results rq).

(* ===================================================================== *)
(** * Facts about the string primitives *)
(* ===================================================================== *)

Section StringFacts.

Lemma startswith_inv (p s : string) :
  Py.startswith p s = true -> exists t, s = p +:+ t.
Proof.
  revert s. induction p as [|a p IH]; intros s H.
  - exists s. reflexivity.
  - destruct s as [|b s]; [discriminate|].
    simpl in H. apply andb_true_iff in H as [Hab Hps].
    apply Ascii.eqb_eq in Hab. subst b.
    destruct (IH _ Hps) as [t ->]. exists t. reflexivity.
Qed.

Lemma force_http_hit (t : string) :
  force_http ("https://" +:+ t) = "http://" +:+ force_http t.
Proof. reflexivity. Qed.

Lemma force_http_miss (c : ascii) (t : string) :
  Py.startswith "https://" (String c t) = false ->
  force_http (String c t) = String c (force_http t).
Proof.
  intros H. unfold force_http, Py.replace.
  cbn [Py.replace_from]. rewrite H. reflexivity.
Qed.

(** Forcing the scheme leaves every prefix without an [h] as it is. *)
Lemma startswith_force_http (q : string) :
  lacks "h" q = true ->
  forall t, Py.startswith q (force_http t) = Py.startswith q t.
Proof.
  induction q as [|a q IH]; intros Hq t; [reflexivity|].
  simpl in Hq. apply andb_true_iff in Hq as [Ha Hq].
  destruct t as [|c t]; [reflexivity|].
  destruct (Py.startswith "https://" (String c t)) eqn:Hs.
  - destruct (startswith_inv _ _ Hs) as [t' Ht']. rewrite Ht'.
    rewrite force_http_hit. simpl.
    destruct (Ascii.eqb a "h"); [discriminate | reflexivity].
  - rewrite force_http_miss by exact Hs. simpl.
    rewrite IH by exact Hq. reflexivity.
Qed.

(** An [/abs/] segment of a string that opens with a scheme starts at
    the last slash of the scheme or later. *)
Lemma contains_abs_after_https (t : string) :
  Py.contains "/abs/" ("https://" +:+ t)
  = Py.startswith "abs/" t || Py.contains "/abs/" t.
Proof. reflexivity. Qed.

Lemma contains_abs_after_http (t : string) :
  Py.contains "/abs/" ("http://" +:+ t)
  = Py.startswith "abs/" t || Py.contains "/abs/" t.
Proof. reflexivity. Qed.

Lemma contains_abs_force_http_len (n : nat) :
  forall s, (String.length s <= n)%nat ->
    Py.contains "/abs/" (force_http s) = Py.contains "/abs/" s.
Proof.
  induction n as [|n IH]; intros s Hn.
  - destruct s; [reflexivity | simpl in Hn; exfalso; lia].
  - destruct s as [|c t]; [reflexivity|].
    destruct (Py.startswith "https://" (String c t)) eqn:Hs.
    + destruct (startswith_inv _ _ Hs) as [t' Ht']. rewrite Ht'.
      rewrite force_http_hit.
      assert (Hlen : (String.length t' <= n)%nat).
      { rewrite Ht' in Hn.
        change (String.length ("https://" +:+ t'))
          with (8 + String.length t')%nat in Hn. lia. }
      rewrite contains_abs_after_http, contains_abs_after_https.
      rewrite (IH t' Hlen), (startswith_force_http "abs/" eq_refl t').
      reflexivity.
    + rewrite force_http_miss by exact Hs.
      assert (Hlen : (String.length t <= n)%nat) by (simpl in Hn; lia).
      specialize (IH t Hlen).
      pose proof (startswith_force_http "abs/" eq_refl t) as Hp.
      change (Py.contains "/abs/" (String c (force_http t)))
        with (Py.startswith "/abs/" (String c (force_http t))
              || Py.contains "/abs/" (force_http t)).
      change (Py.contains "/abs/" (String c t))
        with (Py.startswith "/abs/" (String c t) || Py.contains "/abs/" t).
      rewrite IH.
      change (Py.startswith "/abs/" (String c (force_http t)))
        with (Ascii.eqb "/" c && Py.startswith "abs/" (force_http t)).
      change (Py.startswith "/abs/" (String c t))
        with (Ascii.eqb "/" c && Py.startswith "abs/" t).
      rewrite Hp. reflexivity.
Qed.

(** Forcing the scheme to [http://] neither creates nor destroys an
    [/abs/] segment. *)
Lemma contains_abs_force_http (s : string) :
  Py.contains "/abs/" (Py.replace "https://" "http://" s) = Py.contains "/abs/" s.
Proof. exact (contains_abs_force_http_len (String.length s) s (le_n _)). Qed.

End StringFacts.

(* ===================================================================== *)
(** * The record normalizer *)
(* ===================================================================== *)

Section Normalizer.

Lemma find_pdf_link_first (before after : list Link) (l : Link) :
  Forall (fun l' => link_type l' <> Some PDF_TYPE) before ->
  link_type l = Some PDF_TYPE ->
  find_pdf_link (before ++ l :: after) = Some (link_href l).
Proof.
  intros Hb Hl. induction Hb as [|l' before Hl' _ IH]; simpl.
  - destruct (decide (link_type l = Some PDF_TYPE)); [reflexivity | contradiction].
  - destruct (decide (link_type l' = Some PDF_TYPE)); [contradiction | exact IH].
Qed.

Lemma find_pdf_link_none (links : list Link) :
  Forall (fun l => link_type l <> Some PDF_TYPE) links ->
  find_pdf_link links = None.
Proof.
  intros H. induction H as [|l links Hl _ IH]; simpl; [reflexivity|].
  destruct (decide (link_type l = Some PDF_TYPE)); [contradiction | exact IH].
Qed.

Lemma contains_nonempty (p s : string) :
  p <> EmptyString -> Py.contains p s = true -> Py.truthy_str (Some s) = true.
Proof.
  intros Hp H. destruct s; [|reflexivity].
  destruct p; [contradiction | discriminate].
Qed.

Lemma pdf_url_fallback_abs (u : string) :
  Py.contains "/abs/" u = true ->
  pdf_url_fallback (Some u)
  = Some (Py.replace "/abs/" "/pdf/" (Py.replace "https://" "http://" u) +:+ ".pdf").
Proof.
  intros H. unfold pdf_url_fallback. cbv zeta.
  change (default EmptyString (Some u)) with u.
  rewrite (contains_nonempty "/abs/" u) by (discriminate || exact H).
  rewrite contains_abs_force_http, H. reflexivity.
Qed.

Lemma pdf_url_fallback_other (u : string) :
  Py.contains "/abs/" u = false -> pdf_url_fallback (Some u) = None.
Proof.
  intros H. unfold pdf_url_fallback. cbv zeta.
  change (default EmptyString (Some u)) with u.
  destruct (Py.truthy_str (Some u)); [|reflexivity].
  rewrite contains_abs_force_http, H. reflexivity.
Qed.

(** C9. Artifact URL resolution order.  For every raw entry: (a) when a
    link of the PDF media type exists, the result is the URL ([href]) of
    the first such link; (b) otherwise, when the canonical URL contains
    an [/abs/] segment, the result is that URL with the scheme forced to
    [http://], [/abs/] rewritten to [/pdf/] and [.pdf] appended; (c)
    otherwise there is no artifact URL; (d) the canonical URL
    [https://host/abs/2401.12345] without a PDF link resolves to
    [http://host/pdf/2401.12345.pdf]. *)
Theorem extract_pdf_url_resolution_order (e : Entry) :
  (forall before l after,
      default [] (e_links e) = (before ++ l :: after)%list ->
      Forall (fun l' => link_type l' <> Some PDF_TYPE) before ->
      link_type l = Some PDF_TYPE ->
      extract_pdf_url e = link_href l)
  /\ (no_pdf_link e ->
      forall u, e_id e = Some u -> Py.contains "/abs/" u = true ->
      extract_pdf_url e
      = Some (Py.replace "/abs/" "/pdf/" (Py.replace "https://" "http://" u)
              +:+ ".pdf"))
  /\ (no_pdf_link e ->
      (e_id e = None \/ exists u, e_id e = Some u /\ Py.contains "/abs/" u = false) ->
      extract_pdf_url e = None)
  /\ (no_pdf_link e ->
      e_id e = Some "https://host/abs/2401.12345" ->
      extract_pdf_url e = Some "http://host/pdf/2401.12345.pdf").
Proof.
  unfold extract_pdf_url, no_pdf_link. repeat split.
  - intros before l after Hlinks Hb Hl.
    rewrite Hlinks, (find_pdf_link_first before after l Hb Hl). reflexivity.
  - intros Hno u Hid Habs.
    rewrite (find_pdf_link_none _ Hno), Hid. exact (pdf_url_fallback_abs u Habs).
  - intros Hno [Hid | (u & Hid & Habs)]; rewrite (find_pdf_link_none _ Hno), Hid.
    + reflexivity.
    + exact (pdf_url_fallback_other u Habs).
  - intros Hno Hid. rewrite (find_pdf_link_none _ Hno), Hid. reflexivity.
Qed.

Lemma extract_pdf_url_resolution_order_witness :
  no_pdf_link Demo.host_entry /\
  extract_pdf_url Demo.host_entry = Some "http://host/pdf/2401.12345.pdf".
Proof.
  assert (H : no_pdf_link Demo.host_entry).
  { unfold no_pdf_link. simpl. repeat constructor. discriminate. }
  split; [exact H|].
  apply (proj2 (proj2 (proj2 (extract_pdf_url_resolution_order Demo.host_entry)))).
  - exact H.
  - reflexivity.
Defined.

Lemma fetch_entry_eq (e : Entry) (w : World) :
  fetch_entry e w
  = (Ok {| arxiv_id := normalize_arxiv_id (default EmptyString (e_id e));
           title := Py.strip (Py.replace newline " " (Py.or_empty (e_title e)));
           summary := Py.strip (Py.replace newline " " (Py.or_empty (e_summary e)));
           authors := truthy_fields author_name (default [] (e_authors e));
           published := e_published e;
           updated := get_updated e;
           abs_url := e_id e;
           pdf_url := extract_pdf_url e;
           categories := truthy_fields tag_term (default [] (e_tags e));
           fetched_at_utc := env_utcnow (w_env w) (w_ticks w) +:+ "Z" |},
     tick 1 w).
Proof. reflexivity. Qed.

(** C8, as the code has it.  Normalization never raises: every raw entry
    yields a record.  An entry with only an identifier yields empty
    strings for title and summary, empty sequences for authors and
    categories, [None] for the two timestamps, the identifier as
    [abs_url], its normalized form as [arxiv_id], the fallback artifact
    URL (derived from the identifier when it has an [/abs/] segment,
    [None] otherwise) and the time of normalization. *)
Theorem fetch_entry_total :
  (forall e w, exists r, fetch_entry e w = (Ok r, tick 1 w))
  /\ (forall id w,
        fetch_entry (id_only id) w
        = (Ok {| arxiv_id := normalize_arxiv_id id;
                 title := EmptyString;
                 summary := EmptyString;
                 authors := [];
                 published := None;
                 updated := None;
                 abs_url := Some id;
                 pdf_url := pdf_url_fallback (Some id);
                 categories := [];
                 fetched_at_utc := env_utcnow (w_env w) (w_ticks w) +:+ "Z" |},
           tick 1 w)).
Proof.
  split.
  - intros e w. eexists. apply fetch_entry_eq.
  - intros id w. reflexivity.
Qed.

(** C8, as the claim has it, fails: the entry whose only field is the
    identifier [http://arxiv.org/abs/2401.12345v2] is normalized without
    an error, but its record has a non-empty artifact URL (and [None],
    not an empty string, for the timestamps). *)
Lemma fetch_entry_id_only_not_all_empty :
  fst (fetch_entry Demo.abs_entry (Demo.empty_world Demo.quiet_env)) = Ok Demo.abs_record
  /\ pdf_url Demo.abs_record = Some "http://arxiv.org/pdf/2401.12345v2.pdf"
  /\ published Demo.abs_record = None
  /\ ~ other_fields_empty Demo.abs_record.
Proof.
  repeat split.
  intros (_ & _ & _ & _ & _ & [H | H] & _); discriminate H.
Qed.

End Normalizer.

(* ===================================================================== *)
(** * Worlds and traces *)
(* ===================================================================== *)

Section Worlds.

Lemma search_calls_app (a b : list Event) :
  search_calls (a ++ b) = (search_calls a ++ search_calls b)%list.
Proof. apply omap_app. Qed.

Lemma get_calls_app (a b : list Event) :
  get_calls (a ++ b) = (get_calls a ++ get_calls b)%list.
Proof. apply omap_app. Qed.

Lemma append_opens_app (a b : list Event) :
  append_opens (a ++ b) = (append_opens a ++ append_opens b)%list.
Proof. apply omap_app. Qed.

Lemma failures_app (a b : list Event) :
  failures (a ++ b) = (failures a ++ failures b)%list.
Proof. apply omap_app. Qed.

Lemma sleeps_app (a b : list Event) : sleeps (a ++ b) = (sleeps a + sleeps b)%nat.
Proof. unfold sleeps. rewrite omap_app. apply length_app. Qed.

Lemma tick_0 (w : World) : tick 0 w = w.
Proof. destruct w. reflexivity. Qed.

Lemma after_nil (w : World) : after [] w = w.
Proof. destruct w. unfold after. simpl. rewrite app_nil_r. reflexivity. Qed.

Lemma tick_tick (n m : nat) (w : World) : tick n (tick m w) = tick (m + n) w.
Proof. unfold tick. simpl. f_equal. lia. Qed.

Lemma after_after (a b : list Event) (w : World) :
  after b (after a w) = after (a ++ b) w.
Proof. unfold after. simpl. f_equal. symmetry. apply app_assoc. Qed.

Lemma tick_after (n : nat) (evs : list Event) (w : World) :
  tick n (after evs w) = after evs (tick n w).
Proof. reflexivity. Qed.

Lemma emit_eq (ev : Event) (w : World) : emit ev w = (Ok tt, after [ev] w).
Proof. reflexivity. Qed.

Lemma bind_ext {A B} (m : M A) (k1 k2 : A -> M B) (w : World) :
  (forall a w', k1 a w' = k2 a w') -> bind m k1 w = bind m k2 w.
Proof. intros H. unfold bind. destruct (m w) as [[a|e] w']; [apply H | reflexivity]. Qed.

End Worlds.

(* ===================================================================== *)
(** * The pagination driver *)
(* ===================================================================== *)

Section Driver.

Variables (query : string) (batch_size : Value) (total : Z) (api : Value).

Lemma map_m_fetch_entry (es : list Entry) :
  forall w, exists rs,
    map_m fetch_entry es w = (Ok rs, tick (length es) w) /\ Forall2 normalizes es rs.
Proof.
  induction es as [|e es IH]; intros w.
  - exists []. split; [|constructor].
    simpl. unfold ret. rewrite tick_0. reflexivity.
  - destruct (IH (tick 1 w)) as (rs & Hrs & Hn).
    eexists (_ :: rs). split.
    + cbn [map_m]. unfold bind at 1. rewrite fetch_entry_eq.
      unfold bind at 1. rewrite Hrs. unfold ret. rewrite tick_tick. reflexivity.
    + constructor; [|exact Hn]. exists w. rewrite fetch_entry_eq. reflexivity.
Qed.

Lemma map_m_fetch_entry_eq (es : list Entry) (w : World) :
  map_m fetch_entry es w = (Ok (records_of es w), tick (length es) w).
Proof.
  destruct (map_m_fetch_entry es w) as (rs & Hrs & _).
  unfold records_of. rewrite Hrs. reflexivity.
Qed.

Lemma records_of_normalizes (es : list Entry) (w : World) :
  Forall2 normalizes es (records_of es w).
Proof.
  destruct (map_m_fetch_entry es w) as (rs & Hrs & Hn).
  unfold records_of. rewrite Hrs. exact Hn.
Qed.

Lemma records_of_length (es : list Entry) (w : World) :
  length (records_of es w) = length es.
Proof. symmetry. exact (Forall2_length _ _ _ (records_of_normalizes es w)). Qed.

Lemma arxiv_search_eq (start max_results : Z) (w : World) :
  let rq := page_request api query start max_results in
  arxiv_search query start max_results api w
  = match env_feed (w_env w) (length (search_calls (w_trace w))) rq with
    | FeedFail e => (Raise e, after [EvSearch rq] w)
    | FeedOk es => (Ok es, after [EvSearch rq] w)
    end.
Proof.
  unfold arxiv_search, page_request. cbv zeta.
  destruct (env_feed _ _ _); reflexivity.
Qed.

(** One iteration of the loop, by the outcome of its page request. *)
Lemma fetch_loop_S (fuel : nat) (fetched : Z) (acc : list PaperRecord) (w : World) :
  fetch_loop (S fuel) query batch_size total api fetched acc w
  = if fetched <? total then
      match as_int batch_size with
      | None => (Raise TypeError, w)
      | Some b =>
          let rq := page_request api query fetched (Z.min b (total - fetched)) in
          match env_feed (w_env w) (length (search_calls (w_trace w))) rq with
          | FeedFail e => (Raise e, after [EvSearch rq] w)
          | FeedOk [] => (Ok acc, after [EvSearch rq; EvPrint MsgNoMore] w)
          | FeedOk es =>
              let fetched' := fetched + Z.of_nat (length es) in
              fetch_loop fuel query batch_size total api fetched'
                (acc ++ records_of es (after [EvSearch rq] w))%list
                (after [EvSearch rq; EvPrint (MsgFetched fetched'); EvSleep]
                       (tick (length es) w))
          end
      end
    else (Ok acc, w).
Proof.
  cbn [fetch_loop]. destruct (fetched <? total); [|reflexivity].
  unfold bind at 1. unfold int_of. destruct (as_int batch_size) as [b|]; [|reflexivity].
  unfold ret at 1. unfold bind at 1. rewrite arxiv_search_eq. cbv zeta.
  destruct (env_feed _ _ _) as [e|es]; [reflexivity|].
  destruct es as [|e0 es].
  { unfold bind, print. rewrite emit_eq. unfold ret. rewrite after_after. reflexivity. }
  unfold bind at 1. rewrite map_m_fetch_entry_eq.
  unfold bind at 1. unfold print. rewrite emit_eq.
  unfold bind at 1. unfold sleep. rewrite emit_eq.
  rewrite tick_after, !after_after. reflexivity.
Qed.

(** Any bound of at least [total - fetched] iterations gives the same run. *)
Lemma fetch_loop_fuel (f1 : nat) :
  forall f2 fetched acc w,
    (Z.to_nat (total - fetched) <= f1)%nat ->
    (Z.to_nat (total - fetched) <= f2)%nat ->
    fetch_loop f1 query batch_size total api fetched acc w
    = fetch_loop f2 query batch_size total api fetched acc w.
Proof.
  induction f1 as [|f1 IH]; intros [|f2] fetched acc w H1 H2.
  - reflexivity.
  - rewrite fetch_loop_S.
    destruct (Z.ltb_spec fetched total); [exfalso; lia | reflexivity].
  - rewrite fetch_loop_S.
    destruct (Z.ltb_spec fetched total); [exfalso; lia | reflexivity].
  - rewrite !fetch_loop_S.
    destruct (Z.ltb_spec fetched total); [|reflexivity].
    destruct (as_int batch_size); [|reflexivity]. cbv zeta.
    destruct (env_feed _ _ _) as [e|[|e0 es]]; try reflexivity.
    apply IH; simpl length; lia.
Qed.

(** The loop satisfies the equation of the [while] statement it embeds,
    so the bound on its iterations is never what ends it. *)
Lemma while_fetch_eq (fetched : Z) (acc : list PaperRecord) (w : World) :
  while_fetch query batch_size total api fetched acc w
  = (if fetched <? total then
       b <- int_of batch_size ;;
       entries <- arxiv_search query fetched (Z.min b (total - fetched)) api ;;
       match entries with
       | [] => print MsgNoMore ;;; ret acc
       | _ :: _ =>
           records <- map_m fetch_entry entries ;;
           print (MsgFetched (fetched + Z.of_nat (length entries))) ;;;
           sleep ;;;
           while_fetch query batch_size total api
                       (fetched + Z.of_nat (length entries)) (acc ++ records)%list
       end
     else ret acc) w.
Proof.
  unfold while_fetch. destruct (Z.ltb_spec fetched total) as [Hlt|Hge].
  - replace (Z.to_nat (total - fetched)) with (S (Z.to_nat (total - fetched - 1))) by lia.
    cbn [fetch_loop]. destruct (Z.ltb_spec fetched total); [|exfalso; lia].
    apply bind_ext; intros b w1.
    apply bind_ext; intros [|e0 es] w2; [reflexivity|].
    apply bind_ext; intros rs w3.
    apply bind_ext; intros _ w4.
    apply bind_ext; intros _ w5.
    apply fetch_loop_fuel; simpl length; lia.
  - replace (Z.to_nat (total - fetched)) with O by lia. reflexivity.
Qed.

End Driver.

(* ===================================================================== *)
(** * The metadata sink *)
(* ===================================================================== *)

Section Sink.

Lemma for_each_write_jsonl (p : string) (recs : list PaperRecord) :
  forall old env files dirs ticks trace,
    for_each (fun rec => write p (JsonLine rec)) recs
             (mkWorld env (<[p := old]> files) dirs ticks trace)
    = (Ok tt, mkWorld env (<[p := (old ++ map JsonLine recs)%list]> files)
                      dirs ticks trace).
Proof.
  induction recs as [|r recs IH]; intros old env files dirs ticks trace.
  - simpl. rewrite app_nil_r. reflexivity.
  - cbn [for_each]. unfold bind, write. cbn [w_env w_files w_dirs w_ticks w_trace].
    rewrite alter_insert_eq, IH, <- app_assoc. reflexivity.
Qed.

Lemma open_file_eq (p : string) (append : bool) (w : World) :
  open_file p append w
  = if can_open w p
    then (Ok tt, mkWorld (w_env w)
                   (<[p := if append then default [] (w_files w !! p) else []]>
                      (w_files w))
                   (w_dirs w) (w_ticks w) (w_trace w ++ [EvOpen p append])%list)
    else (Raise (OSError p), after [EvOpen p append] w).
Proof.
  unfold open_file, bind, can_open. rewrite emit_eq.
  change (is_dir (after [EvOpen p append] w)) with (is_dir w).
  change (w_env (after [EvOpen p append] w)) with (w_env w).
  destruct (is_dir w p); [reflexivity|].
  destruct (names_directory p); [reflexivity|].
  destruct (is_dir w (dirname p)); [|reflexivity].
  destruct (env_denied (w_env w) p); reflexivity.
Qed.

Lemma save_jsonl_ready (out : Value) (recs : list PaperRecord) (w : World) :
  sink_ready out w = true ->
  exists p, out = VStr p /\ save_jsonl out recs w = (Ok tt, saved p recs w).
Proof.
  destruct out as [| | |p|]; try discriminate. intros H. exists p. split; [reflexivity|].
  unfold sink_ready, save_jsonl in H |- *. unfold saved, dirs_after_save.
  unfold bind in H |- *.
  destruct (String.eqb (dirname p) EmptyString).
  - unfold ret at 1. unfold ret at 1 in H. rewrite open_file_eq in H |- *.
    destruct (can_open w p); [|discriminate H].
    rewrite for_each_write_jsonl. reflexivity.
  - unfold makedirs in H |- *.
    destruct (_ || _); [discriminate H|].
    rewrite open_file_eq in H |- *.
    match goal with
    | |- context [can_open ?w1 p] => destruct (can_open w1 p)
    end; [|discriminate H].
    cbn [w_env w_files w_dirs w_ticks w_trace].
    rewrite for_each_write_jsonl. reflexivity.
Qed.

(** Whether the sink can be appended to depends on the filesystem only. *)
Lemma sink_ready_frame (out : Value) (evs : list Event) (k : nat) (w : World) :
  sink_ready out (after evs (tick k w)) = sink_ready out w.
Proof.
  destruct out as [| | |p|]; try reflexivity.
  unfold sink_ready, save_jsonl, bind.
  destruct (String.eqb (dirname p) EmptyString).
  - unfold ret. rewrite !open_file_eq.
    change (can_open (after evs (tick k w)) p) with (can_open w p).
    destruct (can_open w p); reflexivity.
  - unfold makedirs.
    change (is_file (after evs (tick k w))) with (is_file w).
    destruct (_ || _); [reflexivity|].
    rewrite !open_file_eq.
    match goal with
    | |- context [can_open ?w1 p] =>
        match goal with
        | |- context [can_open ?w2 p] =>
            lazymatch w1 with
            | w2 => fail
            | _ => change (can_open w1 p) with (can_open w2 p)
            end
        end
    end.
    match goal with
    | |- context [can_open ?w1 p] => destruct (can_open w1 p)
    end; reflexivity.
Qed.

(** [save_jsonl] makes no page request, whatever its outcome. *)
Lemma save_jsonl_trace (out : Value) (recs : list PaperRecord) (w : World) :
  exists evs,
    w_trace (snd (save_jsonl out recs w)) = (w_trace w ++ evs)%list
    /\ search_calls evs = [].
Proof.
  destruct out as [| | |p|]; try (exists []; split; [simpl; rewrite app_nil_r|]; reflexivity).
  unfold save_jsonl, bind.
  assert (Hopen : forall w0 : World, exists evs,
             w_trace (snd (let (r, w') := open_file p true w0 in
                           match r with
                           | Ok _ => for_each (fun rec => write p (JsonLine rec)) recs w'
                           | Raise e => (Raise e, w')
                           end)) = (w_trace w0 ++ evs)%list
             /\ search_calls evs = []).
  { intros w0. rewrite open_file_eq. exists [EvOpen p true].
    destruct (can_open w0 p); [|split; reflexivity].
    rewrite for_each_write_jsonl. split; reflexivity. }
  destruct (String.eqb (dirname p) EmptyString).
  - unfold ret at 1. apply Hopen.
  - unfold makedirs. destruct (_ || _).
    + exists []. split; [simpl; rewrite app_nil_r|]; reflexivity.
    + destruct (Hopen (mkWorld (w_env w) (w_files w)
                   (list_to_set (ancestors (S (String.length (dirname p))) (dirname p))
                    ∪ w_dirs w) (w_ticks w) (w_trace w))) as (evs & Hevs & Hs).
      exists evs. split; [exact Hevs | exact Hs].
Qed.

(** After a successful [save_jsonl] the directory of the log exists. *)
Lemma sink_ready_parent (p : string) (recs : list PaperRecord) (w : World) :
  sink_ready (VStr p) w = true ->
  is_dir (after [EvPrint (MsgSaved (length recs) (VStr p))] (saved p recs w))
         (dirname p) = true.
Proof.
  intros H. unfold sink_ready, save_jsonl, bind in H.
  unfold is_dir, after, saved, dirs_after_save. cbn [w_dirs].
  destruct (String.eqb (dirname p) EmptyString) eqn:Hd.
  - apply String.eqb_eq in Hd. rewrite Hd. reflexivity.
  - unfold makedirs in H. destruct (_ || _); [discriminate H|].
    rewrite open_file_eq in H.
    match type of H with
    | context [can_open ?w1 p] => destruct (can_open w1 p) eqn:Hopen
    end; [|discriminate H].
    unfold can_open in Hopen. apply andb_true_iff in Hopen as [Hopen _].
    apply andb_true_iff in Hopen as [_ Hdir]. exact Hdir.
Qed.

(** ** A log that can be created *)

Lemma head_basename_length (p : string) :
  (String.length (default EmptyString (head_through_last_slash p))
   + String.length (basename p) = String.length p)%nat.
Proof.
  induction p as [|c p IH]; [reflexivity|].
  cbn [head_through_last_slash basename].
  destruct (head_through_last_slash p) as [h|].
  - cbn in *. lia.
  - destruct (Ascii.eqb c slash); cbn in *; lia.
Qed.

Lemma rstrip_slashes_length (s : string) :
  (String.length (rstrip_slashes s) <= String.length s)%nat.
Proof.
  induction s as [|c s IH]; [reflexivity|].
  cbn [rstrip_slashes]. destruct (rstrip_slashes s).
  - destruct (Ascii.eqb c slash); cbn [String.length] in *; lia.
  - cbn [String.length] in *. lia.
Qed.

Lemma dirname_length (p : string) :
  (String.length (dirname p) + String.length (basename p) <= String.length p)%nat.
Proof.
  pose proof (head_basename_length p) as H. unfold dirname.
  cbv zeta. destruct (all_slashes _); [lia|].
  pose proof (rstrip_slashes_length (default EmptyString (head_through_last_slash p))).
  lia.
Qed.

Lemma ancestors_length (fuel : nat) (d a : string) :
  a ∈ ancestors fuel d -> (String.length a <= String.length d)%nat.
Proof.
  revert d. induction fuel as [|k IH]; intros d Ha; cbn [ancestors] in Ha.
  - apply elem_of_nil in Ha as [].
  - destruct (all_slashes d); [apply elem_of_nil in Ha as []|].
    apply elem_of_cons in Ha as [->|Ha]; [lia|].
    apply IH in Ha. pose proof (dirname_length d). lia.
Qed.

Lemma names_directory_basename (p : string) :
  names_directory p = false -> (0 < String.length (basename p))%nat.
Proof.
  unfold names_directory. destruct (basename p); [discriminate|].
  intros _. cbn [String.length]. lia.
Qed.

Lemma not_own_parent (p : string) :
  names_directory p = false -> p ∉ parents p.
Proof.
  intros Hn Hin. apply ancestors_length in Hin.
  pose proof (dirname_length p). pose proof (names_directory_basename p Hn). lia.
Qed.

Lemma dirname_heads_parents (p : string) (w : World) :
  is_dir w (dirname p) = true \/ dirname p ∈ parents p.
Proof.
  unfold parents. cbn [ancestors]. unfold is_dir.
  destruct (all_slashes (dirname p)); [left; reflexivity|].
  right. apply elem_of_cons. left. reflexivity.
Qed.

Lemma creatable_sink_ready (p : string) (w : World) :
  names_directory p = false ->
  is_dir w p = false ->
  Forall (fun d => is_file w d = false) (parents p) ->
  env_denied (w_env w) p = false ->
  sink_ready (VStr p) w = true.
Proof.
  intros Hn Hd Hfiles Hfree. unfold sink_ready, save_jsonl, bind.
  destruct (String.eqb (dirname p) EmptyString) eqn:Hdir.
  - apply String.eqb_eq in Hdir. unfold ret. rewrite open_file_eq.
    unfold can_open. rewrite Hd, Hn, Hdir, Hfree. reflexivity.
  - unfold makedirs. rewrite Hdir. fold (parents p).
    assert (He : existsb (is_file w) (parents p) = false).
    { clear -Hfiles. induction Hfiles as [|d ds Hd _ IH]; [reflexivity|].
      cbn [existsb]. rewrite Hd, IH. reflexivity. }
    rewrite He. cbn [orb]. rewrite open_file_eq.
    set (w1 := mkWorld (w_env w) (w_files w) (list_to_set (parents p) ∪ w_dirs w)
                 (w_ticks w) (w_trace w)).
    assert (Hp : is_dir w1 p = false).
    { unfold is_dir in *. cbn [w1 w_dirs].
      apply orb_false_iff in Hd as [Hs Hdirs]. rewrite Hs.
      apply bool_decide_eq_false in Hdirs. apply bool_decide_eq_false.
      intros [Hin|Hin]%elem_of_union; [|exact (Hdirs Hin)].
      apply elem_of_list_to_set in Hin. exact (not_own_parent p Hn Hin). }
    assert (Hdp : is_dir w1 (dirname p) = true).
    { destruct (dirname_heads_parents p w) as [H|H]; unfold is_dir in *;
        cbn [w1 w_dirs].
      - apply orb_true_iff in H as [->|H]; [reflexivity|].
        apply orb_true_iff. right. apply bool_decide_eq_true.
        apply bool_decide_eq_true in H. apply elem_of_union. right. exact H.
      - apply orb_true_iff. right. apply bool_decide_eq_true, elem_of_union. left.
        apply elem_of_list_to_set. exact H. }
    assert (Hopen : can_open w1 p = true).
    { unfold can_open. rewrite Hp, Hn, Hdp. cbn [w1 w_env]. rewrite Hfree.
      reflexivity. }
    rewrite Hopen. reflexivity.
Qed.

(** [save_jsonl] succeeds on exactly the paths that can be created. *)
Lemma sink_ready_creatable (p : string) (w : World) :
  sink_ready (VStr p) w = true ->
  names_directory p = false
  /\ is_dir w p = false
  /\ Forall (fun d => is_file w d = false) (parents p)
  /\ env_denied (w_env w) p = false.
Proof.
  unfold sink_ready, save_jsonl, bind.
  assert (Hopen : forall w1,
            w_env w1 = w_env w ->
            (forall d, is_dir w d = true -> is_dir w1 d = true) ->
            can_open w1 p = true ->
            names_directory p = false /\ is_dir w p = false
            /\ env_denied (w_env w) p = false).
  { intros w1 Henv Hmono H. unfold can_open in H. rewrite Henv in H.
    apply andb_true_iff in H as [H Hfree].
    apply andb_true_iff in H as [H _].
    apply andb_true_iff in H as [Hnodir Hname].
    apply negb_true_iff in Hfree, Hnodir, Hname.
    split; [exact Hname|]. split; [|exact Hfree].
    destruct (is_dir w p) eqn:Hd; [|reflexivity].
    rewrite (Hmono p Hd) in Hnodir. discriminate Hnodir. }
  destruct (String.eqb (dirname p) EmptyString) eqn:Hdir.
  - unfold ret. rewrite open_file_eq.
    destruct (can_open w p) eqn:Hcan; [|discriminate].
    intros _. destruct (Hopen w eq_refl (fun d H => H) Hcan) as (Hn & Hd & Hf).
    split; [exact Hn|]. split; [exact Hd|]. split; [|exact Hf].
    apply String.eqb_eq in Hdir. unfold parents. rewrite Hdir. constructor.
  - unfold makedirs. rewrite Hdir. fold (parents p). cbn [orb].
    destruct (existsb (is_file w) (parents p)) eqn:He; [discriminate|].
    rewrite open_file_eq.
    match goal with
    | |- context [can_open ?w1 p] => destruct (can_open w1 p) eqn:Hcan
    end; [|discriminate].
    intros _. apply Hopen in Hcan; [|reflexivity|].
    + destruct Hcan as (Hn & Hd & Hf).
      split; [exact Hn|]. split; [exact Hd|]. split; [|exact Hf].
      apply Forall_forall. intros d Hin.
      destruct (is_file w d) eqn:Hfile; [|reflexivity].
      rewrite <- He. symmetry. apply existsb_exists. exists d.
      split; [apply list_elem_of_In; exact Hin | exact Hfile].
    + intros d. unfold is_dir. cbn [w_dirs].
      intros [->|H]%orb_true_iff; [reflexivity|].
      apply orb_true_iff. right. apply bool_decide_eq_true in H.
      apply bool_decide_eq_true, elem_of_union. right. exact H.
Qed.

(** After a successful [save_jsonl] every directory above the log exists,
    and the directories there were are still there. *)
Lemma saved_parents (p : string) (recs : list PaperRecord) (evs : list Event)
    (w : World) :
  Forall (fun d => is_dir (after evs (saved p recs w)) d = true) (parents p).
Proof.
  unfold is_dir, after, saved, dirs_after_save, parents. cbn [w_dirs].
  destruct (String.eqb (dirname p) EmptyString) eqn:Hd.
  - apply String.eqb_eq in Hd. rewrite Hd. constructor.
  - apply Forall_forall. intros d Hin. apply orb_true_iff. right.
    apply bool_decide_eq_true, elem_of_union. left.
    apply elem_of_list_to_set. exact Hin.
Qed.

Lemma saved_adds_parents_only (p : string) (recs : list PaperRecord)
    (evs : list Event) (w : World) (d : string) :
  is_dir (after evs (saved p recs w)) d = true ->
  is_dir w d = true \/ d ∈ parents p.
Proof.
  unfold is_dir, after, saved, dirs_after_save, parents. cbn [w_dirs].
  destruct (all_slashes d); [left; reflexivity|]. cbn [orb].
  destruct (String.eqb (dirname p) EmptyString); [left; assumption|].
  intros [H|H]%bool_decide_eq_true%elem_of_union.
  - right. apply elem_of_list_to_set in H. exact H.
  - left. apply bool_decide_eq_true. exact H.
Qed.

Lemma saved_keeps_dirs (p : string) (recs : list PaperRecord) (evs : list Event)
    (w : World) (d : string) :
  is_dir w d = true -> is_dir (after evs (saved p recs w)) d = true.
Proof.
  unfold is_dir, after, saved, dirs_after_save. cbn [w_dirs].
  intros [->|H]%orb_true_iff; [reflexivity|].
  apply orb_true_iff. right. apply bool_decide_eq_true in H.
  apply bool_decide_eq_true.
  destruct (String.eqb (dirname p) EmptyString); [exact H|].
  apply elem_of_union. right. exact H.
Qed.

End Sink.

(* ===================================================================== *)
(** * Runs of [fetch_and_process_papers] *)
(* ===================================================================== *)

Section Run.

Variables (query : string) (batch_size : Value) (total : Z) (api : Value).

Lemma search_count_after (evs : list Event) (k : nat) (w : World) :
  length (search_calls (w_trace (after evs (tick k w))))
  = (length (search_calls (w_trace w)) + length (search_calls evs))%nat.
Proof. simpl. rewrite search_calls_app. apply length_app. Qed.

Lemma fetch_loop_page (fuel : nat) (fetched b : Z) (acc : list PaperRecord)
    (w : World) (es : list Entry) :
  let rq := page_request api query fetched (Z.min b (total - fetched)) in
  fetched < total ->
  as_int batch_size = Some b ->
  env_feed (w_env w) (length (search_calls (w_trace w))) rq = FeedOk es ->
  es <> [] ->
  fetch_loop (S fuel) query batch_size total api fetched acc w
  = fetch_loop fuel query batch_size total api (fetched + Z.of_nat (length es))
      (acc ++ records_of es (after [EvSearch rq] w))%list
      (after [EvSearch rq; EvPrint (MsgFetched (fetched + Z.of_nat (length es)));
              EvSleep] (tick (length es) w)).
Proof.
  intros rq Hlt Hb Hfeed Hne. rewrite fetch_loop_S.
  destruct (Z.ltb_spec fetched total); [|exfalso; lia].
  rewrite Hb. cbv zeta. fold rq. rewrite Hfeed.
  destruct es; [contradiction | reflexivity].
Qed.

Lemma fetch_loop_exhausted (fuel : nat) (fetched b : Z) (acc : list PaperRecord)
    (w : World) :
  let rq := page_request api query fetched (Z.min b (total - fetched)) in
  fetched < total ->
  as_int batch_size = Some b ->
  env_feed (w_env w) (length (search_calls (w_trace w))) rq = FeedOk [] ->
  fetch_loop (S fuel) query batch_size total api fetched acc w
  = (Ok acc, after [EvSearch rq; EvPrint MsgNoMore] w).
Proof.
  intros rq Hlt Hb Hfeed. rewrite fetch_loop_S.
  destruct (Z.ltb_spec fetched total); [|exfalso; lia].
  rewrite Hb. cbv zeta. fold rq. rewrite Hfeed. reflexivity.
Qed.

(** A run that adds no event and keeps the world. *)
Ltac quiet_run :=
  exists [], O; simpl; rewrite tick_0, after_nil;
  split; [reflexivity | split; [reflexivity|]];
  intros i rq e Hi; destruct i; discriminate Hi.

(** What every run of the loop does: it only reads the clock and adds
    events, none of them the opening of a file; and a page request that
    fails is the last one, its exception the outcome of the loop. *)
Lemma fetch_loop_run (fuel : nat) :
  forall fetched acc w,
  exists new k,
    snd (fetch_loop fuel query batch_size total api fetched acc w)
    = after new (tick k w)
    /\ append_opens new = []
    /\ (forall i rq e,
          search_calls new !! i = Some rq ->
          env_feed (w_env w) (length (search_calls (w_trace w)) + i) rq = FeedFail e ->
          fst (fetch_loop fuel query batch_size total api fetched acc w) = Raise e
          /\ length (search_calls new) = S i).
Proof.
  induction fuel as [|fuel IH]; intros fetched acc w.
  - quiet_run.
  - rewrite fetch_loop_S.
    destruct (fetched <? total); [|quiet_run].
    destruct (as_int batch_size) as [b|]; [|quiet_run].
    cbv zeta.
    set (rq0 := page_request api query fetched (Z.min b (total - fetched))).
    destruct (env_feed (w_env w) (length (search_calls (w_trace w))) rq0)
      as [e0|[|en es]] eqn:Hfeed.
    + exists [EvSearch rq0], O. rewrite tick_0.
      split; [reflexivity | split; [reflexivity|]].
      intros i rq e Hi He. destruct i as [|i]; [|destruct i; discriminate Hi].
      injection Hi as <-. rewrite Nat.add_0_r, Hfeed in He. injection He as <-.
      split; reflexivity.
    + exists [EvSearch rq0; EvPrint MsgNoMore], O. rewrite tick_0.
      split; [reflexivity | split; [reflexivity|]].
      intros i rq e Hi He. destruct i as [|i]; [|destruct i; discriminate Hi].
      injection Hi as <-. rewrite Nat.add_0_r, Hfeed in He. discriminate He.
    + set (es' := en :: es) in *.
      set (fetched' := fetched + Z.of_nat (length es')).
      set (page := [EvSearch rq0; EvPrint (MsgFetched fetched'); EvSleep]).
      set (w1 := after page (tick (length es') w)).
      destruct (IH fetched' (acc ++ records_of es' (after [EvSearch rq0] w))%list w1)
        as (new & k & Hsnd & Hopens & Hfail).
      exists (page ++ new)%list, (length es' + k)%nat. split; [|split].
      * rewrite Hsnd. unfold w1. rewrite tick_after, tick_tick, after_after.
        reflexivity.
      * rewrite append_opens_app, Hopens. reflexivity.
      * intros i rq e Hi He. rewrite search_calls_app in Hi |- *.
        change (search_calls page) with [rq0] in Hi |- *.
        destruct i as [|i].
        { injection Hi as <-. rewrite Nat.add_0_r, Hfeed in He. discriminate He. }
        change (([rq0] ++ search_calls new)%list !! S i) with (search_calls new !! i) in Hi.
        assert (He' : env_feed (w_env w1) (length (search_calls (w_trace w1)) + i) rq
                      = FeedFail e).
        { unfold w1. rewrite search_count_after.
          change (length (search_calls page)) with 1%nat.
          change (w_env (after page (tick (length es') w))) with (w_env w).
          replace (length (search_calls (w_trace w)) + 1 + i)%nat
            with (length (search_calls (w_trace w)) + S i)%nat by lia.
          exact He. }
        destruct (Hfail i rq e Hi He') as [Hres Hlen].
        split; [exact Hres | simpl; rewrite Hlen; reflexivity].
Qed.

(** Every page request of the loop carries the query and the endpoint
    the loop was given. *)
Lemma fetch_loop_requests (fuel : nat) :
  forall fetched acc w,
  exists new,
    w_trace (snd (fetch_loop fuel query batch_size total api fetched acc w))
    = (w_trace w ++ new)%list
    /\ Forall (fun rq => rq_api rq = api /\ rq_search_query rq = query)
              (search_calls new).
Proof.
  induction fuel as [|fuel IH]; intros fetched acc w.
  - exists []. rewrite app_nil_r. split; [reflexivity | constructor].
  - rewrite fetch_loop_S.
    destruct (fetched <? total);
      [|exists []; rewrite app_nil_r; split; [reflexivity | constructor]].
    destruct (as_int batch_size) as [b|];
      [|exists []; rewrite app_nil_r; split; [reflexivity | constructor]].
    cbv zeta.
    destruct (env_feed _ _ _) as [e0|[|en es]].
    + eexists. split; [reflexivity|]. repeat constructor.
    + eexists. split; [reflexivity|]. repeat constructor.
    + match goal with
      | |- context [fetch_loop fuel query batch_size total api ?f ?a ?w1] =>
          destruct (IH f a w1) as (new & Htr & Hall)
      end.
      eexists. split.
      * rewrite Htr. cbn [after tick w_trace]. rewrite <- app_assoc. reflexivity.
      * rewrite search_calls_app. apply Forall_app. split; [|exact Hall].
        repeat constructor.
Qed.

End Run.

Section Papers.

Variables (query : string) (config : gmap string Value).

(** The run of [fetch_and_process_papers] once its options are read. *)
Lemma fetch_and_process_papers_eq (out batch_size total_v api : Value) (total : Z)
    (w : World) :
  config !! "out_jsonl" = Some out ->
  config !! "batch_size" = Some batch_size ->
  config !! "total_to_fetch" = Some total_v ->
  config !! "ArXiv_api" = Some api ->
  as_int total_v = Some total ->
  fetch_and_process_papers query config w
  = match fetch_loop (Z.to_nat total) query batch_size total api 0 [] w with
    | (Ok recs, w1) =>
        match save_jsonl out recs w1 with
        | (Ok _, w2) => (Ok recs, after [EvPrint (MsgSaved (length recs) out)] w2)
        | (Raise e, w2) => (Raise e, w2)
        end
    | (Raise e, w1) => (Raise e, w1)
    end.
Proof.
  intros Hout Hbatch Htotal Hapi Hint.
  unfold fetch_and_process_papers, lookup_key.
  rewrite Hout, Hbatch, Htotal, Hapi. unfold bind, ret, int_of. cbn beta iota.
  rewrite Hint. unfold ret. cbn beta iota.
  destruct (fetch_loop _ _ _ _ _ _ _ w) as [[recs|e] w1]; [|reflexivity].
  destruct (save_jsonl out recs w1) as [[[]|e] w2]; reflexivity.
Qed.

(** Either an option cannot be read, and the run stops before it does
    anything, or the loop is entered. *)
Lemma fetch_and_process_papers_cases (w : World) :
  (exists e, fetch_and_process_papers query config w = (Raise e, w))
  \/ (exists out batch_size total_v api total,
        config !! "out_jsonl" = Some out /\
        config !! "batch_size" = Some batch_size /\
        config !! "total_to_fetch" = Some total_v /\
        config !! "ArXiv_api" = Some api /\
        as_int total_v = Some total).
Proof.
  unfold fetch_and_process_papers, lookup_key.
  destruct (config !! "out_jsonl") as [out|]; [|left; eexists; reflexivity].
  destruct (config !! "batch_size") as [bs|]; [|left; eexists; reflexivity].
  destruct (config !! "total_to_fetch") as [tv|]; [|left; eexists; reflexivity].
  destruct (config !! "ArXiv_api") as [api|]; [|left; eexists; reflexivity].
  destruct (as_int tv) as [total|] eqn:Hint;
    [|left; eexists; unfold bind, ret, int_of; cbn beta iota; rewrite Hint; reflexivity].
  right. exists out, bs, tv, api, total. repeat split; try reflexivity. exact Hint.
Qed.

(** C3. Fetch-failure atomicity.  In every run of the driver in which a
    page request raises (the [i]-th request of the run, [rq], is answered
    by the exception [e]), the run ends with that exception, the failing
    request is the last one made (no retry, no further page), no file is
    opened for appending and the filesystem, the log included, is what it
    was before the run. *)
Theorem fetch_failure_commits_nothing (w w' : World) (res : Result (list PaperRecord))
    (new : list Event) (i : nat) (rq : SearchReq) (e : Exn) :
  fetch_and_process_papers query config w = (res, w') ->
  w_trace w' = (w_trace w ++ new)%list ->
  search_calls new !! i = Some rq ->
  env_feed (w_env w) (length (search_calls (w_trace w)) + i) rq = FeedFail e ->
  res = Raise e
  /\ length (search_calls new) = S i
  /\ append_opens new = []
  /\ w_files w' = w_files w
  /\ w_dirs w' = w_dirs w.
Proof.
  intros Hrun Htrace Hi He.
  destruct (fetch_and_process_papers_cases w)
    as [[e0 Hstop] | (out & bs & tv & api & total & Ho & Hb & Ht & Ha & Hint)].
  - rewrite Hstop in Hrun. injection Hrun as <- <-.
    rewrite <- (app_nil_r (w_trace w)) in Htrace at 1.
    apply app_inv_head in Htrace. subst new. destruct i; discriminate Hi.
  - rewrite (fetch_and_process_papers_eq out bs tv api total w Ho Hb Ht Ha Hint) in Hrun.
    destruct (fetch_loop_run query bs total api (Z.to_nat total) 0 [] w)
      as (new1 & k & Hsnd & Hopens & Hfail).
    destruct (fetch_loop (Z.to_nat total) query bs total api 0 [] w)
      as [[recs|e1] w1]; simpl in Hsnd, Hfail; subst w1.
    + exfalso.
      destruct (save_jsonl_trace out recs (after new1 (tick k w))) as (evs & Hevs & Hs).
      assert (Hcalls : search_calls new = search_calls new1).
      { destruct (save_jsonl out recs (after new1 (tick k w))) as [[[]|e2] w2];
          injection Hrun as <- <-; simpl in Hevs, Htrace;
          rewrite Hevs, <- !app_assoc in Htrace;
          apply app_inv_head in Htrace; subst new;
          rewrite !search_calls_app, Hs; simpl; rewrite ?app_nil_r; reflexivity. }
      rewrite Hcalls in Hi.
      destruct (Hfail i rq e Hi He) as [Hres _]. discriminate Hres.
    + injection Hrun as <- <-. simpl in Htrace.
      apply app_inv_head in Htrace. subst new1.
      destruct (Hfail i rq e Hi He) as [Hres Hlen].
      repeat split; [exact Hres | exact Hlen | exact Hopens].
Qed.

End Papers.

Section Scenarios.

Variables (query : string) (config : gmap string Value).
Variables (out batch_size total_v api : Value) (b total : Z).

Hypothesis Hout : config !! "out_jsonl" = Some out.
Hypothesis Hbatch : config !! "batch_size" = Some batch_size.
Hypothesis Htotal : config !! "total_to_fetch" = Some total_v.
Hypothesis Hapi : config !! "ArXiv_api" = Some api.
Hypothesis Hb : as_int batch_size = Some b.
Hypothesis Ht : as_int total_v = Some total.

(** A run against a remote side that answers two non-empty pages short of
    the requested total and then an empty one. *)
Lemma run_two_pages_then_empty (w : World) (p1 p2 : list Entry) :
  let n0 := length (search_calls (w_trace w)) in
  let l1 := Z.of_nat (length p1) in
  let l2 := Z.of_nat (length p2) in
  (forall rq, env_feed (w_env w) n0 rq = FeedOk p1) ->
  (forall rq, env_feed (w_env w) (n0 + 1) rq = FeedOk p2) ->
  (forall rq, env_feed (w_env w) (n0 + 2) rq = FeedOk []) ->
  p1 <> [] -> p2 <> [] -> l1 + l2 < total ->
  sink_ready out w = true ->
  exists r1 r2 p w',
    fetch_and_process_papers query config w = (Ok (r1 ++ r2)%list, w')
    /\ Forall2 normalizes p1 r1 /\ Forall2 normalizes p2 r2
    /\ out = VStr p
    /\ w_files w' !! p
       = Some (default [] (w_files w !! p) ++ map JsonLine (r1 ++ r2))%list
    /\ exists new,
         w_trace w' = (w_trace w ++ new)%list
         /\ search_calls new
            = [page_request api query 0 (Z.min b total);
               page_request api query l1 (Z.min b (total - l1));
               page_request api query (l1 + l2) (Z.min b (total - (l1 + l2)))]
         /\ sleeps new = 2%nat
         /\ append_opens new = [p].
Proof.
  intros n0 l1 l2 H1 H2 H3 Hp1 Hp2 Hlt Hready.
  assert (0 < l1) by (destruct p1; [contradiction | unfold l1; simpl length; lia]).
  assert (0 < l2) by (destruct p2; [contradiction | unfold l2; simpl length; lia]).
  rewrite (fetch_and_process_papers_eq query config out batch_size total_v api total w
             Hout Hbatch Htotal Hapi Ht).
  replace (Z.to_nat total) with (S (S (S (Z.to_nat (total - 3))))) by lia.
  (* first page *)
  rewrite (fetch_loop_page query batch_size total api _ 0 b [] w p1);
    [|lia | exact Hb | apply H1 | exact Hp1].
  set (rq1 := page_request api query 0 (Z.min b (total - 0))).
  set (r1 := records_of p1 (after [EvSearch rq1] w)).
  change (0 + Z.of_nat (length p1)) with l1.
  set (w1 := after [EvSearch rq1; EvPrint (MsgFetched l1); EvSleep] (tick (length p1) w)).
  (* second page *)
  rewrite (fetch_loop_page query batch_size total api _ l1 b ([] ++ r1)%list w1 p2);
    [|lia | exact Hb | unfold w1; rewrite search_count_after; apply H2 | exact Hp2].
  set (rq2 := page_request api query l1 (Z.min b (total - l1))).
  set (r2 := records_of p2 (after [EvSearch rq2] w1)).
  fold l2.
  set (w2 := after [EvSearch rq2; EvPrint (MsgFetched (l1 + l2)); EvSleep]
                   (tick (length p2) w1)).
  (* the empty page *)
  rewrite (fetch_loop_exhausted query batch_size total api _ (l1 + l2) b _ w2);
    [|lia | exact Hb
     | unfold w2, w1; rewrite search_count_after, tick_after, search_count_after;
       change (w_env _) with (w_env w);
       replace (n0 + _ + _)%nat with (n0 + 2)%nat by (simpl; lia); apply H3].
  set (rq3 := page_request api query (l1 + l2) (Z.min b (total - (l1 + l2)))).
  set (w3 := after [EvSearch rq3; EvPrint MsgNoMore] w2).
  assert (Hw3 : w3 = after [EvSearch rq1; EvPrint (MsgFetched l1); EvSleep;
                            EvSearch rq2; EvPrint (MsgFetched (l1 + l2)); EvSleep;
                            EvSearch rq3; EvPrint MsgNoMore]
                           (tick (length p1 + length p2) w)).
  { unfold w3, w2, w1. rewrite !tick_after, tick_tick, !after_after. reflexivity. }
  assert (Hready3 : sink_ready out w3 = true).
  { rewrite Hw3, sink_ready_frame. exact Hready. }
  destruct (save_jsonl_ready out ([] ++ r1 ++ r2)%list w3 Hready3) as (p & -> & Hsave).
  rewrite <- app_assoc, Hsave.
  exists r1, r2, p, (after [EvPrint (MsgSaved (length ([] ++ r1 ++ r2)) (VStr p))]
                           (saved p ([] ++ r1 ++ r2) w3)).
  split; [reflexivity|].
  split; [apply records_of_normalizes|].
  split; [apply records_of_normalizes|].
  split; [reflexivity|].
  split.
  { rewrite Hw3. simpl. apply lookup_insert_eq. }
  eexists. split; [rewrite Hw3; simpl; rewrite <- !app_assoc; reflexivity|].
  repeat split. unfold rq1. rewrite Z.sub_0_r. reflexivity.
Qed.

End Scenarios.

Section Claims.

Variables (query : string) (config : gmap string Value).

(** C1. Bounded fetch.  With [total_to_fetch = 250] and [batch_size = 100],
    against a page fetcher whose successive calls return 100, 100 and then
    0 entries, the driver asks for the pages (start 0, size 100),
    (start 100, size 100) and (start 200, size 50), each sized to the
    minimum of the batch size and what remains; it makes exactly these 3
    calls and returns exactly 200 records, the normalized entries of the
    two pages in order. *)
Theorem pagination_bounded_fetch (out api : Value) (w : World) (p1 p2 : list Entry) :
  config !! "out_jsonl" = Some out ->
  config !! "batch_size" = Some (VInt 100) ->
  config !! "total_to_fetch" = Some (VInt 250) ->
  config !! "ArXiv_api" = Some api ->
  (forall rq, env_feed (w_env w) (length (search_calls (w_trace w))) rq = FeedOk p1) ->
  (forall rq, env_feed (w_env w) (length (search_calls (w_trace w)) + 1) rq = FeedOk p2) ->
  (forall rq, env_feed (w_env w) (length (search_calls (w_trace w)) + 2) rq = FeedOk []) ->
  length p1 = 100%nat -> length p2 = 100%nat ->
  sink_ready out w = true ->
  exists recs w',
    fetch_and_process_papers query config w = (Ok recs, w')
    /\ length recs = 200%nat
    /\ Forall2 normalizes (p1 ++ p2) recs
    /\ exists new,
         w_trace w' = (w_trace w ++ new)%list
         /\ search_calls new
            = [page_request api query 0 100; page_request api query 100 100;
               page_request api query 200 50]
         /\ length (search_calls new) = 3%nat
         /\ sleeps new = 2%nat.
Proof.
  intros Hout Hbatch Htotal Hapi H1 H2 H3 Hl1 Hl2 Hready.
  destruct (run_two_pages_then_empty query config out (VInt 100) (VInt 250) api 100 250
              Hout Hbatch Htotal Hapi eq_refl eq_refl w p1 p2 H1 H2 H3)
    as (r1 & r2 & p & w' & Hrun & Hn1 & Hn2 & _ & _ & new & Htr & Hcalls & Hsl & _).
  - intros ->. discriminate Hl1.
  - intros ->. discriminate Hl2.
  - rewrite Hl1, Hl2. reflexivity.
  - exact Hready.
  - exists (r1 ++ r2)%list, w'. split; [exact Hrun|].
    pose proof (Forall2_app Hn1 Hn2) as Hn.
    split; [rewrite <- (Forall2_length _ _ _ Hn), length_app, Hl1, Hl2; reflexivity|].
    split; [exact Hn|].
    exists new. rewrite Hcalls, Hl1, Hl2. repeat split; assumption.
Qed.

(** C2. Short pages.  With [total_to_fetch = 150] and [batch_size = 100],
    against a page fetcher that returns 100 entries, then 30, then none
    (the source is exhausted), the driver advances by the numbers of
    entries received: its requests start at 0, 100 and 130; it stops with
    exactly the 130 records received, not 150. *)
Theorem pagination_short_page (out api : Value) (w : World) (p1 p2 : list Entry) :
  config !! "out_jsonl" = Some out ->
  config !! "batch_size" = Some (VInt 100) ->
  config !! "total_to_fetch" = Some (VInt 150) ->
  config !! "ArXiv_api" = Some api ->
  (forall rq, env_feed (w_env w) (length (search_calls (w_trace w))) rq = FeedOk p1) ->
  (forall rq, env_feed (w_env w) (length (search_calls (w_trace w)) + 1) rq = FeedOk p2) ->
  (forall rq, env_feed (w_env w) (length (search_calls (w_trace w)) + 2) rq = FeedOk []) ->
  length p1 = 100%nat -> length p2 = 30%nat ->
  sink_ready out w = true ->
  exists recs w',
    fetch_and_process_papers query config w = (Ok recs, w')
    /\ length recs = 130%nat
    /\ Forall2 normalizes (p1 ++ p2) recs
    /\ exists new,
         w_trace w' = (w_trace w ++ new)%list
         /\ search_calls new
            = [page_request api query 0 100; page_request api query 100 50;
               page_request api query 130 20].
Proof.
  intros Hout Hbatch Htotal Hapi H1 H2 H3 Hl1 Hl2 Hready.
  destruct (run_two_pages_then_empty query config out (VInt 100) (VInt 150) api 100 150
              Hout Hbatch Htotal Hapi eq_refl eq_refl w p1 p2 H1 H2 H3)
    as (r1 & r2 & p & w' & Hrun & Hn1 & Hn2 & _ & _ & new & Htr & Hcalls & _).
  - intros ->. discriminate Hl1.
  - intros ->. discriminate Hl2.
  - rewrite Hl1, Hl2. reflexivity.
  - exact Hready.
  - exists (r1 ++ r2)%list, w'. split; [exact Hrun|].
    pose proof (Forall2_app Hn1 Hn2) as Hn.
    split; [rewrite <- (Forall2_length _ _ _ Hn), length_app, Hl1, Hl2; reflexivity|].
    split; [exact Hn|].
    exists new. rewrite Hcalls, Hl1, Hl2. split; [assumption | reflexivity].
Qed.

(** C10. Empty run.  When [total_to_fetch] is zero or negative, the
    driver makes no page request and no pause, returns the empty sequence
    and still appends once to the sink.  Whenever the path of the log
    names a file, is not a directory, none of the directories it lies in
    is a regular file and the operating system does not refuse to open
    it, the run succeeds: the log is opened for
    appending exactly once, it exists afterwards with the lines it had
    before (none if it was absent), every other file is untouched, and
    every directory the log lies in exists afterwards, whether it existed
    before or not, next to the directories there were and no other. *)
Theorem empty_run_still_appends (p : string) (batch_size total_v api : Value)
    (total : Z) (w : World) :
  config !! "out_jsonl" = Some (VStr p) ->
  config !! "batch_size" = Some batch_size ->
  config !! "total_to_fetch" = Some total_v ->
  config !! "ArXiv_api" = Some api ->
  as_int total_v = Some total ->
  total <= 0 ->
  names_directory p = false ->
  is_dir w p = false ->
  Forall (fun d => is_file w d = false) (parents p) ->
  env_denied (w_env w) p = false ->
  exists w' new,
    fetch_and_process_papers query config w = (Ok [], w')
    /\ w_trace w' = (w_trace w ++ new)%list
    /\ search_calls new = []
    /\ sleeps new = 0%nat
    /\ append_opens new = [p]
    /\ w_files w' !! p = Some (default [] (w_files w !! p))
    /\ (forall q, q <> p -> w_files w' !! q = w_files w !! q)
    /\ is_dir w' (dirname p) = true
    /\ Forall (fun d => is_dir w' d = true) (parents p)
    /\ (forall d, is_dir w d = true -> is_dir w' d = true)
    /\ (forall d, is_dir w' d = true -> is_dir w d = true \/ d ∈ parents p).
Proof.
  intros Hout Hbatch Htotal Hapi Hint Hle Hname Hnodir Hfiles Hfree.
  pose proof (creatable_sink_ready p w Hname Hnodir Hfiles Hfree) as Hready.
  rewrite (fetch_and_process_papers_eq query config (VStr p) batch_size total_v api
             total w Hout Hbatch Htotal Hapi Hint).
  replace (Z.to_nat total) with O by lia. cbn [fetch_loop]. unfold ret.
  destruct (save_jsonl_ready (VStr p) [] w Hready) as (p' & Hp & Hsave).
  injection Hp as <-. rewrite Hsave.
  exists (after [EvPrint (MsgSaved 0 (VStr p))] (saved p [] w)),
         [EvOpen p true; EvPrint (MsgSaved 0 (VStr p))].
  split; [reflexivity|].
  split; [simpl; rewrite <- app_assoc; reflexivity|].
  split; [reflexivity|]. split; [reflexivity|]. split; [reflexivity|].
  split; [simpl; rewrite app_nil_r; apply lookup_insert_eq|].
  split; [intros q Hq; simpl; apply lookup_insert_ne; congruence|].
  split; [apply (sink_ready_parent p [] w Hready)|].
  split; [apply saved_parents|].
  split; [intros d; apply saved_keeps_dirs|].
  intros d. apply saved_adds_parents_only.
Qed.

End Claims.

Section Witnesses.

Lemma pagination_bounded_fetch_witness :
  exists recs w',
    fetch_and_process_papers "q" (Demo.config_of "data/papers.jsonl" 100 250)
      (Demo.empty_world (Demo.stub_pages [100; 100]%nat)) = (Ok recs, w')
    /\ length recs = 200%nat.
Proof.
  destruct (pagination_bounded_fetch "q" (Demo.config_of "data/papers.jsonl" 100 250)
              (VStr "data/papers.jsonl") (VStr DEFAULT_ARXIV_API)
              (Demo.empty_world (Demo.stub_pages [100; 100]%nat))
              (repeat Demo.abs_entry 100) (repeat Demo.abs_entry 100))
    as (recs & w' & Hrun & Hlen & _);
    try (vm_compute; reflexivity); try (intros rq; reflexivity).
  exists recs, w'. split; [exact Hrun | exact Hlen].
Defined.

Lemma pagination_short_page_witness :
  exists recs w',
    fetch_and_process_papers "q" (Demo.config_of "data/papers.jsonl" 100 150)
      (Demo.empty_world (Demo.stub_pages [100; 30]%nat)) = (Ok recs, w')
    /\ length recs = 130%nat.
Proof.
  destruct (pagination_short_page "q" (Demo.config_of "data/papers.jsonl" 100 150)
              (VStr "data/papers.jsonl") (VStr DEFAULT_ARXIV_API)
              (Demo.empty_world (Demo.stub_pages [100; 30]%nat))
              (repeat Demo.abs_entry 100) (repeat Demo.abs_entry 30))
    as (recs & w' & Hrun & Hlen & _);
    try (vm_compute; reflexivity); try (intros rq; reflexivity).
  exists recs, w'. split; [exact Hrun | exact Hlen].
Defined.

Lemma fetch_failure_commits_nothing_witness :
  let w := Demo.logged_world Demo.timeout_env in
  let run := fetch_and_process_papers "q" (Demo.config_of "data/papers.jsonl" 2 5) w in
  fst run = Raise (NetError "timeout")
  /\ w_files (snd run) = w_files w.
Proof.
  intros w run.
  destruct (fetch_failure_commits_nothing "q" (Demo.config_of "data/papers.jsonl" 2 5)
              w (snd run) (fst run)
              [EvSearch (page_request (VStr DEFAULT_ARXIV_API) "q" 0 2);
               EvPrint (MsgFetched 2); EvSleep;
               EvSearch (page_request (VStr DEFAULT_ARXIV_API) "q" 2 2)]
              1%nat (page_request (VStr DEFAULT_ARXIV_API) "q" 2 2)
              (NetError "timeout"))
    as (Hres & _ & _ & Hfiles & _).
  - apply surjective_pairing.
  - vm_compute. reflexivity.
  - reflexivity.
  - reflexivity.
  - split; [exact Hres | exact Hfiles].
Defined.

Lemma empty_run_still_appends_witness :
  exists w',
    fetch_and_process_papers "q" (Demo.config_of "data/out/papers.jsonl" 100 0)
      (Demo.empty_world Demo.quiet_env) = (Ok [], w')
    /\ w_files w' !! "data/out/papers.jsonl" = Some []
    /\ is_dir (Demo.empty_world Demo.quiet_env) "data" = false
    /\ is_dir w' "data" = true
    /\ is_dir w' "data/out" = true.
Proof.
  destruct (empty_run_still_appends "q" (Demo.config_of "data/out/papers.jsonl" 100 0)
              "data/out/papers.jsonl" (VInt 100) (VInt 0) (VStr DEFAULT_ARXIV_API) 0
              (Demo.empty_world Demo.quiet_env))
    as (w' & new & Hrun & _ & _ & _ & _ & Hfile & _ & _ & Hall & _ & _);
    try (vm_compute; reflexivity); try lia.
  - change (parents "data/out/papers.jsonl") with ["data/out"; "data"].
    repeat constructor.
  - change (parents "data/out/papers.jsonl") with ["data/out"; "data"] in Hall.
    apply Forall_cons in Hall as [Hout Hall]. apply Forall_cons in Hall as [Hdata _].
    exists w'. split; [exact Hrun|]. split; [exact Hfile|].
    split; [reflexivity|]. split; [exact Hdata | exact Hout].
Defined.

End Witnesses.

(* ===================================================================== *)
(** * The endpoint option *)
(* ===================================================================== *)

Section Endpoint.

Lemma check_required_ok (config_file : string) (config : gmap string Value)
    (fields : list string) :
  Forall (fun field => is_Some (config !! field)) fields ->
  check_required config_file fields config = Ok config.
Proof.
  intros H. induction H as [|field fields [v Hv] _ IH]; simpl; [reflexivity|].
  rewrite Hv. exact IH.
Qed.

(** Without the option, loading sets the default endpoint under the key
    that the driver reads. *)
Lemma load_config_default (config_file : string) (parsed : gmap string Value) :
  parsed !! "arxiv_api" = None ->
  Forall (fun field => is_Some (parsed !! field)) REQUIRED_FIELDS ->
  load_config config_file parsed = Ok (<["ArXiv_api" := VStr DEFAULT_ARXIV_API]> parsed).
Proof.
  intros Hnone Hreq. unfold load_config. rewrite Hnone.
  apply check_required_ok. eapply Forall_impl; [exact Hreq|].
  intros field [v Hv]. simpl.
  destruct (decide ("ArXiv_api" = field)) as [<-|Hne].
  - rewrite lookup_insert_eq. eauto.
  - rewrite lookup_insert_ne by exact Hne. eauto.
Qed.

(** With the option, loading succeeds and leaves the mapping as it is:
    the key [ArXiv_api] that the driver reads is not set, and the driver
    stops with a [KeyError] before any page request. *)
Lemma load_config_override (config_file : string) (parsed : gmap string Value)
    (v : Value) :
  parsed !! "arxiv_api" = Some v ->
  parsed !! "ArXiv_api" = None ->
  Forall (fun field => is_Some (parsed !! field)) REQUIRED_FIELDS ->
  load_config config_file parsed = Ok parsed
  /\ forall query w,
       fetch_and_process_papers query parsed w = (Raise (KeyError "ArXiv_api"), w).
Proof.
  intros Hsome Hnone Hreq. split.
  - unfold load_config. rewrite Hsome. apply check_required_ok. exact Hreq.
  - intros query w.
    pose proof (proj1 (Forall_forall _ _) Hreq) as Hin.
    destruct (Hin "out_jsonl") as [v1 H1]; [repeat constructor|].
    destruct (Hin "batch_size") as [v2 H2]; [repeat constructor|].
    destruct (Hin "total_to_fetch") as [v3 H3]; [repeat constructor|].
    unfold fetch_and_process_papers, lookup_key.
    rewrite H1, H2, H3, Hnone. reflexivity.
Qed.

(** C7 at a failing input.  The configuration file gives every required
    option and sets [arxiv_api] to a mirror.  Loading succeeds and returns
    the mapping unchanged; the driver, which reads the key [ArXiv_api],
    raises [KeyError] without a single page request, so that no page is
    fetched from the mirror; [main] prints the query and stops there. *)
Theorem arxiv_api_override_breaks_the_run :
  load_config "fetch_from_arxiv.config.yaml" Demo.yaml_with_override
  = Ok Demo.yaml_with_override
  /\ (forall query w,
        fetch_and_process_papers query Demo.yaml_with_override w
        = (Raise (KeyError "ArXiv_api"), w))
  /\ (forall w,
        main "fetch_from_arxiv.config.yaml" Demo.yaml_with_override w
        = (Raise (KeyError "ArXiv_api"),
           after [EvPrint (MsgQuery (build_query ["llm"; "rag"] ["cs.CL"]))] w)).
Proof.
  assert (H : load_config "fetch_from_arxiv.config.yaml" Demo.yaml_with_override
              = Ok Demo.yaml_with_override
              /\ forall query w,
                   fetch_and_process_papers query Demo.yaml_with_override w
                   = (Raise (KeyError "ArXiv_api"), w)).
  { apply (load_config_override _ _ (VStr Demo.MIRROR)).
    - vm_compute. reflexivity.
    - vm_compute. reflexivity.
    - repeat constructor; vm_compute; eauto. }
  destruct H as [Hload Hrun]. split; [exact Hload|]. split; [exact Hrun|].
  intros w. unfold main. rewrite Hload.
  unfold bind at 1.
  replace (build_search_query Demo.yaml_with_override w)
    with (Ok (build_query ["llm"; "rag"] ["cs.CL"]),
          after [EvPrint (MsgQuery (build_query ["llm"; "rag"] ["cs.CL"]))] w)
    by reflexivity.
  unfold bind at 1. rewrite Hrun. reflexivity.
Qed.

End Endpoint.

(* ===================================================================== *)
(** * The artifact downloader *)
(* ===================================================================== *)

Section Downloader.

Lemma path_exists_eq (p : string) (w : World) :
  path_exists p w = (Ok (present w p), w).
Proof. reflexivity. Qed.

Lemma for_each_write_chunks (p : string) (chunks : list string) :
  forall old env files dirs ticks trace,
    for_each (fun chunk => if String.eqb chunk EmptyString then ret tt
                           else write p (Chunk chunk)) chunks
             (mkWorld env (<[p := old]> files) dirs ticks trace)
    = (Ok tt, mkWorld env (<[p := (old ++ received chunks)%list]> files)
                      dirs ticks trace).
Proof.
  induction chunks as [|c chunks IH]; intros old env files dirs ticks trace.
  - simpl. unfold received. simpl. rewrite app_nil_r. reflexivity.
  - cbn [for_each]. unfold bind, received. cbn [List.filter].
    destruct (String.eqb c EmptyString); cbn [negb].
    + unfold ret at 1. apply IH.
    + unfold write. cbn [w_env w_files w_dirs w_ticks w_trace map].
      rewrite alter_insert_eq, IH, <- app_assoc. reflexivity.
Qed.

(** [download_pdf], by the answer of the server. *)
Lemma download_pdf_eq (url p : string) (w : World) :
  download_pdf url p w
  = match env_http (w_env w) (length (get_calls (w_trace w))) url with
    | GetFail e => (Raise e, after [EvGet url p] w)
    | GetBadStatus e => (Raise e, after [EvGet url p] w)
    | GetStream chunks broken =>
        if can_open w p then
          (match broken with
           | Some e => Raise e
           | None => Ok tt
           end, wrote p (received chunks) [EvGet url p; EvOpen p false] w)
        else (Raise (OSError p), after [EvGet url p; EvOpen p false] w)
    end.
Proof.
  unfold download_pdf.
  destruct (env_http _ _ _) as [e|e|chunks broken]; try reflexivity.
  unfold bind at 1. rewrite emit_eq.
  unfold bind at 1. rewrite open_file_eq.
  change (can_open (after [EvGet url p] w) p) with (can_open w p).
  destruct (can_open w p).
  - unfold bind at 1. cbn [w_env w_files w_dirs w_ticks w_trace after].
    rewrite for_each_write_chunks. unfold wrote. rewrite <- app_assoc.
    destruct broken; reflexivity.
  - rewrite after_after. reflexivity.
Qed.

(** One record of the loop, by what is found and what the server answers. *)
Lemma download_one_eq (pdf_dir : string) (rec : PaperRecord) (w : World) :
  let url := default EmptyString (pdf_url rec) in
  let p := pdf_path_of pdf_dir rec in
  download_one pdf_dir rec w
  = (Ok tt,
     if negb (Py.truthy_str (pdf_url rec)) then w
     else if present w p then w
     else
       match env_http (w_env w) (length (get_calls (w_trace w))) url with
       | GetFail e | GetBadStatus e =>
           after [EvGet url p; EvPrint (MsgDownloadFailed (arxiv_id rec) e)] w
       | GetStream chunks broken =>
           if can_open w p then
             wrote p (received chunks)
               (match broken with
                | Some e => [EvGet url p; EvOpen p false;
                             EvPrint (MsgDownloadFailed (arxiv_id rec) e)]
                | None => [EvGet url p; EvOpen p false;
                           EvPrint (MsgDownloaded p); EvSleep]
                end) w
           else after [EvGet url p; EvOpen p false;
                       EvPrint (MsgDownloadFailed (arxiv_id rec) (OSError p))] w
       end).
Proof.
  intros url p. unfold download_one. fold url. fold p.
  destruct (negb (Py.truthy_str (pdf_url rec))); [reflexivity|].
  unfold bind at 1. rewrite path_exists_eq.
  destruct (present w p); [reflexivity|].
  unfold try_except, bind at 1. rewrite download_pdf_eq.
  destruct (env_http _ _ _) as [e|e|chunks broken].
  - unfold print. rewrite emit_eq, after_after. reflexivity.
  - unfold print. rewrite emit_eq, after_after. reflexivity.
  - destruct (can_open w p).
    + destruct broken as [e|].
      * unfold print. rewrite emit_eq. unfold wrote, after. simpl.
        rewrite <- app_assoc. reflexivity.
      * unfold bind, print, sleep. rewrite !emit_eq. unfold wrote, after. simpl.
        rewrite <- !app_assoc. reflexivity.
    + unfold print. rewrite emit_eq, after_after. reflexivity.
Qed.


Lemma present_frame (w w' : World) (q : string) :
  w_files w' !! q = w_files w !! q -> w_dirs w' = w_dirs w ->
  present w' q = present w q.
Proof. unfold present, is_file, is_dir. intros -> ->. reflexivity. Qed.

Lemma present_wrote (p : string) (bs : list Block) (evs : list Event) (w : World) :
  present (wrote p bs evs w) p = true.
Proof.
  unfold present, is_file, wrote. cbn [w_files].
  rewrite lookup_insert_eq. reflexivity.
Qed.

(** What one record of the loop does to the world: it never raises; it
    writes to no path that exists; it calls the server at most once, for
    its own destination and only when that does not exist; it reports no
    failure but its own. *)
Lemma download_one_step (pdf_dir : string) (rec : PaperRecord) (w : World) :
  let url := default EmptyString (pdf_url rec) in
  let p := pdf_path_of pdf_dir rec in
  exists w' new,
    download_one pdf_dir rec w = (Ok tt, w')
    /\ w_trace w' = (w_trace w ++ new)%list
    /\ w_env w' = w_env w
    /\ w_dirs w' = w_dirs w
    /\ (forall q, present w q = true -> w_files w' !! q = w_files w !! q)
    /\ (forall q, present w' q = true ->
                  present w q = true \/ (url, q) ∈ get_calls new)
    /\ (forall u q, (u, q) ∈ get_calls new -> present w q = false /\ q = p)
    /\ (forall i, i ∈ failures new -> i = arxiv_id rec /\ present w p = false)
    /\ (Py.truthy_str (pdf_url rec) = true -> present w p = false ->
        (url, p) ∈ get_calls new)
    /\ (forall p', EvPrint (MsgDownloaded p') ∈ new -> present w' p' = true).
Proof.
  intros url p. rewrite download_one_eq. fold url. fold p.
  assert (Hskip : Py.truthy_str (pdf_url rec) = false \/ present w p = true ->
           exists w' new,
             (Ok tt, w) = (Ok tt, w')
             /\ w_trace w' = (w_trace w ++ new)%list
             /\ w_env w' = w_env w /\ w_dirs w' = w_dirs w
             /\ (forall q, present w q = true -> w_files w' !! q = w_files w !! q)
             /\ (forall q, present w' q = true ->
                           present w q = true \/ (url, q) ∈ get_calls new)
             /\ (forall u q, (u, q) ∈ get_calls new -> present w q = false /\ q = p)
             /\ (forall i, i ∈ failures new -> i = arxiv_id rec /\ present w p = false)
             /\ (Py.truthy_str (pdf_url rec) = true -> present w p = false ->
                 (url, p) ∈ get_calls new)
             /\ (forall p', EvPrint (MsgDownloaded p') ∈ new -> present w' p' = true)).
  { intros Hwhy. exists w, []. rewrite app_nil_r.
    do 4 (split; [reflexivity|]).
    split; [intros; reflexivity|].
    split; [intros q Hq; left; exact Hq|].
    split; [intros u q Hq; inversion Hq|].
    split; [intros i Hi; inversion Hi|].
    split; [destruct Hwhy; congruence|].
    intros p' Hp'; inversion Hp'. }
  destruct (Py.truthy_str (pdf_url rec)) eqn:Htruthy; cbn [negb];
    [|apply Hskip; left; reflexivity].
  destruct (present w p) eqn:Hpresent; [apply Hskip; right; reflexivity|].
  clear Hskip.
  assert (Hframe : forall bs evs q, present w q = true ->
                     w_files (wrote p bs evs w) !! q = w_files w !! q).
  { intros bs evs q Hq. unfold wrote. cbn [w_files].
    apply lookup_insert_ne. intros <-. rewrite Hq in Hpresent. discriminate. }
  assert (Hback : forall bs evs q, present (wrote p bs evs w) q = true ->
                    present w q = true \/ q = p).
  { intros bs evs q Hq. destruct (decide (q = p)) as [->|Hne]; [right; reflexivity|].
    left. rewrite <- Hq. symmetry. apply present_frame; [|reflexivity].
    unfold wrote. cbn [w_files]. apply lookup_insert_ne. congruence. }
  destruct (env_http (w_env w) (length (get_calls (w_trace w))) url)
    as [e|e|chunks [e|]];
    [| | destruct (can_open w p) | destruct (can_open w p)];
    eexists _, _; (split; [reflexivity|]); (split; [reflexivity|]);
    (split; [reflexivity|]); (split; [reflexivity|]);
    (split; [first [apply Hframe | intros; reflexivity]|]);
    (split; [intros q Hq;
             first [destruct (Hback _ _ _ Hq) as [Hq'| ->];
                    [left; exact Hq' | right; set_solver]
                   | left; exact Hq]|]);
    (split; [intros u q Hq; cbn in Hq; apply list_elem_of_singleton in Hq;
             injection Hq as -> ->; split; [exact Hpresent | reflexivity]|]);
    (split; [intros i Hi; cbn in Hi;
             first [apply list_elem_of_singleton in Hi; subst i;
                    split; reflexivity
                   | inversion Hi]|]);
    (split; [intros _ _; cbn; set_solver|]);
    intros p' Hp'; cbn in Hp';
    repeat match goal with
           | H : _ ∈ _ :: _ |- _ => apply elem_of_cons in H as [H|H]; try discriminate H
           | H : _ ∈ [] |- _ => inversion H
           end.
  injection Hp' as ->. apply present_wrote.
Qed.

Lemma pdf_path_of_id (pdf_dir : string) (r1 r2 : PaperRecord) :
  arxiv_id r1 = arxiv_id r2 -> pdf_path_of pdf_dir r1 = pdf_path_of pdf_dir r2.
Proof. unfold pdf_path_of. intros ->. reflexivity. Qed.

Lemma not_present_mono (w w' : World) :
  (forall q, present w q = true -> present w' q = true) ->
  forall q, present w' q = false -> present w q = false.
Proof.
  intros Hmono q Hq. destruct (present w q) eqn:Hw; [|reflexivity].
  rewrite (Hmono q Hw) in Hq. discriminate Hq.
Qed.

(** What the loop over the records does to the world. *)
Lemma download_loop (pdf_dir : string) (records : list PaperRecord) :
  forall w, exists w' new,
    for_each (download_one pdf_dir) records w = (Ok tt, w')
    /\ w_trace w' = (w_trace w ++ new)%list
    /\ w_env w' = w_env w
    /\ w_dirs w' = w_dirs w
    /\ (forall q, present w q = true -> w_files w' !! q = w_files w !! q)
    /\ (forall q, present w' q = true ->
                  present w q = true \/ exists u, (u, q) ∈ get_calls new)
    /\ (forall u q, (u, q) ∈ get_calls new -> present w q = false)
    /\ (forall i rec, i ∈ failures new -> arxiv_id rec = i ->
                      present w (pdf_path_of pdf_dir rec) = false)
    /\ (forall rec, rec ∈ records -> Py.truthy_str (pdf_url rec) = true ->
                    present w (pdf_path_of pdf_dir rec) = false ->
                    exists u, (u, pdf_path_of pdf_dir rec) ∈ get_calls new)
    /\ (forall p', EvPrint (MsgDownloaded p') ∈ new -> present w' p' = true).
Proof.
  induction records as [|r records IH]; intros w.
  - exists w, []. rewrite app_nil_r.
    do 4 (split; [reflexivity|]).
    split; [intros; reflexivity|].
    split; [intros q Hq; left; exact Hq|].
    split; [intros u q Hq; inversion Hq|].
    split; [intros i rec Hi; inversion Hi|].
    split; [intros rec Hrec; inversion Hrec|].
    intros p' Hp'; inversion Hp'.
  - destruct (download_one_step pdf_dir r w)
      as (w1 & new1 & Hrun1 & Htr1 & Henv1 & Hdirs1 & S1 & S2 & S3 & S4 & S5 & S6).
    destruct (IH w1)
      as (w' & new2 & Hrun2 & Htr2 & Henv2 & Hdirs2 & J1 & J2 & J3 & J4 & J5 & J6).
    assert (Hmono1 : forall q, present w q = true -> present w1 q = true).
    { intros q Hq. rewrite <- Hq. apply present_frame; [apply S1; exact Hq | exact Hdirs1]. }
    assert (Hmono2 : forall q, present w1 q = true -> present w' q = true).
    { intros q Hq. rewrite <- Hq. apply present_frame; [apply J1; exact Hq | exact Hdirs2]. }
    exists w', (new1 ++ new2)%list.
    split; [cbn [for_each]; unfold bind; rewrite Hrun1; exact Hrun2|].
    split; [rewrite Htr2, Htr1, app_assoc; reflexivity|].
    split; [congruence|]. split; [congruence|].
    split; [intros q Hq; rewrite (J1 q (Hmono1 q Hq)); apply S1; exact Hq|].
    split.
    { intros q Hq. destruct (J2 q Hq) as [Hq1 | [u Hu]].
      - destruct (S2 q Hq1) as [Hq0 | Hu]; [left; exact Hq0|].
        right. eexists. rewrite get_calls_app. apply elem_of_app. left. exact Hu.
      - right. exists u. rewrite get_calls_app. apply elem_of_app. right. exact Hu. }
    split.
    { intros u q Hq. rewrite get_calls_app in Hq. apply elem_of_app in Hq as [Hq|Hq].
      - apply (S3 u q Hq).
      - apply (not_present_mono w w1 Hmono1). apply (J3 u q Hq). }
    split.
    { intros i rec Hi Hid. rewrite failures_app in Hi. apply elem_of_app in Hi as [Hi|Hi].
      - destruct (S4 i Hi) as [Hir Hp].
        rewrite (pdf_path_of_id pdf_dir rec r) by congruence. exact Hp.
      - apply (not_present_mono w w1 Hmono1). apply (J4 i rec Hi Hid). }
    split.
    { intros rec Hrec Htruthy Hp. apply elem_of_cons in Hrec as [->|Hrec].
      - eexists. rewrite get_calls_app. apply elem_of_app. left.
        apply (S5 Htruthy Hp).
      - destruct (present w1 (pdf_path_of pdf_dir rec)) eqn:Hp1.
        + destruct (S2 _ Hp1) as [Hp0 | Hu]; [rewrite Hp0 in Hp; discriminate Hp|].
          eexists. rewrite get_calls_app. apply elem_of_app. left. exact Hu.
        + destruct (J5 rec Hrec Htruthy Hp1) as [u Hu].
          exists u. rewrite get_calls_app. apply elem_of_app. right. exact Hu. }
    intros p' Hp'. apply elem_of_app in Hp' as [Hp'|Hp'].
    + apply Hmono2. apply (S6 p' Hp').
    + apply (J6 p' Hp').
Qed.

(** [os.makedirs] only adds directories. *)
Lemma makedirs_cases (d : string) (w : World) :
  makedirs d w = (Raise (OSError d), w)
  \/ exists w0,
       makedirs d w = (Ok tt, w0)
       /\ w_trace w0 = w_trace w /\ w_env w0 = w_env w /\ w_files w0 = w_files w
       /\ (forall q, present w q = true -> present w0 q = true).
Proof.
  unfold makedirs. destruct (_ || _); [left; reflexivity|].
  right. eexists. split; [reflexivity|]. do 3 (split; [reflexivity|]).
  intros q. unfold present, is_file, is_dir. cbn [w_files w_dirs].
  destruct (bool_decide (is_Some (w_files w !! q))); [reflexivity|].
  destruct (negb (String.eqb q EmptyString)); [|intros H; discriminate H].
  destruct (all_slashes q); [reflexivity|]. cbn [orb andb].
  intros H. apply bool_decide_eq_true in H. apply bool_decide_eq_true. set_solver.
Qed.

(** What a run of [download_pdfs_for_records] does to the world. *)
Lemma download_run (pdf_dir : string) (records : list PaperRecord) (w : World) :
  exists res w' new,
    download_pdfs_for_records records pdf_dir w = (res, w')
    /\ w_trace w' = (w_trace w ++ new)%list
    /\ w_env w' = w_env w
    /\ (forall q, present w q = true ->
                  w_files w' !! q = w_files w !! q /\ present w' q = true)
    /\ (forall u q, (u, q) ∈ get_calls new -> present w q = false)
    /\ (forall i rec, i ∈ failures new -> arxiv_id rec = i ->
                      present w (pdf_path_of pdf_dir rec) = false)
    /\ (forall p', EvPrint (MsgDownloaded p') ∈ new -> present w' p' = true).
Proof.
  unfold download_pdfs_for_records, bind.
  destruct (makedirs_cases pdf_dir w)
    as [Hfail | (w0 & Hmk & Htr0 & Henv0 & Hfiles0 & Hmono0)].
  - rewrite Hfail. exists (Raise (OSError pdf_dir)), w, []. rewrite app_nil_r.
    do 3 (split; [reflexivity|]).
    split; [intros q Hq; split; [reflexivity | exact Hq]|].
    split; [intros u q Hq; inversion Hq|].
    split; [intros i rec Hi; inversion Hi|].
    intros p' Hp'; inversion Hp'.
  - rewrite Hmk.
    destruct (download_loop pdf_dir records w0)
      as (w' & new & Hrun & Htr & Henv & Hdirs & J1 & J2 & J3 & J4 & J5 & J6).
    exists (Ok tt), w', new.
    split; [exact Hrun|]. split; [congruence|]. split; [congruence|].
    split.
    { intros q Hq. pose proof (Hmono0 q Hq) as Hq0. split.
      - rewrite (J1 q Hq0). congruence.
      - rewrite <- Hq0. apply present_frame; [apply J1; exact Hq0 | exact Hdirs]. }
    split; [intros u q Hq; apply (not_present_mono w w0 Hmono0), (J3 u q Hq)|].
    split; [intros i rec Hi Hid; apply (not_present_mono w w0 Hmono0), (J4 i rec Hi Hid)|].
    exact J6.
Qed.

(** C4. Idempotence of the downloader.  For every record whose
    destination already exists when the downloader starts, a run makes no
    request for that destination, reports no failure for the record and
    leaves the file as it is.  Hence in a second run over the same
    records nothing that existed before the first run or was downloaded
    in it is requested again or written again. *)
Theorem download_idempotent (pdf_dir : string) (records : list PaperRecord)
    (w : World) :
  exists res1 w1 new1 res2 w2 new2,
    download_pdfs_for_records records pdf_dir w = (res1, w1)
    /\ w_trace w1 = (w_trace w ++ new1)%list
    /\ download_pdfs_for_records records pdf_dir w1 = (res2, w2)
    /\ w_trace w2 = (w_trace w1 ++ new2)%list
    /\ (forall rec,
          present w (pdf_path_of pdf_dir rec) = true ->
          (forall u, (u, pdf_path_of pdf_dir rec) ∉ get_calls new1)
          /\ (arxiv_id rec ∉ failures new1)
          /\ w_files w1 !! (pdf_path_of pdf_dir rec)
             = w_files w !! (pdf_path_of pdf_dir rec))
    /\ (forall q,
          present w q = true \/ EvPrint (MsgDownloaded q) ∈ new1 ->
          (forall u, (u, q) ∉ get_calls new2)
          /\ w_files w2 !! q = w_files w1 !! q).
Proof.
  destruct (download_run pdf_dir records w)
    as (res1 & w1 & new1 & Hrun1 & Htr1 & _ & K1 & K2 & K3 & K4).
  destruct (download_run pdf_dir records w1)
    as (res2 & w2 & new2 & Hrun2 & Htr2 & _ & L1 & L2 & _ & _).
  exists res1, w1, new1, res2, w2, new2.
  do 4 (split; [assumption|]). split.
  - intros rec Hp. split; [|split].
    + intros u Hu. rewrite (K2 u _ Hu) in Hp. discriminate Hp.
    + intros Hi. rewrite (K3 _ rec Hi eq_refl) in Hp. discriminate Hp.
    + apply (K1 _ Hp).
  - intros q Hq.
    assert (Hq1 : present w1 q = true).
    { destruct Hq as [Hq|Hq]; [apply (K1 q Hq) | apply (K4 q Hq)]. }
    split; [|apply (L1 q Hq1)].
    intros u Hu. rewrite (L2 u q Hu) in Hq1. discriminate Hq1.
Qed.

Lemma download_idempotent_witness :
  exists res1 w1,
    download_pdfs_for_records [Demo.paper "2401.00001"; Demo.paper "2401.00002"] "pdfs"
      (Demo.cached_world Demo.second_fails_env) = (res1, w1)
    /\ w_files w1 !! "pdfs/2401.00001.pdf"
       = Some [Chunk "%PDF-1.5 "; Chunk "body"].
Proof.
  destruct (download_idempotent "pdfs" [Demo.paper "2401.00001"; Demo.paper "2401.00002"]
              (Demo.cached_world Demo.second_fails_env))
    as (res1 & w1 & new1 & res2 & w2 & new2 & Hrun1 & _ & _ & _ & Hsame & _).
  exists res1, w1. split; [exact Hrun1|].
  destruct (Hsame (Demo.paper "2401.00001")) as (_ & _ & Hfile).
  - vm_compute. reflexivity.
  - exact Hfile.
Defined.

Lemma downloaded_app (a b : list Event) :
  downloaded (a ++ b) = (downloaded a ++ downloaded b)%list.
Proof. apply omap_app. Qed.

(** Every request of a record ends in one report: downloaded, or failed. *)
Lemma download_one_report (pdf_dir : string) (rec : PaperRecord) (w : World) :
  exists new,
    w_trace (snd (download_one pdf_dir rec w)) = (w_trace w ++ new)%list
    /\ length (get_calls new) = (length (downloaded new) + length (failures new))%nat.
Proof.
  rewrite download_one_eq. cbn [snd].
  destruct (negb (Py.truthy_str (pdf_url rec)));
    [exists []; rewrite app_nil_r; split; reflexivity|].
  destruct (present w (pdf_path_of pdf_dir rec));
    [exists []; rewrite app_nil_r; split; reflexivity|].
  destruct (env_http _ _ _) as [e|e|chunks [e|]];
    [| | destruct (can_open w (pdf_path_of pdf_dir rec))
         | destruct (can_open w (pdf_path_of pdf_dir rec))];
    eexists; split; reflexivity.
Qed.

Lemma download_loop_report (pdf_dir : string) (records : list PaperRecord) :
  forall w, exists new,
    w_trace (snd (for_each (download_one pdf_dir) records w)) = (w_trace w ++ new)%list
    /\ length (get_calls new) = (length (downloaded new) + length (failures new))%nat.
Proof.
  induction records as [|r records IH]; intros w.
  - exists []. rewrite app_nil_r. split; reflexivity.
  - cbn [for_each]. unfold bind.
    destruct (download_one_report pdf_dir r w) as (new1 & Htr1 & Hn1).
    destruct (download_one_step pdf_dir r w) as (w1 & new1' & Hrun1 & _).
    rewrite Hrun1 in Htr1 |- *. cbn [snd] in Htr1.
    destruct (IH w1) as (new2 & Htr2 & Hn2).
    exists (new1 ++ new2)%list. split; [rewrite Htr2, Htr1, app_assoc; reflexivity|].
    rewrite get_calls_app, downloaded_app, failures_app, !length_app. lia.
Qed.

Lemma makedirs_ok (d : string) (w w0 : World) :
  makedirs d w = (Ok tt, w0) ->
  w_env w0 = w_env w /\ w_trace w0 = w_trace w /\ w_files w0 = w_files w.
Proof.
  unfold makedirs. destruct (_ || _); intros H; [discriminate H|].
  injection H as <-. repeat split.
Qed.

Lemma present_after (evs : list Event) (w : World) (q : string) :
  present (after evs w) q = present w q.
Proof. reflexivity. Qed.

Lemma present_wrote_ne (p q : string) (bs : list Block) (evs : list Event) (w : World) :
  q <> p -> present (wrote p bs evs w) q = present w q.
Proof.
  intros Hne. apply present_frame; [|reflexivity].
  unfold wrote. cbn [w_files]. apply lookup_insert_ne. congruence.
Qed.

Lemma for_each_app {A} (body : A -> M unit) (xs ys : list A) (w : World) :
  for_each body (xs ++ ys) w = (for_each body xs ;;; for_each body ys) w.
Proof.
  revert w. induction xs as [|x xs IH]; intros w; [reflexivity|].
  cbn [app for_each]. unfold bind.
  destruct (body x w) as [[[]|e] w1]; [|reflexivity].
  rewrite IH. reflexivity.
Qed.

(** A record whose transfer fails, in whatever way: the exception is the
    one [download_pdf] raises, the loop body returns normally, one request
    was made, the failure is reported with this exception, nothing is
    reported as downloaded and there is no pause. *)
Lemma download_one_failure (pdf_dir : string) (rec : PaperRecord) (w : World)
    (e : Exn) :
  let url := default EmptyString (pdf_url rec) in
  let p := pdf_path_of pdf_dir rec in
  let answer := env_http (w_env w) (length (get_calls (w_trace w))) url in
  Py.truthy_str (pdf_url rec) = true ->
  present w p = false ->
  answer = GetFail e
  \/ answer = GetBadStatus e
  \/ (exists chunks broken,
        answer = GetStream chunks broken /\ can_open w p = false /\ e = OSError p)
  \/ (exists chunks, answer = GetStream chunks (Some e) /\ can_open w p = true) ->
  exists w2 mine,
    fst (download_pdf url p w) = Raise e
    /\ download_one pdf_dir rec w = (Ok tt, w2)
    /\ w_trace w2 = (w_trace w ++ mine)%list
    /\ get_calls mine = [(url, p)]
    /\ EvPrint (MsgDownloadFailed (arxiv_id rec) e) ∈ mine
    /\ failures mine = [arxiv_id rec]
    /\ downloaded mine = []
    /\ sleeps mine = 0%nat.
Proof.
  intros url p answer Htruthy Hmissing Hkind.
  rewrite download_one_eq, download_pdf_eq. fold url. fold p. fold answer.
  rewrite Htruthy, Hmissing. cbn [negb].
  destruct Hkind as [-> | [-> | [(chunks & broken & -> & -> & ->)
                                | (chunks & -> & ->)]]];
    eexists _, _; (split; [reflexivity|]); (split; [reflexivity|]);
    (split; [reflexivity|]); (split; [reflexivity|]);
    (split; [|repeat split]); set_solver.
Qed.

(** C5. Fault isolation of the downloader.  Once the target directory is
    there, the run over any sequence of records returns normally, whatever
    the transfers do; every record with an artifact URL whose destination
    is missing gets its request; and every request ends in a report, as
    downloaded or as failed.  A transfer fails in four ways, and in no
    other: the request raises, the status is no success, the destination
    cannot be opened, or the body breaks off after the destination was
    opened.  Whichever it is and wherever the record stands in the
    sequence, the loop body returns normally, the failure is reported for
    the record with the exception raised, nothing is reported as
    downloaded, there is no pause, and the records after it are processed
    from there: the run returns normally and each of them with an artifact
    URL and a missing destination gets its request.  In particular, for
    three records with distinct missing destinations where the transfer of
    the second cannot connect and the other two complete, all three are
    requested in order, the failure of the second is reported, and the
    first and the third are at their destinations afterwards. *)
Theorem download_fault_isolation :
  (forall pdf_dir records w w0,
      makedirs pdf_dir w = (Ok tt, w0) ->
      exists w' new,
        download_pdfs_for_records records pdf_dir w = (Ok tt, w')
        /\ w_trace w' = (w_trace w ++ new)%list
        /\ length (get_calls new) = (length (downloaded new) + length (failures new))%nat
        /\ forall rec,
             rec ∈ records -> Py.truthy_str (pdf_url rec) = true ->
             present w0 (pdf_path_of pdf_dir rec) = false ->
             exists u, (u, pdf_path_of pdf_dir rec) ∈ get_calls new)
  /\ (forall url p w e,
        let answer := env_http (w_env w) (length (get_calls (w_trace w))) url in
        fst (download_pdf url p w) = Raise e ->
        answer = GetFail e
        \/ answer = GetBadStatus e
        \/ (exists chunks broken,
              answer = GetStream chunks broken /\ can_open w p = false /\ e = OSError p)
        \/ (exists chunks, answer = GetStream chunks (Some e) /\ can_open w p = true))
  /\ (forall pdf_dir before rec rest w w0 e,
        let url := default EmptyString (pdf_url rec) in
        let p := pdf_path_of pdf_dir rec in
        let w1 := snd (for_each (download_one pdf_dir) before w0) in
        let answer := env_http (w_env w1) (length (get_calls (w_trace w1))) url in
        makedirs pdf_dir w = (Ok tt, w0) ->
        Py.truthy_str (pdf_url rec) = true ->
        present w1 p = false ->
        answer = GetFail e
        \/ answer = GetBadStatus e
        \/ (exists chunks broken,
              answer = GetStream chunks broken /\ can_open w1 p = false /\ e = OSError p)
        \/ (exists chunks, answer = GetStream chunks (Some e) /\ can_open w1 p = true) ->
        exists w2 w' mine later,
          fst (download_pdf url p w1) = Raise e
          /\ download_one pdf_dir rec w1 = (Ok tt, w2)
          /\ w_trace w2 = (w_trace w1 ++ mine)%list
          /\ get_calls mine = [(url, p)]
          /\ EvPrint (MsgDownloadFailed (arxiv_id rec) e) ∈ mine
          /\ failures mine = [arxiv_id rec]
          /\ downloaded mine = []
          /\ sleeps mine = 0%nat
          /\ download_pdfs_for_records (before ++ rec :: rest) pdf_dir w = (Ok tt, w')
          /\ for_each (download_one pdf_dir) rest w2 = (Ok tt, w')
          /\ w_trace w' = (w_trace w2 ++ later)%list
          /\ forall r,
               r ∈ rest -> Py.truthy_str (pdf_url r) = true ->
               present w2 (pdf_path_of pdf_dir r) = false ->
               exists u, (u, pdf_path_of pdf_dir r) ∈ get_calls later)
  /\ (forall pdf_dir r1 r2 r3 w w0 c1 c3 e,
        let u1 := default EmptyString (pdf_url r1) in
        let u2 := default EmptyString (pdf_url r2) in
        let u3 := default EmptyString (pdf_url r3) in
        let p1 := pdf_path_of pdf_dir r1 in
        let p2 := pdf_path_of pdf_dir r2 in
        let p3 := pdf_path_of pdf_dir r3 in
        let n := length (get_calls (w_trace w)) in
        makedirs pdf_dir w = (Ok tt, w0) ->
        Py.truthy_str (pdf_url r1) = true ->
        Py.truthy_str (pdf_url r2) = true ->
        Py.truthy_str (pdf_url r3) = true ->
        p1 <> p2 -> p1 <> p3 -> p2 <> p3 ->
        present w0 p1 = false -> present w0 p2 = false -> present w0 p3 = false ->
        can_open w0 p1 = true -> can_open w0 p3 = true ->
        env_http (w_env w) n u1 = GetStream c1 None ->
        env_http (w_env w) (n + 1) u2 = GetFail e ->
        env_http (w_env w) (n + 2) u3 = GetStream c3 None ->
        exists w' new,
          download_pdfs_for_records [r1; r2; r3] pdf_dir w = (Ok tt, w')
          /\ w_trace w' = (w_trace w ++ new)%list
          /\ get_calls new = [(u1, p1); (u2, p2); (u3, p3)]
          /\ failures new = [arxiv_id r2]
          /\ downloaded new = [p1; p3]
          /\ w_files w' !! p1 = Some (received c1)
          /\ w_files w' !! p3 = Some (received c3)
          /\ w_files w' !! p2 = w_files w !! p2).
Proof.
  split; [|split; [|split]].
  - intros pdf_dir records w w0 Hmk.
    destruct (makedirs_ok _ _ _ Hmk) as (_ & Htr0 & _).
    destruct (download_loop pdf_dir records w0)
      as (w' & new & Hrun & Htr & _ & _ & _ & _ & _ & _ & Hatt & _).
    destruct (download_loop_report pdf_dir records w0) as (new' & Htr' & Hcount).
    rewrite Hrun in Htr'. cbn [snd] in Htr'. rewrite Htr in Htr'.
    apply app_inv_head in Htr'. subst new'.
    exists w', new.
    split; [unfold download_pdfs_for_records, bind; rewrite Hmk; exact Hrun|].
    split; [congruence|]. split; [exact Hcount | exact Hatt].
  - intros url p w e answer. rewrite download_pdf_eq. fold answer.
    destruct answer as [e'|e'|chunks broken]; cbn [fst].
    + intros [= ->]. left. reflexivity.
    + intros [= ->]. right. left. reflexivity.
    + destruct (can_open w p) eqn:Hopen; cbn [fst].
      * destruct broken as [e'|]; intros [= ->].
        right. right. right. exists chunks. split; reflexivity.
      * intros [= <-]. right. right. left. exists chunks, broken.
        repeat split; reflexivity.
  - intros pdf_dir before rec rest w w0 e url p w1 answer Hmk Htruthy Hmissing Hkind.
    destruct (download_one_failure pdf_dir rec w1 e Htruthy Hmissing Hkind)
      as (w2 & mine & Hraise & Hone & Htr & Hget & Hreport & Hfail & Hdone & Hsleep).
    destruct (download_loop pdf_dir before w0) as (w1' & new1 & Hrun1 & _).
    destruct (download_loop pdf_dir rest w2)
      as (w' & later & Hrun2 & Htr2 & _ & _ & _ & _ & _ & _ & Hatt & _).
    exists w2, w', mine, later.
    do 8 (split; [assumption|]).
    split.
    { unfold download_pdfs_for_records, bind. rewrite Hmk, for_each_app.
      unfold bind. rewrite Hrun1. cbn [for_each]. unfold bind.
      assert (Hw1 : w1 = w1') by (unfold w1; rewrite Hrun1; reflexivity).
      rewrite <- Hw1, Hone. exact Hrun2. }
    split; [exact Hrun2|]. split; [exact Htr2 | exact Hatt].
  - intros pdf_dir r1 r2 r3 w w0 c1 c3 e u1 u2 u3 p1 p2 p3 n
           Hmk Ht1 Ht2 Ht3 H12 H13 H23 Hp1 Hp2 Hp3 Ho1 Ho3 He1 He2 He3.
    destruct (makedirs_ok _ _ _ Hmk) as (Henv0 & Htr0 & Hfiles0).
    unfold download_pdfs_for_records, bind. rewrite Hmk. cbn [for_each]. unfold bind.
    (* the first record *)
    rewrite download_one_eq. fold u1. fold p1.
    rewrite Ht1, Hp1, Henv0, Htr0. fold n. rewrite He1, Ho1. cbn [negb].
    set (w1 := wrote p1 (received c1)
                 [EvGet u1 p1; EvOpen p1 false; EvPrint (MsgDownloaded p1); EvSleep] w0).
    (* the second record *)
    rewrite download_one_eq. fold u2. fold p2.
    rewrite Ht2. cbn [negb].
    replace (present w1 p2) with false
      by (unfold w1; rewrite present_wrote_ne by congruence; congruence).
    replace (env_http (w_env w1) (length (get_calls (w_trace w1))) u2) with (@GetFail e).
    2:{ unfold w1, wrote. cbn [w_env w_trace].
        rewrite get_calls_app, length_app, Henv0, Htr0. symmetry. exact He2. }
    set (w2 := after [EvGet u2 p2; EvPrint (MsgDownloadFailed (arxiv_id r2) e)] w1).
    (* the third record *)
    rewrite download_one_eq. fold u3. fold p3.
    rewrite Ht3. cbn [negb].
    replace (present w2 p3) with false
      by (unfold w2, w1; rewrite present_after, present_wrote_ne by congruence;
          congruence).
    replace (env_http (w_env w2) (length (get_calls (w_trace w2))) u3)
      with (GetStream c3 None).
    2:{ unfold w2, w1, wrote, after. cbn [w_env w_trace].
        rewrite !get_calls_app, !length_app, Henv0, Htr0.
        replace (length (get_calls (w_trace w)) + _ + _)%nat with (n + 2)%nat
          by (unfold n; simpl; lia).
        symmetry. exact He3. }
    replace (can_open w2 p3) with true by (symmetry; exact Ho3).
    eexists _, _. split; [reflexivity|].
    split; [unfold w2, w1, wrote, after; cbn [w_trace]; rewrite Htr0, <- !app_assoc;
            reflexivity|].
    split; [reflexivity|]. split; [reflexivity|]. split; [reflexivity|].
    unfold w2, w1, wrote, after. cbn [w_files].
    split; [rewrite lookup_insert_ne by congruence; apply lookup_insert_eq|].
    split; [apply lookup_insert_eq|].
    rewrite !lookup_insert_ne by congruence. rewrite Hfiles0. reflexivity.
Qed.

End Downloader.

Section PartialFiles.

Lemma download_fault_isolation_witness :
  let papers := [Demo.paper "2401.00001"; Demo.paper "2401.00002";
                 Demo.paper "2401.00003"; Demo.paper "2401.00004"] in
  let run := download_pdfs_for_records papers "pdfs" (Demo.empty_world Demo.faulty_env) in
  (exists w',
     download_pdfs_for_records
       [Demo.paper "2401.00001"; Demo.paper "2401.00002"; Demo.paper "2401.00003"]
       "pdfs" (Demo.empty_world Demo.second_fails_env) = (Ok tt, w')
     /\ w_files w' !! (pdf_path_of "pdfs" (Demo.paper "2401.00001"))
        = Some (received ["%PDF-1.5 "; ""; "body"])
     /\ w_files w' !! (pdf_path_of "pdfs" (Demo.paper "2401.00003"))
        = Some (received ["%PDF-1.5 "; ""; "body"]))
  /\ (exists w',
        run = (Ok tt, w')
        /\ EvPrint (MsgDownloadFailed "2401.00001" (NetError "404 Client Error"))
           ∈ w_trace w')
  /\ (exists w',
        run = (Ok tt, w')
        /\ EvPrint (MsgDownloadFailed "2401.00002" (OSError "pdfs/2401.00002.pdf"))
           ∈ w_trace w')
  /\ (exists w',
        run = (Ok tt, w')
        /\ EvPrint (MsgDownloadFailed "2401.00003" (NetError "connection reset"))
           ∈ w_trace w'
        /\ exists u, (u, "pdfs/2401.00004.pdf") ∈ get_calls (w_trace w')).
Proof.
  intros papers run.
  destruct download_fault_isolation as (_ & _ & Hkind & Hthree).
  split; [|split; [|split]].
  - destruct (Hthree "pdfs"
                (Demo.paper "2401.00001") (Demo.paper "2401.00002")
                (Demo.paper "2401.00003")
                (Demo.empty_world Demo.second_fails_env)
                (snd (makedirs "pdfs" (Demo.empty_world Demo.second_fails_env)))
                ["%PDF-1.5 "; ""; "body"] ["%PDF-1.5 "; ""; "body"]
                (NetError "connection refused"))
      as (w' & new & Hrun & _ & _ & _ & _ & H1 & H3 & _).
    1: vm_compute; reflexivity.
    1-3: vm_compute; reflexivity.
    1-3: vm_compute; discriminate.
    1-3: vm_compute; reflexivity.
    1-2: vm_compute; reflexivity.
    1-3: vm_compute; reflexivity.
    exists w'. split; [exact Hrun|]. split; [exact H1 | exact H3].
  - destruct (Hkind "pdfs" [] (Demo.paper "2401.00001")
                [Demo.paper "2401.00002"; Demo.paper "2401.00003";
                 Demo.paper "2401.00004"]
                (Demo.empty_world Demo.faulty_env)
                (snd (makedirs "pdfs" (Demo.empty_world Demo.faulty_env)))
                (NetError "404 Client Error"))
      as (w2 & w' & mine & later & _ & _ & Htr & _ & Hreport & _ & _ & _ & Hrun & _
          & Htr' & _).
    + vm_compute. reflexivity.
    + reflexivity.
    + vm_compute. reflexivity.
    + right. left. vm_compute. reflexivity.
    + exists w'. split; [exact Hrun|]. rewrite Htr', Htr.
      apply elem_of_app. left. apply elem_of_app. right. exact Hreport.
  - destruct (Hkind "pdfs" [Demo.paper "2401.00001"] (Demo.paper "2401.00002")
                [Demo.paper "2401.00003"; Demo.paper "2401.00004"]
                (Demo.empty_world Demo.faulty_env)
                (snd (makedirs "pdfs" (Demo.empty_world Demo.faulty_env)))
                (OSError "pdfs/2401.00002.pdf"))
      as (w2 & w' & mine & later & _ & _ & Htr & _ & Hreport & _ & _ & _ & Hrun & _
          & Htr' & _).
    + vm_compute. reflexivity.
    + reflexivity.
    + vm_compute. reflexivity.
    + right. right. left. eexists _, _.
      split; [vm_compute; reflexivity|]. split; vm_compute; reflexivity.
    + exists w'. split; [exact Hrun|]. rewrite Htr', Htr.
      apply elem_of_app. left. apply elem_of_app. right. exact Hreport.
  - destruct (Hkind "pdfs" [Demo.paper "2401.00001"; Demo.paper "2401.00002"]
                (Demo.paper "2401.00003") [Demo.paper "2401.00004"]
                (Demo.empty_world Demo.faulty_env)
                (snd (makedirs "pdfs" (Demo.empty_world Demo.faulty_env)))
                (NetError "connection reset"))
      as (w2 & w' & mine & later & _ & Hone & Htr & _ & Hreport & _ & _ & _ & Hrun & _
          & Htr' & Hrest).
    + vm_compute. reflexivity.
    + reflexivity.
    + vm_compute. reflexivity.
    + right. right. right. eexists.
      split; vm_compute; reflexivity.
    + exists w'. split; [exact Hrun|]. rewrite Htr', Htr. split.
      * apply elem_of_app. left. apply elem_of_app. right. exact Hreport.
      * destruct (Hrest (Demo.paper "2401.00004")) as (u & Hu).
        -- apply list_elem_of_singleton. reflexivity.
        -- reflexivity.
        -- apply (f_equal snd) in Hone. cbn [snd] in Hone. rewrite <- Hone.
           vm_compute. reflexivity.
        -- exists u. rewrite get_calls_app. apply elem_of_app. right. exact Hu.
Defined.

(** C6, as the code has it.  For a record with an artifact URL whose
    destination is missing: when the transfer fails before the
    destination is opened (the request raises, or the status is not a
    success), the failure is reported, no file is created and the
    destination is still missing, so that a later run requests it again;
    when the transfer breaks after the destination was opened, the failure
    is reported, the chunks received so far are left in the file at the
    destination, and in every later world that still has this file the
    record is skipped without a request. *)
Theorem partial_file_is_kept (pdf_dir : string) (rec : PaperRecord) (w : World) :
  let url := default EmptyString (pdf_url rec) in
  let p := pdf_path_of pdf_dir rec in
  let answer := env_http (w_env w) (length (get_calls (w_trace w))) url in
  Py.truthy_str (pdf_url rec) = true ->
  present w p = false ->
  (forall e,
      answer = GetFail e \/ answer = GetBadStatus e ->
      let w1 := after [EvGet url p; EvPrint (MsgDownloadFailed (arxiv_id rec) e)] w in
      download_one pdf_dir rec w = (Ok tt, w1)
      /\ w_files w1 = w_files w
      /\ present w1 p = false)
  /\ (forall chunks e,
        answer = GetStream chunks (Some e) ->
        can_open w p = true ->
        let w1 := wrote p (received chunks)
                    [EvGet url p; EvOpen p false;
                     EvPrint (MsgDownloadFailed (arxiv_id rec) e)] w in
        download_one pdf_dir rec w = (Ok tt, w1)
        /\ w_files w1 !! p = Some (received chunks)
        /\ forall w2, w_files w2 !! p = w_files w1 !! p ->
                      download_one pdf_dir rec w2 = (Ok tt, w2)).
Proof.
  intros url p answer Htruthy Hpresent. split.
  - intros e Hanswer w1. split; [|split; [reflexivity | exact Hpresent]].
    rewrite download_one_eq. fold url. fold p. fold answer.
    rewrite Htruthy, Hpresent. cbn [negb].
    destruct Hanswer as [-> | ->]; reflexivity.
  - intros chunks e Hanswer Hopen w1.
    split; [|split].
    + rewrite download_one_eq. fold url. fold p. fold answer.
      rewrite Htruthy, Hpresent, Hanswer, Hopen. reflexivity.
    + unfold w1, wrote. cbn [w_files]. apply lookup_insert_eq.
    + intros w2 Hw2. rewrite download_one_eq. fold p.
      rewrite Htruthy. cbn [negb].
      assert (Hp2 : present w2 p = true).
      { unfold present, is_file. rewrite Hw2. unfold w1, wrote. cbn [w_files].
        rewrite lookup_insert_eq. reflexivity. }
      rewrite Hp2. reflexivity.
Qed.

Lemma partial_file_is_kept_witness :
  download_one "pdfs" (Demo.paper "2401.00001")
    (snd (makedirs "pdfs" (Demo.empty_world Demo.breaks_once_env)))
  = (Ok tt,
     wrote "pdfs/2401.00001.pdf" [Chunk "%PDF-1.5 "]
       [EvGet "http://arxiv.org/pdf/2401.00001.pdf" "pdfs/2401.00001.pdf";
        EvOpen "pdfs/2401.00001.pdf" false;
        EvPrint (MsgDownloadFailed "2401.00001" (NetError "connection reset"))]
       (snd (makedirs "pdfs" (Demo.empty_world Demo.breaks_once_env)))).
Proof.
  apply (proj2 (partial_file_is_kept "pdfs" (Demo.paper "2401.00001")
                  (snd (makedirs "pdfs" (Demo.empty_world Demo.breaks_once_env)))
                  eq_refl eq_refl)
           ["%PDF-1.5 "] (NetError "connection reset")); reflexivity.
Defined.

(** C6, as the claim has it, fails.  The first transfer of the artifact
    breaks after one chunk: the failure is reported and the chunk is left
    in the file at the destination.  A second run over the same record,
    against a server that would now deliver the whole file, makes no
    request and reports nothing: the partial file counts as the artifact. *)
Lemma partial_file_blocks_retry :
  let w := Demo.empty_world Demo.breaks_once_env in
  let records := [Demo.paper "2401.00001"] in
  let run1 := download_pdfs_for_records records "pdfs" w in
  let run2 := download_pdfs_for_records records "pdfs" (snd run1) in
  fst run1 = Ok tt
  /\ failures (w_trace (snd run1)) = ["2401.00001"]
  /\ w_files (snd run1) !! "pdfs/2401.00001.pdf" = Some [Chunk "%PDF-1.5 "]
  /\ env_http Demo.breaks_once_env 1 "http://arxiv.org/pdf/2401.00001.pdf"
     = GetStream ["%PDF-1.5 "; "body"] None
  /\ fst run2 = Ok tt
  /\ w_trace (snd run2) = w_trace (snd run1)
  /\ get_calls (w_trace (snd run2))
     = [("http://arxiv.org/pdf/2401.00001.pdf", "pdfs/2401.00001.pdf")]
  /\ w_files (snd run2) !! "pdfs/2401.00001.pdf" = Some [Chunk "%PDF-1.5 "]
  /\ ~ partial_file_safe "pdfs" (Demo.paper "2401.00001") w.
Proof.
  cbv zeta. do 8 (split; [vm_compute; reflexivity|]).
  unfold partial_file_safe. cbv zeta. intros Hsafe.
  destruct Hsafe as [Hnone | Hmore].
  - vm_compute. discriminate.
  - vm_compute in Hnone. discriminate Hnone.
  - apply Hmore. vm_compute. reflexivity.
Qed.

End PartialFiles.

(* ===================================================================== *)
(** * More on the string primitives *)
(* ===================================================================== *)

Section MoreStrings.

Lemma lacks_app (c : ascii) (a b : string) :
  lacks c (a +:+ b) = lacks c a && lacks c b.
Proof.
  induction a as [|x a IH]; [reflexivity|].
  change (String x a +:+ b) with (String x (a +:+ b)).
  cbn [lacks]. rewrite IH. apply andb_assoc.
Qed.

Lemma no_slash_lacks (s : string) : no_slash s = lacks slash s.
Proof. induction s as [|c s IH]; [reflexivity|]. simpl. rewrite IH. reflexivity. Qed.

(** Replacing every occurrence of one character by a text without it
    leaves a string without the character. *)
Lemma replace_char_lacks (a : ascii) (new s : string) :
  lacks a new = true ->
  lacks a (Py.replace (String a EmptyString) new s) = true.
Proof.
  intros Hnew. unfold Py.replace. induction s as [|c s IH]; [reflexivity|].
  cbn [Py.replace_from Py.startswith String.length Nat.pred].
  destruct (Ascii.eqb a c) eqn:Hac; cbn [andb].
  - rewrite lacks_app, Hnew, IH. reflexivity.
  - cbn [lacks]. rewrite IH, Ascii.eqb_sym, Hac. reflexivity.
Qed.

Lemma lacks_lstrip (c : ascii) (s : string) :
  lacks c s = true -> lacks c (Py.lstrip s) = true.
Proof.
  induction s as [|x s IH]; [reflexivity|]. intros H. cbn [Py.lstrip].
  destruct (Py.isspace x); [|exact H].
  apply IH. simpl in H. apply andb_true_iff in H as [_ H]. exact H.
Qed.

Lemma lacks_rstrip (c : ascii) (s : string) :
  lacks c s = true -> lacks c (Py.rstrip s) = true.
Proof.
  induction s as [|x s IH]; [reflexivity|]. intros H.
  simpl in H. apply andb_true_iff in H as [Hx Hs]. specialize (IH Hs).
  cbn [Py.rstrip]. destruct (Py.rstrip s) as [|y r].
  - destruct (Py.isspace x); [reflexivity|]. simpl. rewrite Hx. reflexivity.
  - cbn [lacks] in IH |- *. rewrite Hx. exact IH.
Qed.

Lemma first_char_lstrip (s : string) (c : ascii) :
  first_char (Py.lstrip s) = Some c -> Py.isspace c = false.
Proof.
  induction s as [|x s IH]; [discriminate|]. cbn [Py.lstrip].
  destruct (Py.isspace x) eqn:Hx; [exact IH|].
  intros H. injection H as <-. exact Hx.
Qed.

Lemma first_char_rstrip (s : string) (c : ascii) :
  first_char (Py.rstrip s) = Some c -> first_char s = Some c.
Proof.
  destruct s as [|x s]; [discriminate|]. cbn [Py.rstrip].
  destruct (Py.rstrip s); [destruct (Py.isspace x)|]; simpl; congruence.
Qed.

Lemma last_char_rstrip (s : string) (c : ascii) :
  last_char (Py.rstrip s) = Some c -> Py.isspace c = false.
Proof.
  induction s as [|x s IH]; [discriminate|]. cbn [Py.rstrip].
  destruct (Py.rstrip s) as [|y r].
  - destruct (Py.isspace x) eqn:Hx; [discriminate|].
    intros H. injection H as <-. exact Hx.
  - exact IH.
Qed.

Lemma strip_trimmed (s : string) : trimmed (Py.strip s).
Proof.
  unfold trimmed, Py.strip. split; intros c H.
  - apply (first_char_lstrip s). apply first_char_rstrip. exact H.
  - apply (last_char_rstrip _ _ H).
Qed.

Lemma truthy_fields_nonempty {A} (get : A -> option string) (xs : list A) :
  Forall (fun x => x <> EmptyString) (truthy_fields get xs).
Proof.
  apply Forall_forall. intros x Hx. unfold truthy_fields in Hx.
  apply list_elem_of_omap in Hx as (a & _ & Ha).
  destruct (get a) as [[|c t]|]; simpl in Ha; try discriminate Ha.
  injection Ha as <-. discriminate.
Qed.

End MoreStrings.

Section Identifiers.

Lemma substring_all (s : string) : String.substring 0 (String.length s) s = s.
Proof. induction s as [|c s IH]; [reflexivity|]. simpl. rewrite IH. reflexivity. Qed.

Lemma substring_after_abs (g : string) :
  String.substring 5 (String.length ("/abs/" +:+ g) - 5) ("/abs/" +:+ g) = g.
Proof.
  change (String.length ("/abs/" +:+ g)) with (5 + String.length g)%nat.
  replace (5 + String.length g - 5)%nat with (String.length g) by lia.
  change (String.substring 5 (String.length g) ("/abs/" +:+ g))
    with (String.substring 0 (String.length g) g).
  apply substring_all.
Qed.

(** The pattern at the head of a string that opens with [/abs/]. *)
Lemma match_abs_here_abs (g : string) :
  match_abs_here ("/abs/" +:+ g)
  = match g with
    | EmptyString => None
    | _ => if no_slash g then Some g else None
    end.
Proof.
  unfold match_abs_here.
  change (Py.startswith "/abs/" ("/abs/" +:+ g)) with true. cbv iota.
  rewrite substring_after_abs. destruct g; reflexivity.
Qed.

Lemma match_abs_here_some (s g : string) :
  match_abs_here s = Some g ->
  s = "/abs/" +:+ g /\ g <> EmptyString /\ no_slash g = true.
Proof.
  unfold match_abs_here. destruct (Py.startswith "/abs/" s) eqn:Hs; [|discriminate].
  destruct (startswith_inv _ _ Hs) as [t ->].
  rewrite substring_after_abs. destruct t as [|c t]; [discriminate|].
  destruct (no_slash (String c t)) eqn:Hn; [|discriminate].
  intros H. injection H as <-. repeat split; [discriminate | exact Hn].
Qed.

Lemma no_slash_app (a b : string) : no_slash (a +:+ b) = no_slash a && no_slash b.
Proof. rewrite !no_slash_lacks. apply lacks_app. Qed.

Lemma append_cons (c : ascii) (a b : string) :
  String c a +:+ b = String c (a +:+ b).
Proof. reflexivity. Qed.

Lemma append_nil (b : string) : EmptyString +:+ b = b.
Proof. reflexivity. Qed.

Lemma no_slash_before_slash (a b : string) : no_slash (a +:+ String "/" b) = false.
Proof. rewrite no_slash_app. simpl. apply andb_false_r. Qed.

(** A text that opens with [/abs/] and goes on without a slash has no
    other character before it. *)
Lemma abs_tail_unique (pre tail g : string) :
  pre +:+ "/abs/" +:+ tail = "/abs/" +:+ g -> no_slash g = true ->
  pre = EmptyString.
Proof.
  intros Heq Hg.
  destruct pre as [|c1 [|c2 [|c3 [|c4 [|c5 pre]]]]]; [reflexivity| | | | |];
    exfalso; repeat rewrite append_cons in Heq; repeat rewrite append_nil in Heq.
  - discriminate Heq.
  - discriminate Heq.
  - discriminate Heq.
  - injection Heq as _ _ _ _ <-.
    simpl in Hg. discriminate Hg.
  - injection Heq as _ _ _ _ _ <-.
    rewrite no_slash_before_slash in Hg. discriminate Hg.
Qed.

Lemma re_search_abs_tail (pre tail : string) :
  tail <> EmptyString -> no_slash tail = true ->
  re_search_abs (pre +:+ "/abs/" +:+ tail) = Some tail.
Proof.
  intros Hne Hns. induction pre as [|c pre IH].
  - change (EmptyString +:+ "/abs/" +:+ tail) with ("/abs/" +:+ tail).
    change (re_search_abs ("/abs/" +:+ tail))
      with (match match_abs_here ("/abs/" +:+ tail) with
            | Some g => Some g
            | None => re_search_abs ("abs/" +:+ tail)
            end).
    rewrite match_abs_here_abs, Hns. destruct tail; [contradiction | reflexivity].
  - change (String c pre +:+ "/abs/" +:+ tail)
      with (String c (pre +:+ "/abs/" +:+ tail)).
    cbn [re_search_abs].
    destruct (match_abs_here (String c (pre +:+ "/abs/" +:+ tail))) as [g|] eqn:Hm;
      [|exact IH].
    exfalso. apply match_abs_here_some in Hm as (Heq & _ & Hg).
    pose proof (abs_tail_unique (String c pre) tail g Heq Hg) as Hnil.
    discriminate Hnil.
Qed.

Lemma re_search_abs_none (s : string) :
  Py.contains "/abs/" s = false -> re_search_abs s = None.
Proof.
  induction s as [|c s IH]; intros H.
  - reflexivity.
  - change (Py.contains "/abs/" (String c s))
      with (Py.startswith "/abs/" (String c s) || Py.contains "/abs/" s) in H.
    apply orb_false_iff in H as [Hh Ht].
    cbn [re_search_abs]. unfold match_abs_here. rewrite Hh. exact (IH Ht).
Qed.

Lemma re_search_abs_some (s g : string) :
  re_search_abs s = Some g -> g <> EmptyString /\ no_slash g = true.
Proof.
  induction s as [|c s IH]; intros H.
  - discriminate H.
  - cbn [re_search_abs] in H.
    destruct (match_abs_here (String c s)) as [g'|] eqn:Hm.
    + injection H as <-. apply match_abs_here_some in Hm as (_ & Hne & Hg).
      split; assumption.
    + exact (IH H).
Qed.

Lemma no_slash_contains_abs (g : string) :
  no_slash g = true -> Py.contains "/abs/" g = false.
Proof.
  induction g as [|c g IH]; intros H; [reflexivity|].
  simpl in H. apply andb_true_iff in H as [Hc Hg].
  change (Py.contains "/abs/" (String c g))
    with (Ascii.eqb "/" c && Py.startswith "abs/" g || Py.contains "/abs/" g).
  rewrite (IH Hg), Ascii.eqb_sym. unfold slash in Hc.
  destruct (Ascii.eqb c "/"); [discriminate Hc | reflexivity].
Qed.

(** X1. [normalize_arxiv_id]: an identifier that ends with [/abs/] and a
    non-empty tail without a slash is cut down to that tail; one without
    an [/abs/] segment is returned as it is; the result is either the
    input itself or free of slashes; and normalizing twice is normalizing
    once. *)
Theorem normalize_arxiv_id_tail :
  (forall pre tail,
      tail <> EmptyString -> no_slash tail = true ->
      normalize_arxiv_id (pre +:+ "/abs/" +:+ tail) = tail)
  /\ (forall s, Py.contains "/abs/" s = false -> normalize_arxiv_id s = s)
  /\ (forall s, normalize_arxiv_id s = s \/ no_slash (normalize_arxiv_id s) = true)
  /\ (forall s, normalize_arxiv_id (normalize_arxiv_id s) = normalize_arxiv_id s).
Proof.
  unfold normalize_arxiv_id. split; [|split; [|split]].
  - intros pre tail Hne Hns. rewrite (re_search_abs_tail pre tail Hne Hns). reflexivity.
  - intros s H. rewrite (re_search_abs_none s H). reflexivity.
  - intros s. destruct (re_search_abs s) as [g|] eqn:Hs; [|left; reflexivity].
    right. apply (re_search_abs_some s g Hs).
  - intros s. destruct (re_search_abs s) as [g|] eqn:Hs; [|rewrite Hs; reflexivity].
    destruct (re_search_abs_some s g Hs) as [_ Hg].
    rewrite (re_search_abs_none g (no_slash_contains_abs g Hg)). reflexivity.
Qed.

Lemma normalize_arxiv_id_tail_witness :
  normalize_arxiv_id ("http://arxiv.org" +:+ "/abs/" +:+ "2401.12345v2") = "2401.12345v2"
  /\ normalize_arxiv_id "2401.12345v2" = "2401.12345v2".
Proof.
  split.
  - apply (proj1 normalize_arxiv_id_tail); [discriminate | reflexivity].
  - apply (proj1 (proj2 normalize_arxiv_id_tail)). reflexivity.
Defined.

End Identifiers.

Section Names.

Lemma no_slash_not_rooted (name : string) :
  no_slash name = true -> Py.startswith "/" name = false.
Proof.
  destruct name as [|c name]; [reflexivity|]. intros H.
  simpl in H. apply andb_true_iff in H as [Hc _]. unfold slash in Hc.
  cbn [Py.startswith]. rewrite Ascii.eqb_sym.
  destruct (Ascii.eqb c "/"); [discriminate Hc | reflexivity].
Qed.

(** X2. The file name of an artifact has no path separator, whatever the
    identifier of the record holds, and the destination is that name put
    directly under the target directory. *)
Theorem pdf_path_inside_dir (pdf_dir : string) (rec : PaperRecord) :
  let name := Py.replace "/" "_" (arxiv_id rec) +:+ ".pdf" in
  no_slash name = true
  /\ pdf_path_of pdf_dir rec
     = if String.eqb pdf_dir EmptyString || endswith_slash pdf_dir
       then pdf_dir +:+ name
       else pdf_dir +:+ "/" +:+ name.
Proof.
  intros name.
  assert (Hname : no_slash name = true).
  { unfold name. rewrite no_slash_app, no_slash_lacks. unfold slash.
    rewrite (replace_char_lacks "/" "_" (arxiv_id rec) eq_refl). reflexivity. }
  split; [exact Hname|].
  unfold pdf_path_of, path_join. fold name.
  rewrite (no_slash_not_rooted name Hname). reflexivity.
Qed.

(** X3. Every record [fetch_entry] builds is well formed: its title and
    its summary hold no line feed and neither begin nor end with
    whitespace, no author name and no category is an empty string, and
    the clock is read exactly once. *)
Theorem fetch_entry_well_formed (e : Entry) (w : World) :
  exists r,
    fetch_entry e w = (Ok r, tick 1 w)
    /\ lacks LF (title r) = true /\ trimmed (title r)
    /\ lacks LF (summary r) = true /\ trimmed (summary r)
    /\ Forall (fun a => a <> EmptyString) (authors r)
    /\ Forall (fun c => c <> EmptyString) (categories r).
Proof.
  eexists. split; [apply fetch_entry_eq|]. cbn [title summary authors categories].
  assert (Hclean : forall s, lacks LF (Py.strip (Py.replace newline " " s)) = true).
  { intros s. unfold Py.strip. apply lacks_rstrip, lacks_lstrip.
    apply (replace_char_lacks LF " " s). reflexivity. }
  repeat split; try apply Hclean; try apply strip_trimmed;
    try apply truthy_fields_nonempty.
Qed.

End Names.

Section Queries.

Lemma append_assoc (a b c : string) : (a +:+ b) +:+ c = a +:+ b +:+ c.
Proof. induction a as [|x a IH]; [reflexivity|]. rewrite !append_cons, IH. reflexivity. Qed.

Lemma append_nil_r (a : string) : a +:+ EmptyString = a.
Proof. induction a as [|x a IH]; [reflexivity|]. rewrite append_cons, IH. reflexivity. Qed.

Lemma startswith_app (p t : string) : Py.startswith p (p +:+ t) = true.
Proof.
  induction p as [|c p IH]; [reflexivity|].
  rewrite append_cons. cbn [Py.startswith]. rewrite Ascii.eqb_refl. exact IH.
Qed.

Lemma startswith_app_l (p a b : string) :
  Py.startswith p a = true -> Py.startswith p (a +:+ b) = true.
Proof.
  intros H. destruct (startswith_inv p a H) as [t ->].
  rewrite append_assoc. apply startswith_app.
Qed.

Lemma contains_app_l (p a b : string) :
  Py.contains p a = true -> Py.contains p (a +:+ b) = true.
Proof.
  induction a as [|c a IH]; intros H.
  - destruct p; [destruct b; reflexivity | discriminate H].
  - rewrite append_cons.
    change (Py.contains p (String c a))
      with (Py.startswith p (String c a) || Py.contains p a) in H.
    change (Py.contains p (String c (a +:+ b)))
      with (Py.startswith p (String c (a +:+ b)) || Py.contains p (a +:+ b)).
    apply orb_true_iff in H as [H|H]; apply orb_true_iff.
    + left. rewrite <- append_cons. apply startswith_app_l. exact H.
    + right. exact (IH H).
Qed.

Lemma contains_app_r (p a b : string) :
  Py.contains p b = true -> Py.contains p (a +:+ b) = true.
Proof.
  intros H. induction a as [|c a IH]; [exact H|].
  rewrite append_cons.
  change (Py.contains p (String c (a +:+ b)))
    with (Py.startswith p (String c (a +:+ b)) || Py.contains p (a +:+ b)).
  rewrite IH. apply orb_true_r.
Qed.

Lemma contains_self (p : string) : Py.contains p p = true.
Proof.
  destruct p as [|c p]; [reflexivity|].
  change (Py.contains (String c p) (String c p))
    with (Py.startswith (String c p) (String c p) || Py.contains (String c p) p).
  rewrite <- (append_nil_r (String c p)) at 2.
  rewrite startswith_app. reflexivity.
Qed.

Lemma contains_join (sep x : string) (ls : list string) :
  x ∈ ls -> Py.contains x (Py.join sep ls) = true.
Proof.
  induction ls as [|y ls IH]; intros H; [inversion H|].
  apply elem_of_cons in H as [->|H].
  - destruct ls; cbn [Py.join]; [apply contains_self|].
    apply contains_app_l, contains_self.
  - specialize (IH H). destruct ls as [|z ls]; [inversion H|].
    change (Py.join sep (y :: z :: ls)) with (y +:+ sep +:+ Py.join sep (z :: ls)).
    apply contains_app_r, contains_app_r. exact IH.
Qed.

(** X4. The query [build_query] builds names every keyword as a quoted
    phrase searched in all fields, and every category. *)
Theorem build_query_mentions (keywords cats : list string) :
  (forall kw, kw ∈ keywords ->
      Py.contains ("all:" +:+ dquote +:+ kw +:+ dquote) (build_query keywords cats) = true)
  /\ (forall c, c ∈ cats ->
      Py.contains ("cat:" +:+ c) (build_query keywords cats) = true).
Proof.
  split.
  - intros kw Hkw.
    assert (Hin : Py.contains ("all:" +:+ dquote +:+ kw +:+ dquote)
                    (Py.join " OR "
                       (map (fun kw => "all:" +:+ dquote +:+ kw +:+ dquote) keywords))
                  = true).
    { apply contains_join. apply list_elem_of_fmap. exists kw. split; [reflexivity | exact Hkw]. }
    unfold build_query. destruct cats.
    + apply (contains_app_r _ "("), contains_app_l. exact Hin.
    + apply (contains_app_r _ "("), contains_app_l. exact Hin.
  - intros c Hc. unfold build_query. destruct cats as [|c0 cats]; [inversion Hc|].
    apply (contains_app_r _ "("), contains_app_r, contains_app_r, contains_app_l.
    apply contains_join. apply list_elem_of_fmap. exists c. split; [reflexivity | exact Hc].
Qed.

Lemma build_query_mentions_witness :
  Py.contains ("all:" +:+ dquote +:+ "rag" +:+ dquote)
    (build_query ["llm"; "rag"] ["cs.CL"]) = true.
Proof.
  apply (proj1 (build_query_mentions ["llm"; "rag"] ["cs.CL"])).
  apply list_elem_of_In. simpl. tauto.
Defined.

End Queries.

Section Configuration.

Lemma check_required_first_missing (config_file : string)
    (config : gmap string Value) (before after : list string) (field : string) :
  Forall (fun k => is_Some (config !! k)) before ->
  config !! field = None ->
  check_required config_file (before ++ field :: after) config
  = Raise (ValueError field config_file).
Proof.
  intros Hb Hnone. induction Hb as [|k before [v Hv] _ IH]; simpl.
  - rewrite Hnone. reflexivity.
  - rewrite Hv. exact IH.
Qed.

Lemma check_required_inv (config_file : string) (fields : list string)
    (config c : gmap string Value) :
  check_required config_file fields config = Ok c ->
  c = config /\ Forall (fun k => is_Some (config !! k)) fields.
Proof.
  induction fields as [|k fields IH]; simpl; intros H.
  - injection H as <-. split; [reflexivity | constructor].
  - destruct (config !! k) as [v|] eqn:Hk; [|discriminate H].
    destruct (IH H) as [-> Hall]. split; [reflexivity|].
    constructor; [rewrite Hk; eauto | exact Hall].
Qed.

Lemma required_not_endpoint (field : string) :
  field ∈ REQUIRED_FIELDS -> "ArXiv_api" <> field.
Proof.
  intros H Heq. subst field. unfold REQUIRED_FIELDS in H.
  repeat (apply elem_of_cons in H as [H|H]; [discriminate H|]).
  inversion H.
Qed.

(** X5. [load_config] fails on the first required field that is missing,
    in the order of its list, with a [ValueError] that names the field
    and the file. *)
Theorem load_config_first_missing (config_file : string)
    (parsed : gmap string Value) (before after : list string) (field : string) :
  REQUIRED_FIELDS = (before ++ field :: after)%list ->
  Forall (fun k => is_Some (parsed !! k)) before ->
  parsed !! field = None ->
  load_config config_file parsed = Raise (ValueError field config_file).
Proof.
  intros Hreq Hb Hnone. unfold load_config. rewrite Hreq.
  assert (Hin : forall k, k ∈ (before ++ field :: after)%list -> "ArXiv_api" <> k).
  { intros k Hk. apply required_not_endpoint. rewrite Hreq. exact Hk. }
  destruct (parsed !! "arxiv_api").
  - apply check_required_first_missing; assumption.
  - apply check_required_first_missing.
    + apply Forall_forall. intros k Hk.
      rewrite lookup_insert_ne by (apply Hin, elem_of_app; left; exact Hk).
      apply (proj1 (Forall_forall _ _) Hb k Hk).
    + rewrite lookup_insert_ne by (apply Hin, elem_of_app; right; left).
      exact Hnone.
Qed.

Lemma load_config_first_missing_witness :
  load_config "cfg.yaml" (delete "pdf_dir" (Demo.yaml_of "out.jsonl" 100 250))
  = Raise (ValueError "pdf_dir" "cfg.yaml").
Proof.
  apply (load_config_first_missing "cfg.yaml" _ ["out_jsonl"; "download_pdfs"]
           ["batch_size"; "total_to_fetch"; "keywords"; "ArXiv_categories"] "pdf_dir").
  - reflexivity.
  - repeat constructor; vm_compute; eauto.
  - vm_compute. reflexivity.
Defined.

(** X6. What [load_config] returns when it succeeds: every required field
    is there; every option but [ArXiv_api] is as the file gives it; and
    [ArXiv_api] is the default endpoint whenever the file has no
    [arxiv_api] option, whatever the file gives for [ArXiv_api] itself,
    and is left as the file has it otherwise. *)
Theorem load_config_result (config_file : string) (parsed c : gmap string Value) :
  load_config config_file parsed = Ok c ->
  Forall (fun k => is_Some (c !! k)) REQUIRED_FIELDS
  /\ (forall k, k <> "ArXiv_api" -> c !! k = parsed !! k)
  /\ c !! "ArXiv_api"
     = match parsed !! "arxiv_api" with
       | None => Some (VStr DEFAULT_ARXIV_API)
       | Some _ => parsed !! "ArXiv_api"
       end.
Proof.
  unfold load_config. intros H. apply check_required_inv in H as [-> Hall].
  split; [exact Hall|].
  destruct (parsed !! "arxiv_api"); split; try reflexivity.
  - intros k Hk. apply lookup_insert_ne. congruence.
  - apply lookup_insert_eq.
Qed.

Lemma load_config_result_witness :
  let parsed := <["ArXiv_api" := VStr Demo.MIRROR]> (Demo.yaml_of "out.jsonl" 100 250) in
  let c := <["ArXiv_api" := VStr DEFAULT_ARXIV_API]> parsed in
  load_config "cfg.yaml" parsed = Ok c
  /\ c !! "ArXiv_api" = Some (VStr DEFAULT_ARXIV_API).
Proof.
  intros parsed c.
  assert (H : load_config "cfg.yaml" parsed = Ok c) by reflexivity.
  split; [exact H|].
  destruct (load_config_result "cfg.yaml" parsed c H) as (_ & _ & Hapi).
  rewrite Hapi. vm_compute. reflexivity.
Defined.

(** X7. [fetch_and_process_papers] reads its four options before it does
    anything else: when one is missing, it raises [KeyError] for the first
    missing one and leaves the world as it is, whatever the other options
    say. *)
Theorem missing_option_key_error (query : string) (config : gmap string Value)
    (w : World) (before after : list string) (key : string) :
  DRIVER_OPTIONS = (before ++ key :: after)%list ->
  Forall (fun k => is_Some (config !! k)) before ->
  config !! key = None ->
  fetch_and_process_papers query config w = (Raise (KeyError key), w).
Proof.
  intros Hopts Hb Hnone. unfold fetch_and_process_papers, lookup_key.
  destruct before as [|k1 [|k2 [|k3 [|k4 before]]]];
    injection Hopts as <-; subst;
    repeat match goal with
           | H : Forall _ (_ :: _) |- _ => inversion H as [|? ? [? ?] ?]; subst; clear H
           end;
    repeat match goal with
           | H : config !! _ = _ |- _ => rewrite H
           end;
    try reflexivity.
  destruct before; discriminate.
Qed.

Lemma missing_option_key_error_witness :
  fetch_and_process_papers "q" (delete "batch_size" (Demo.config_of "out.jsonl" 100 0))
    (Demo.empty_world Demo.quiet_env)
  = (Raise (KeyError "batch_size"), Demo.empty_world Demo.quiet_env).
Proof.
  apply (missing_option_key_error "q" _ _ ["out_jsonl"] ["total_to_fetch"; "ArXiv_api"]).
  - reflexivity.
  - repeat constructor; vm_compute; eauto.
  - vm_compute. reflexivity.
Defined.

(** X8. A configuration error stops [main] before it prints, requests or
    writes anything: when a required field is missing, [main] raises the
    [ValueError] of [load_config] and leaves the world as it is. *)
Theorem main_stops_on_missing_field (config_file : string)
    (parsed : gmap string Value) (w : World) (before after : list string)
    (field : string) :
  REQUIRED_FIELDS = (before ++ field :: after)%list ->
  Forall (fun k => is_Some (parsed !! k)) before ->
  parsed !! field = None ->
  main config_file parsed w = (Raise (ValueError field config_file), w).
Proof.
  intros Hreq Hb Hnone. unfold main.
  rewrite (load_config_first_missing config_file parsed before after field Hreq Hb Hnone).
  reflexivity.
Qed.

Lemma main_stops_on_missing_field_witness :
  main "cfg.yaml" (delete "keywords" (Demo.yaml_of "out.jsonl" 100 250))
    (Demo.empty_world Demo.quiet_env)
  = (Raise (ValueError "keywords" "cfg.yaml"), Demo.empty_world Demo.quiet_env).
Proof.
  apply (main_stops_on_missing_field "cfg.yaml" _ _
           ["out_jsonl"; "download_pdfs"; "pdf_dir"; "batch_size"; "total_to_fetch"]
           ["ArXiv_categories"] "keywords").
  - reflexivity.
  - repeat constructor; vm_compute; eauto.
  - vm_compute. reflexivity.
Defined.

End Configuration.

Section LoopInvariants.

Variables (query : string) (batch_size : Value) (total : Z) (api : Value).

(** The first four invariants of a run that ends at once. *)
Ltac inv_leaf :=
  split; [reflexivity|]; split; [simpl; lia|]; split; [unfold sleeps; simpl; lia|];
  split; [reflexivity|]; split; [|split].

(** The invariants of the loop, for every bound, offset, accumulator and
    world. *)
Lemma fetch_loop_inv (fuel : nat) :
  forall fetched acc w,
  exists new k,
    snd (fetch_loop fuel query batch_size total api fetched acc w) = after new (tick k w)
    /\ (length (search_calls new) <= fuel)%nat
    /\ (sleeps new <= length (search_calls new) <= S (sleeps new))%nat
    /\ get_calls new = []
    /\ (forall b, as_int batch_size = Some b ->
          Forall (fun rq =>
                    rq = page_request api query (rq_start rq)
                           (Z.min b (total - rq_start rq))
                    /\ fetched <= rq_start rq < total)
                 (search_calls new))
    /\ (forall recs,
          fst (fetch_loop fuel query batch_size total api fetched acc w) = Ok recs ->
          exists more, recs = (acc ++ more)%list /\ length more = k)
    /\ (honours_page_size (w_env w) -> Z.of_nat k <= Z.max 0 (total - fetched)).
Proof.
  induction fuel as [|fuel IH]; intros fetched acc w.
  - exists [], O. rewrite tick_0, after_nil. cbn [fetch_loop ret fst snd]. inv_leaf.
    + intros b _. constructor.
    + intros recs H. injection H as <-. exists []. rewrite app_nil_r. split; reflexivity.
    + intros _. lia.
  - rewrite fetch_loop_S.
    destruct (Z.ltb_spec fetched total) as [Hlt|Hge].
    2:{ exists [], O. rewrite tick_0, after_nil. cbn [fst snd]. inv_leaf.
        - intros b _. constructor.
        - intros recs H. injection H as <-. exists []. rewrite app_nil_r.
          split; reflexivity.
        - intros _. lia. }
    destruct (as_int batch_size) as [b0|] eqn:Hb.
    2:{ exists [], O. rewrite tick_0, after_nil. cbn [fst snd]. inv_leaf.
        - intros b Hb'. discriminate Hb'.
        - intros recs H. discriminate H.
        - intros _. lia. }
    cbv zeta.
    set (rq0 := page_request api query fetched (Z.min b0 (total - fetched))).
    destruct (env_feed (w_env w) (length (search_calls (w_trace w))) rq0)
      as [e0|[|en es]] eqn:Hfeed.
    + exists [EvSearch rq0], O. rewrite tick_0. cbn [fst snd]. inv_leaf.
      * intros b Hb'. injection Hb' as <-. repeat constructor; simpl; lia.
      * intros recs H. discriminate H.
      * intros _. lia.
    + exists [EvSearch rq0; EvPrint MsgNoMore], O. rewrite tick_0. cbn [fst snd].
      inv_leaf.
      * intros b Hb'. injection Hb' as <-. repeat constructor; simpl; lia.
      * intros recs H. injection H as <-. exists []. rewrite app_nil_r.
        split; reflexivity.
      * intros _. lia.
    + set (es' := en :: es) in *.
      set (fetched' := fetched + Z.of_nat (length es')).
      set (page := [EvSearch rq0; EvPrint (MsgFetched fetched'); EvSleep]).
      set (w1 := after page (tick (length es') w)).
      set (acc' := (acc ++ records_of es' (after [EvSearch rq0] w))%list).
      destruct (IH fetched' acc' w1)
        as (new & k & Hsnd & Hcalls & Hsleeps & Hgets & Hreqs & Hrecs & Hhon).
      exists (page ++ new)%list, (length es' + k)%nat.
      split; [rewrite Hsnd; unfold w1; rewrite tick_after, tick_tick, after_after;
              reflexivity|].
      rewrite search_calls_app, sleeps_app, get_calls_app, length_app.
      change (search_calls page) with [rq0]. change (sleeps page) with 1%nat.
      change (get_calls page) with (@nil (string * string)).
      split; [simpl; lia|]. split; [simpl; lia|]. split; [exact Hgets|].
      split; [|split].
      * intros b Hb'. injection Hb' as <-.
        constructor; [split; [reflexivity | simpl; lia]|].
        eapply Forall_impl; [apply (Hreqs b0 eq_refl)|].
        intros rq [Hrq Hstart]. split; [exact Hrq|]. unfold fetched' in Hstart. lia.
      * intros recs H. destruct (Hrecs recs H) as (more & -> & Hlen).
        exists (records_of es' (after [EvSearch rq0] w) ++ more)%list.
        unfold acc'. rewrite <- app_assoc. split; [reflexivity|].
        rewrite length_app, records_of_length, Hlen. reflexivity.
      * intros Hhonest. specialize (Hhon Hhonest).
        pose proof (Hhonest _ _ _ Hfeed) as Hpage.
        change (rq_max_results rq0) with (Z.min b0 (total - fetched)) in Hpage.
        unfold fetched' in Hhon. lia.
Qed.

End LoopInvariants.

Section RunShape.

(** When the sink cannot be appended to, [save_jsonl] raises and writes
    nothing. *)
Lemma save_jsonl_not_ready (out : Value) (recs : list PaperRecord) (w : World) :
  sink_ready out w = false ->
  exists e w2 evs,
    save_jsonl out recs w = (Raise e, w2)
    /\ w_files w2 = w_files w
    /\ w_trace w2 = (w_trace w ++ evs)%list
    /\ search_calls evs = [] /\ get_calls evs = [] /\ sleeps evs = 0%nat.
Proof.
  destruct out as [| | |p|];
    try (intros _; exists TypeError, w, []; rewrite app_nil_r; repeat split; reflexivity).
  unfold sink_ready, save_jsonl, bind. intros H.
  destruct (String.eqb (dirname p) EmptyString).
  - unfold ret at 1. unfold ret at 1 in H. rewrite open_file_eq in H |- *.
    destruct (can_open w p); [discriminate H|].
    eexists _, _, [EvOpen p true]. repeat split; reflexivity.
  - unfold makedirs in H |- *. destruct (_ || _).
    + eexists _, _, []. rewrite app_nil_r. repeat split; reflexivity.
    + rewrite open_file_eq in H |- *.
      match goal with
      | |- context [can_open ?w1 p] => destruct (can_open w1 p)
      end; [discriminate H|].
      eexists _, _, [EvOpen p true]. repeat split; reflexivity.
Qed.

Variables (query : string) (config : gmap string Value).
Variables (out batch_size total_v api : Value) (total : Z).

Hypothesis Hout : config !! "out_jsonl" = Some out.
Hypothesis Hbatch : config !! "batch_size" = Some batch_size.
Hypothesis Htotal : config !! "total_to_fetch" = Some total_v.
Hypothesis Hapi : config !! "ArXiv_api" = Some api.
Hypothesis Hint : as_int total_v = Some total.

(** The three ways a run can end once the options are read: the loop
    raises; the loop returns and the records are saved; the loop returns
    and the sink cannot be appended to.  In each the events [new] of the
    loop and the number [k] of entries it normalized keep the invariants
    of the loop. *)
Lemma fetch_and_process_papers_run (w : World) :
  exists new k,
    (length (search_calls new) <= Z.to_nat total)%nat
    /\ (sleeps new <= length (search_calls new) <= S (sleeps new))%nat
    /\ get_calls new = []
    /\ (forall b, as_int batch_size = Some b ->
          Forall (fun rq =>
                    rq = page_request api query (rq_start rq)
                           (Z.min b (total - rq_start rq))
                    /\ 0 <= rq_start rq < total)
                 (search_calls new))
    /\ (honours_page_size (w_env w) -> Z.of_nat k <= Z.max 0 total)
    /\ ((exists e,
           fetch_and_process_papers query config w = (Raise e, after new (tick k w)))
        \/ (exists recs p,
              length recs = k /\ out = VStr p
              /\ fetch_and_process_papers query config w
                 = (Ok recs, after [EvPrint (MsgSaved (length recs) out)]
                               (saved p recs (after new (tick k w)))))
        \/ (exists e w2 evs,
              fetch_and_process_papers query config w = (Raise e, w2)
              /\ w_files w2 = w_files w
              /\ w_trace w2 = (w_trace w ++ new ++ evs)%list
              /\ search_calls evs = [] /\ get_calls evs = [] /\ sleeps evs = 0%nat)).
Proof.
  rewrite (fetch_and_process_papers_eq query config out batch_size total_v api total w
             Hout Hbatch Htotal Hapi Hint).
  destruct (fetch_loop_inv query batch_size total api (Z.to_nat total) 0 [] w)
    as (new & k & Hsnd & Hcalls & Hsleeps & Hgets & Hreqs & Hrecs & Hhon).
  exists new, k. do 4 (split; [assumption|]).
  split; [intros Hh; specialize (Hhon Hh); lia|].
  destruct (fetch_loop (Z.to_nat total) query batch_size total api 0 [] w)
    as [[recs|e] w1]; cbn [fst snd] in Hsnd, Hrecs; subst w1.
  - destruct (Hrecs recs eq_refl) as (more & Hmore & Hlen).
    rewrite app_nil_l in Hmore. subst more.
    destruct (sink_ready out (after new (tick k w))) eqn:Hready.
    + destruct (save_jsonl_ready out recs _ Hready) as (p & Hp & Hsave).
      rewrite Hsave. right. left. exists recs, p. repeat split; assumption.
    + destruct (save_jsonl_not_ready out recs _ Hready)
        as (e & w2 & evs & Hsave & Hfiles & Htr & Hs & Hg & Hsl).
      rewrite Hsave. right. right. exists e, w2, evs.
      split; [reflexivity|]. split; [exact Hfiles|].
      split; [rewrite Htr; simpl; rewrite <- app_assoc; reflexivity|].
      repeat split; assumption.
  - left. exists e. reflexivity.
Qed.

(** X9. The driver always stops, and paces itself: a run makes at most
    [total_to_fetch] page requests (none when it is zero or negative) and
    no artifact request; it pauses once after every page that brought
    entries, so that the pauses are as many as the requests or one less. *)
Theorem fetch_run_is_bounded (w : World) :
  exists new,
    w_trace (snd (fetch_and_process_papers query config w)) = (w_trace w ++ new)%list
    /\ (length (search_calls new) <= Z.to_nat total)%nat
    /\ (sleeps new <= length (search_calls new) <= S (sleeps new))%nat
    /\ get_calls new = [].
Proof.
  destruct (fetch_and_process_papers_run w)
    as (new & k & Hcalls & Hsleeps & Hgets & _ & _ & Hrun).
  destruct Hrun as [(e & ->) | [(recs & p & _ & _ & ->)
                               | (e & w2 & evs & -> & _ & Htr & Hs & Hg & Hsl)]];
    cbn [snd].
  - exists new. repeat split; try assumption; lia.
  - exists (new ++ [EvOpen p true; EvPrint (MsgSaved (length recs) out)])%list.
    split; [simpl; rewrite <- !app_assoc; reflexivity|].
    rewrite search_calls_app, sleeps_app, get_calls_app, Hgets.
    change (search_calls [EvOpen p true; EvPrint (MsgSaved (length recs) out)])
      with (@nil SearchReq).
    change (sleeps [EvOpen p true; EvPrint (MsgSaved (length recs) out)]) with O.
    rewrite app_nil_r, Nat.add_0_r. repeat split; try assumption; lia.
  - exists (new ++ evs)%list. split; [exact Htr|].
    rewrite search_calls_app, sleeps_app, get_calls_app, Hgets, Hs, Hg, Hsl.
    rewrite app_nil_r, Nat.add_0_r. repeat split; try assumption; lia.
Qed.

(** X10. Every page request of a run is well formed: it goes to the
    configured endpoint with the query, sorted by submission date in
    descending order with a timeout of 30 seconds; it starts at an offset
    from 0 up to, but not at, [total_to_fetch]; and it asks for the
    smaller of the batch size and what is left to fetch from its offset. *)
Theorem fetch_requests_well_formed (w : World) (b : Z) :
  as_int batch_size = Some b ->
  exists new,
    w_trace (snd (fetch_and_process_papers query config w)) = (w_trace w ++ new)%list
    /\ Forall (fun rq =>
                 rq = mkReq api query (rq_start rq) (Z.min b (total - rq_start rq))
                            "submittedDate" "descending" 30
                 /\ 0 <= rq_start rq < total)
              (search_calls new).
Proof.
  intros Hb.
  destruct (fetch_and_process_papers_run w)
    as (new & k & _ & _ & _ & Hreqs & _ & Hrun).
  specialize (Hreqs b Hb).
  destruct Hrun as [(e & ->) | [(recs & p & _ & _ & ->)
                               | (e & w2 & evs & -> & _ & Htr & Hs & _)]];
    cbn [snd].
  - exists new. split; [reflexivity | exact Hreqs].
  - exists (new ++ [EvOpen p true; EvPrint (MsgSaved (length recs) out)])%list.
    split; [simpl; rewrite <- !app_assoc; reflexivity|].
    rewrite search_calls_app.
    change (search_calls [EvOpen p true; EvPrint (MsgSaved (length recs) out)])
      with (@nil SearchReq).
    rewrite app_nil_r. exact Hreqs.
  - exists (new ++ evs)%list. split; [exact Htr|].
    rewrite search_calls_app, Hs, app_nil_r. exact Hreqs.
Qed.

(** X11. Against a remote side that never answers with more entries than
    a request asks for, a run returns at most [total_to_fetch] records. *)
Theorem fetch_returns_at_most_total (w : World) (recs : list PaperRecord) :
  honours_page_size (w_env w) ->
  fst (fetch_and_process_papers query config w) = Ok recs ->
  Z.of_nat (length recs) <= Z.max 0 total.
Proof.
  intros Hh Hres.
  destruct (fetch_and_process_papers_run w) as (new & k & _ & _ & _ & _ & Hhon & Hrun).
  specialize (Hhon Hh).
  destruct Hrun as [(e & Hr) | [(recs' & p & Hlen & _ & Hr) | (e & w2 & evs & Hr & _)]];
    rewrite Hr in Hres; cbn [fst] in Hres; try discriminate Hres.
  injection Hres as <-. rewrite Hlen. exact Hhon.
Qed.

(** X12. The log only grows: a run that returns has appended exactly the
    records it returns, in order, after the lines the log held, and has
    left every other file as it was; a run that raises has changed no
    file at all. *)
Theorem fetch_run_appends_its_records (w : World) :
  match fetch_and_process_papers query config w with
  | (Ok recs, w') =>
      exists p,
        out = VStr p
        /\ w_files w'
           = <[p := (default [] (w_files w !! p) ++ map JsonLine recs)%list]> (w_files w)
  | (Raise _, w') => w_files w' = w_files w
  end.
Proof.
  destruct (fetch_and_process_papers_run w) as (new & k & _ & _ & _ & _ & _ & Hrun).
  destruct Hrun as [(e & ->) | [(recs & p & _ & Hp & ->) | (e & w2 & evs & -> & Hf & _)]].
  - reflexivity.
  - exists p. split; [exact Hp | reflexivity].
  - exact Hf.
Qed.

End RunShape.

Section RunWitnesses.

Lemma fetch_run_is_bounded_witness :
  exists new,
    w_trace (snd (fetch_and_process_papers "q" (Demo.config_of "data/papers.jsonl" 2 5)
                    (Demo.logged_world Demo.timeout_env)))
    = (w_trace (Demo.logged_world Demo.timeout_env) ++ new)%list
    /\ (length (search_calls new) <= 5)%nat.
Proof.
  destruct (fetch_run_is_bounded "q" (Demo.config_of "data/papers.jsonl" 2 5)
              (VStr "data/papers.jsonl") (VInt 2) (VInt 5) (VStr DEFAULT_ARXIV_API) 5)
    with (w := Demo.logged_world Demo.timeout_env)
    as (new & Htr & Hcalls & _); try (vm_compute; reflexivity).
  exists new. split; [exact Htr | exact Hcalls].
Defined.

Lemma fetch_requests_well_formed_witness :
  exists new,
    w_trace (snd (fetch_and_process_papers "q" (Demo.config_of "data/papers.jsonl" 2 5)
                    (Demo.logged_world Demo.timeout_env)))
    = (w_trace (Demo.logged_world Demo.timeout_env) ++ new)%list
    /\ Forall (fun rq => 0 <= rq_start rq < 5) (search_calls new).
Proof.
  destruct (fetch_requests_well_formed "q" (Demo.config_of "data/papers.jsonl" 2 5)
              (VStr "data/papers.jsonl") (VInt 2) (VInt 5) (VStr DEFAULT_ARXIV_API) 5)
    with (w := Demo.logged_world Demo.timeout_env) (b := 2)
    as (new & Htr & Hreqs); try (vm_compute; reflexivity).
  exists new. split; [exact Htr|].
  eapply Forall_impl; [exact Hreqs|]. intros rq [_ H]. exact H.
Defined.

Lemma honest_env_honours : honours_page_size Demo.honest_env.
Proof.
  intros n rq es H. simpl in H. injection H as <-. rewrite repeat_length. lia.
Qed.

Lemma fetch_returns_at_most_total_witness :
  exists recs,
    fst (fetch_and_process_papers "q" (Demo.config_of "data/papers.jsonl" 2 5)
           (Demo.empty_world Demo.honest_env)) = Ok recs
    /\ Z.of_nat (length recs) <= 5.
Proof.
  eexists. split; [vm_compute; reflexivity|].
  apply (fetch_returns_at_most_total "q" (Demo.config_of "data/papers.jsonl" 2 5)
           (VStr "data/papers.jsonl") (VInt 2) (VInt 5) (VStr DEFAULT_ARXIV_API) 5)
    with (w := Demo.empty_world Demo.honest_env);
    try (vm_compute; reflexivity).
  exact honest_env_honours.
Defined.

Lemma fetch_run_appends_its_records_witness :
  w_files (snd (fetch_and_process_papers "q" (Demo.config_of "data/papers.jsonl" 2 5)
                  (Demo.logged_world Demo.timeout_env)))
  = w_files (Demo.logged_world Demo.timeout_env).
Proof.
  pose proof (fetch_run_appends_its_records "q" (Demo.config_of "data/papers.jsonl" 2 5)
                (VStr "data/papers.jsonl") (VInt 2) (VInt 5) (VStr DEFAULT_ARXIV_API) 5
                eq_refl eq_refl eq_refl eq_refl eq_refl
                (Demo.logged_world Demo.timeout_env)) as H.
  destruct (fetch_and_process_papers "q" (Demo.config_of "data/papers.jsonl" 2 5)
              (Demo.logged_world Demo.timeout_env)) as [[recs|e] w'] eqn:Hrun.
  - exfalso. vm_compute in Hrun. discriminate Hrun.
  - exact H.
Defined.

End RunWitnesses.

Section DownloaderScope.

Lemma truthy_str_some (o : option string) :
  Py.truthy_str o = true -> o = Some (default EmptyString o).
Proof. destruct o as [[|c s]|]; simpl; intros H; try discriminate H; reflexivity. Qed.

(** A step without an event, which keeps the files. *)
Ltac no_events :=
  exists []; rewrite app_nil_r;
  split; [reflexivity|]; split; [reflexivity|]; split; [reflexivity|];
  split; [intros u q Hq; inversion Hq | intros; reflexivity].

(** What one record of the loop requests, writes and waits for. *)
Lemma download_one_scope (pdf_dir : string) (rec : PaperRecord) (w : World) :
  exists new,
    w_trace (snd (download_one pdf_dir rec w)) = (w_trace w ++ new)%list
    /\ sleeps new = length (downloaded new)
    /\ search_calls new = []
    /\ (forall u q, (u, q) ∈ get_calls new ->
                    pdf_url rec = Some u /\ q = pdf_path_of pdf_dir rec)
    /\ (forall q, q <> pdf_path_of pdf_dir rec ->
                  w_files (snd (download_one pdf_dir rec w)) !! q = w_files w !! q).
Proof.
  rewrite download_one_eq. cbn [snd].
  destruct (Py.truthy_str (pdf_url rec)) eqn:Htruthy; cbn [negb].
  2:{ no_events. }
  destruct (present w (pdf_path_of pdf_dir rec)); [no_events|].
  assert (Hcall : forall evs u q,
             get_calls evs = [(default EmptyString (pdf_url rec), pdf_path_of pdf_dir rec)] ->
             (u, q) ∈ get_calls evs ->
             pdf_url rec = Some u /\ q = pdf_path_of pdf_dir rec).
  { intros evs u q -> Hq. apply list_elem_of_singleton in Hq. injection Hq as -> ->.
    split; [apply truthy_str_some; exact Htruthy | reflexivity]. }
  destruct (env_http _ _ _) as [e|e|chunks [e|]];
    [| | destruct (can_open w (pdf_path_of pdf_dir rec))
         | destruct (can_open w (pdf_path_of pdf_dir rec))];
    eexists; (split; [reflexivity|]); (split; [reflexivity|]);
    (split; [reflexivity|]);
    (split; [intros u q; apply Hcall; reflexivity|]);
    intros q Hq; unfold wrote, after; cbn [w_files];
    try reflexivity; apply lookup_insert_ne; congruence.
Qed.

Lemma download_one_ok (pdf_dir : string) (rec : PaperRecord) (w : World) :
  fst (download_one pdf_dir rec w) = Ok tt.
Proof. rewrite download_one_eq. reflexivity. Qed.

Lemma download_loop_scope (pdf_dir : string) (records : list PaperRecord) :
  forall w, exists new,
    w_trace (snd (for_each (download_one pdf_dir) records w)) = (w_trace w ++ new)%list
    /\ sleeps new = length (downloaded new)
    /\ search_calls new = []
    /\ (forall u q, (u, q) ∈ get_calls new ->
          exists rec, rec ∈ records /\ pdf_url rec = Some u
                      /\ q = pdf_path_of pdf_dir rec)
    /\ (forall q, (forall rec, rec ∈ records -> q <> pdf_path_of pdf_dir rec) ->
          w_files (snd (for_each (download_one pdf_dir) records w)) !! q
          = w_files w !! q).
Proof.
  induction records as [|r records IH]; intros w.
  - no_events.
  - cbn [for_each]. unfold bind.
    destruct (download_one_scope pdf_dir r w) as (new1 & Htr1 & Hsl1 & Hs1 & Hc1 & Hf1).
    pose proof (download_one_ok pdf_dir r w) as Hok.
    destruct (download_one pdf_dir r w) as [res w1]. cbn [fst snd] in *. subst res.
    destruct (IH w1) as (new2 & Htr2 & Hsl2 & Hs2 & Hc2 & Hf2).
    exists (new1 ++ new2)%list.
    split; [rewrite Htr2, Htr1, app_assoc; reflexivity|].
    split; [rewrite sleeps_app, downloaded_app, length_app; congruence|].
    split; [rewrite search_calls_app, Hs1, Hs2; reflexivity|].
    split.
    + intros u q Hq. rewrite get_calls_app in Hq. apply elem_of_app in Hq as [Hq|Hq].
      * destruct (Hc1 u q Hq) as [Hu Hp]. exists r.
        split; [apply elem_of_cons; left; reflexivity | split; assumption].
      * destruct (Hc2 u q Hq) as (rec & Hrec & Hu & Hp). exists rec.
        split; [apply elem_of_cons; right; exact Hrec | split; assumption].
    + intros q Hq. rewrite Hf2.
      * apply Hf1. apply Hq. apply elem_of_cons. left. reflexivity.
      * intros rec Hrec. apply Hq. apply elem_of_cons. right. exact Hrec.
Qed.

(** X13. The downloader keeps to its records and paces itself: in every
    run, each artifact request is for the URL of one of the records and
    streams to the destination of that record; a file that is the
    destination of none of the records is left as it is; no page request
    is made; and the run pauses exactly once for each artifact it reports
    as downloaded, never after a failure or a skip. *)
Theorem download_run_scope (pdf_dir : string) (records : list PaperRecord)
    (w : World) :
  exists new,
    w_trace (snd (download_pdfs_for_records records pdf_dir w)) = (w_trace w ++ new)%list
    /\ sleeps new = length (downloaded new)
    /\ search_calls new = []
    /\ (forall u q, (u, q) ∈ get_calls new ->
          exists rec, rec ∈ records /\ pdf_url rec = Some u
                      /\ q = pdf_path_of pdf_dir rec)
    /\ (forall q, (forall rec, rec ∈ records -> q <> pdf_path_of pdf_dir rec) ->
          w_files (snd (download_pdfs_for_records records pdf_dir w)) !! q
          = w_files w !! q).
Proof.
  unfold download_pdfs_for_records, bind.
  destruct (makedirs_cases pdf_dir w) as [-> | (w0 & -> & Htr0 & _ & Hfiles0 & _)].
  - no_events.
  - destruct (download_loop_scope pdf_dir records w0) as (new & Htr & Hsl & Hs & Hc & Hf).
    exists new. rewrite <- Htr0, <- Hfiles0. repeat split; assumption.
Qed.

Lemma join_empty_sep (c : string) (rest : list string) :
  Py.join EmptyString (c :: rest) = c +:+ Py.join EmptyString rest.
Proof.
  destruct rest; cbn [Py.join]; [rewrite append_nil_r | rewrite append_nil];
    reflexivity.
Qed.

Lemma file_bytes_received (chunks : list string) :
  file_bytes (received chunks) = Py.join EmptyString chunks.
Proof.
  induction chunks as [|c chunks IH]; [reflexivity|].
  rewrite join_empty_sep. unfold received in *. cbn [List.filter].
  destruct c as [|a c]; cbn [String.eqb negb map file_bytes].
  - rewrite IH, append_nil. reflexivity.
  - rewrite IH. reflexivity.
Qed.

(** X14. A transfer that completes stores the stream: when the request is
    answered by a body that streams to its end and the destination can be
    opened, [download_pdf] returns normally and the file at the
    destination holds exactly the bytes of the chunks received, in order,
    in place of whatever it held before; no other file changes. *)
Theorem download_pdf_stores_stream (url p : string) (w : World)
    (chunks : list string) :
  env_http (w_env w) (length (get_calls (w_trace w))) url = GetStream chunks None ->
  can_open w p = true ->
  exists w' bs,
    download_pdf url p w = (Ok tt, w')
    /\ w_files w' !! p = Some bs
    /\ file_bytes bs = Py.join EmptyString chunks
    /\ (forall q, q <> p -> w_files w' !! q = w_files w !! q)
    /\ get_calls (w_trace w') = (get_calls (w_trace w) ++ [(url, p)])%list.
Proof.
  intros Hanswer Hopen. rewrite download_pdf_eq, Hanswer, Hopen.
  eexists _, (received chunks). split; [reflexivity|].
  unfold wrote. cbn [w_files w_trace].
  split; [apply lookup_insert_eq|].
  split; [apply file_bytes_received|].
  split; [intros q Hq; apply lookup_insert_ne; congruence|].
  rewrite get_calls_app. reflexivity.
Qed.

Lemma download_pdf_stores_stream_witness :
  exists w',
    download_pdf "http://arxiv.org/pdf/2401.00001.pdf" "pdfs/2401.00001.pdf"
      (Demo.cached_world Demo.honest_env) = (Ok tt, w')
    /\ (exists bs, w_files w' !! "pdfs/2401.00001.pdf" = Some bs
                   /\ file_bytes bs = "%PDF-1.5 body").
Proof.
  destruct (download_pdf_stores_stream "http://arxiv.org/pdf/2401.00001.pdf"
              "pdfs/2401.00001.pdf" (Demo.cached_world Demo.honest_env)
              ["%PDF-1.5 "; ""; "body"] eq_refl eq_refl)
    as (w' & bs & Hrun & Hfile & Hbytes & _).
  exists w'. split; [exact Hrun|]. exists bs. split; [exact Hfile | exact Hbytes].
Defined.

End DownloaderScope.

Section MainRun.

Lemma download_run_scope_witness :
  w_files (snd (download_pdfs_for_records
                  [Demo.paper "2401.00001"; Demo.paper "2401.00002"] "pdfs"
                  (Demo.cached_world Demo.second_fails_env))) !! "data/papers.jsonl"
  = w_files (Demo.cached_world Demo.second_fails_env) !! "data/papers.jsonl".
Proof.
  destruct (download_run_scope "pdfs" [Demo.paper "2401.00001"; Demo.paper "2401.00002"]
              (Demo.cached_world Demo.second_fails_env))
    as (new & _ & _ & _ & _ & Hfiles).
  apply Hfiles. intros rec Hrec.
  repeat (apply elem_of_cons in Hrec as [->|Hrec]; [vm_compute; discriminate|]).
  inversion Hrec.
Defined.

(** X15. [build_search_query] treats a missing [keywords] or
    [ArXiv_categories] option as the empty list: with each option either a
    list or absent, it returns the query [build_query] makes of them and
    prints it once, without any other effect; a [keywords] option that is
    neither a list nor a string raises [TypeError] before anything is
    printed. *)
Theorem build_search_query_defaults (config : gmap string Value) (w : World) :
  (forall kws cats,
      default (VList []) (config !! "keywords") = VList kws ->
      default (VList []) (config !! "ArXiv_categories") = VList cats ->
      build_search_query config w
      = (Ok (build_query kws cats),
         after [EvPrint (MsgQuery (build_query kws cats))] w))
  /\ (forall v,
        config !! "keywords" = Some v ->
        (forall l, v <> VList l) -> (forall s, v <> VStr s) ->
        build_search_query config w = (Raise TypeError, w)).
Proof.
  split.
  - intros kws cats Hk Hc. unfold build_search_query. rewrite Hk, Hc.
    destruct cats; reflexivity.
  - intros v Hv Hl Hs. unfold build_search_query. rewrite Hv.
    destruct v; try reflexivity.
    + exfalso. apply (Hs s). reflexivity.
    + exfalso. apply (Hl l). reflexivity.
Qed.

Lemma build_search_query_defaults_witness :
  build_search_query (delete "keywords" (Demo.config_of "out.jsonl" 100 250))
    (Demo.empty_world Demo.quiet_env)
  = (Ok (build_query [] ["cs.CL"]),
     after [EvPrint (MsgQuery (build_query [] ["cs.CL"]))]
           (Demo.empty_world Demo.quiet_env)).
Proof.
  apply (proj1 (build_search_query_defaults _ _)); vm_compute; reflexivity.
Defined.

Lemma build_search_query_trace (config : gmap string Value) (w : World) :
  exists evs,
    snd (build_search_query config w) = after evs w
    /\ get_calls evs = [] /\ search_calls evs = [].
Proof.
  unfold build_search_query, bind.
  destruct (iterate (default (VList []) (config !! "keywords")) w) as [[kws|e] w1] eqn:H1.
  2:{ exists []. rewrite after_nil. unfold iterate, ret, raise in H1.
      destruct (default (VList []) (config !! "keywords")); injection H1 as _ <-;
        repeat split; reflexivity. }
  assert (w1 = w) as ->.
  { unfold iterate, ret, raise in H1.
    destruct (default (VList []) (config !! "keywords")); injection H1 as _ <-;
      reflexivity. }
  destruct (if truthy (default (VList []) (config !! "ArXiv_categories"))
            then iterate (default (VList []) (config !! "ArXiv_categories"))
            else ret []) eqn:H2.
  assert (w0 = w) as ->.
  { unfold iterate, ret, raise in H2.
    destruct (truthy _); [destruct (default (VList []) (config !! "ArXiv_categories"))|];
      injection H2 as _ <-; reflexivity. }
  destruct r as [cats|e].
  - eexists [_]. repeat split; reflexivity.
  - exists []. rewrite after_nil. repeat split; reflexivity.
Qed.

(** A run of the driver, whatever its options: it requests no artifact
    and writes no file but the log its configuration names. *)
Lemma fetch_run_touches_only_the_log (query : string) (config : gmap string Value)
    (w : World) :
  exists new,
    w_trace (snd (fetch_and_process_papers query config w)) = (w_trace w ++ new)%list
    /\ get_calls new = []
    /\ (forall q, config !! "out_jsonl" <> Some (VStr q) ->
          w_files (snd (fetch_and_process_papers query config w)) !! q
          = w_files w !! q).
Proof.
  destruct (fetch_and_process_papers_cases query config w)
    as [[e ->] | (out & bs & tv & api & total & Ho & Hb & Ht & Ha & Hint)].
  - exists []. rewrite app_nil_r. repeat split; reflexivity.
  - destruct (fetch_run_is_bounded query config out bs tv api total Ho Hb Ht Ha Hint w)
      as (new & Htr & _ & _ & Hgets).
    exists new. split; [exact Htr|]. split; [exact Hgets|].
    intros q Hq.
    pose proof (fetch_run_appends_its_records query config out bs tv api total
                  Ho Hb Ht Ha Hint w) as Hfiles.
    destruct (fetch_and_process_papers query config w) as [[recs|e] w'];
      cbn [snd].
    + destruct Hfiles as (p & -> & ->). apply lookup_insert_ne. congruence.
    + rewrite Hfiles. reflexivity.
Qed.

(** X16. With downloads switched off, [main] requests no artifact and
    writes no file but the log: for a configuration that loads and whose
    [download_pdfs] option is false, empty or zero, a run of [main] makes
    no artifact request and leaves every file other than the one named by
    [out_jsonl] as it was. *)
Theorem main_without_downloads (config_file : string) (parsed c : gmap string Value)
    (v : Value) (w : World) :
  load_config config_file parsed = Ok c ->
  c !! "download_pdfs" = Some v ->
  truthy v = false ->
  exists new,
    w_trace (snd (main config_file parsed w)) = (w_trace w ++ new)%list
    /\ get_calls new = []
    /\ (forall q, c !! "out_jsonl" <> Some (VStr q) ->
          w_files (snd (main config_file parsed w)) !! q = w_files w !! q).
Proof.
  intros Hload Hv Hfalse. unfold main. rewrite Hload. unfold bind.
  destruct (build_search_query_trace c w) as (evs & Hq & Hg & _).
  destruct (build_search_query c w) as [[query|e] w1]; cbn [snd] in Hq; subst w1.
  2:{ exists evs. split; [reflexivity|]. split; [exact Hg|]. intros; reflexivity. }
  destruct (fetch_run_touches_only_the_log query c (after evs w))
    as (new & Htr & Hgets & Hfiles).
  destruct (fetch_and_process_papers query c (after evs w)) as [[recs|e] w2];
    cbn [snd] in Htr, Hfiles.
  - unfold lookup_key. rewrite Hv. unfold ret. cbn beta iota. rewrite Hfalse.
    exists (evs ++ new)%list. cbn [snd].
    split; [rewrite Htr; simpl; rewrite <- app_assoc; reflexivity|].
    split; [rewrite get_calls_app, Hg, Hgets; reflexivity|].
    exact Hfiles.
  - exists (evs ++ new)%list. cbn [snd].
    split; [rewrite Htr; simpl; rewrite <- app_assoc; reflexivity|].
    split; [rewrite get_calls_app, Hg, Hgets; reflexivity|].
    exact Hfiles.
Qed.

Lemma main_without_downloads_witness :
  exists new,
    w_trace (snd (main "cfg.yaml"
                    (<["download_pdfs" := VBool false]> (Demo.yaml_of "out.jsonl" 2 5))
                    (Demo.cached_world Demo.honest_env)))
    = (w_trace (Demo.cached_world Demo.honest_env) ++ new)%list
    /\ get_calls new = [].
Proof.
  destruct (main_without_downloads "cfg.yaml"
              (<["download_pdfs" := VBool false]> (Demo.yaml_of "out.jsonl" 2 5))
              (<["ArXiv_api" := VStr DEFAULT_ARXIV_API]>
                 (<["download_pdfs" := VBool false]> (Demo.yaml_of "out.jsonl" 2 5)))
              (VBool false) (Demo.cached_world Demo.honest_env))
    as (new & Htr & Hgets & _); try reflexivity.
  exists new. split; [exact Htr | exact Hgets].
Defined.

End MainRun.
